(* ===== verification/_CoqProject ===== *)
-Q . S2P
Prelude.v
Types.v
Runtime.v
TickSpec.v
TickEngine.v
TickProperties.v
Json.v
JsonDecode.v
Transport.v
Display.v
Session.v
SessionProperties.v
View.v
