(* ===== verification/Prelude.v ===== *)
(** * Supply-chain real-time simulator: a verification development

    This library models the non-UI logic of the TypeScript/React program
    "supply-chain-real-time-simulator" (files under [src/]) and proves the
    properties that make it correct.

    ** The program

    - [src/types.ts] and [src/constants.ts]: the data model (products,
      simulation parameters, aggregate results, connection status) and the
      constants (broker address, topic, default parameters).
    - [src/App.tsx]: the simulation session.  [runSimulationTick] (lines
      98-180) is the tick engine: for every product it draws a demand,
      updates the stock, restocks to capacity at or below the reorder
      level, draws fresh sensor readings, derives a status, accumulates
      four running totals, then draws a lead time, builds the aggregate
      result, publishes one event per product and the aggregate, and
      appends to the history.  [startSimulation] / [stopSimulation]
      (lines 70-96) form the scheduler: they reset the registry, connect
      the transport, run one tick and arm / disarm a repeating timer.
    - [src/services/mqttService.ts]: the transport adapter (connect,
      publish, disconnect) over an MQTT client that reports connection
      events through callbacks.
    - [src/components/*.tsx] and the render of [App]: mostly
      presentation; the logic there is [SimulationControls.handleChange]
      and the guards of its buttons and inputs, the stockout/connection
      predicates and card values of [MetricsDisplay], the 20-entry window
      of [StockChart], and the values of the product cards of [App]
      (lines 226-261: the stock percentage, the price, the badge).

    The parts interact through the React state of [App]: the form's
    events start and stop the session and edit the parameters; the
    session calls the tick engine on the registry, the transport for
    every payload, and appends to the history that the dashboard and the
    chart display; the render passes the state to the form, the
    dashboard, the chart and the product cards.  The registry, the history snapshots and the captured
    seed catalog share product objects, which the tick mutates.

    ** The files of the development (in dependency order)

    - [Prelude] (this file): notation scope [scsim_scope], the fixed-point
      arithmetic shared by the engine (JavaScript's [Math.floor] of a
      scaled draw and [Number.prototype.toFixed] rounding, written on [Z]),
      list sums and counts, the hint databases [scsim] and [scsim_sums]
      and the tactic [unfold_sums].
    - [Types]: [types.ts] and [constants.ts] as records and inductive
      types with decidable equality, the stock invariant [product_wf], and
      the seed catalog [initialProducts] of App.tsx 20-66.
    - [Runtime]: the interface [Runtime] (a type class) that the code
      requires of the JavaScript host ([Math.random], [Date.now]), the
      state monad [Eff] that threads the host state, its weakest
      precondition [wp] with one rule per operation and the tactic
      [wp_steps], and a scripted host [Script] used by the witnesses.
    - [TickSpec]: the abstract, nondeterministic contract of one tick
      (design section 4.1: every draw is "some value in its range"):
      [product_step] and [tick_spec], what they guarantee (the stock
      invariant, the bounds of the aggregate), and the [buffered] products
      that can never run out.
    - [TickEngine]: [runSimulationTick] as the code writes it: the
      per-product callback [simulate_product] (App.tsx 106-136), the
      [prev.map] traversal that threads the four running totals
      ([map_products]), the lead-time draw, the aggregate and the
      [product_update] events ([runSimulationTick], 98-167).  Its lemmas
      prove the refinement of [TickSpec] ([simulate_product_refines],
      [tick_refines_contract]) and relate the object the callback mutates
      (line 119) to the product it returns ([step_pair]).  Conversely,
      on the scripted host, the draws [demand_draw] make the tick sell
      any demand vector the contract allows ([map_products_onto]).
    - [TickProperties]: the claims of the tick engine: the stock
      invariant, the refinement and its converse (every demand from 0 to
      [demandRate] is drawn by some host), the restock rule, the aggregate
      equations and bounds, the lead-time bounds (and inverted bounds),
      the sensor ranges and the unreachable [WARNING], one event per
      product, the scenarios of section 8, the ignored policy parameters.
    - [Json]: the JSON values the code builds, [JSON.stringify] with
      [QuoteJSONString] escaping and the shortest decimal of a fixed-point
      number, its indented form [stringify_pretty] (the dashboard's
      [JSON.stringify(currentData, null, 2)]), [toISOString], the two
      payloads of a tick and the [currentData] object.
    - [JsonDecode]: the reading side of the wire, which the repository
      leaves to its subscribers: a decoder of JSON after RFC 8259 as
      [JSON.parse] reads it (numbers by value), its termination with the
      fuel it is given, the round trip of [stringify] for every value
      ([decode_json_stringify]) and the schemas of section 6 that the
      messages of a tick satisfy ([tick_messages_typed]); [strip_ws],
      the whitespace [JSON.parse] skips, and the indented layout that
      strips to the compact one ([strip_pretty]).
    - [Transport]: [mqttService.ts]: the handle [this.client] into the
      store of library clients, [connect], the client event handlers,
      [publish], [disconnect], the step relation [service_step] of the
      service, its invariant, and the claims (publish while disconnected,
      idempotent disconnect, status vocabulary, a second [connect] leaks
      the live client).
    - [Display]: [MetricsDisplay]'s predicates and card values,
      [StockChart]'s 20-entry window and the one series its chart draws
      ([stock_chart]), the JSON panel of [MetricsDisplay] ([json_panel]),
      the form of [SimulationControls] ([controls_view]) and the product
      cards of [App] ([product_card]: [Math.round] of the stock ratio,
      [toFixed(2)] of the price, the badge colour), with the claim that
      after a tick the Current Stock card is red exactly when one product
      stocked out (the [stockout === 1] test).
    - [Session]: the React state of [App.tsx] ([AppState]), with the
      product objects in a heap ([gmap nat Product]) because the history
      snapshots, the registry and the captured catalog share them; the
      handlers [startSimulation], [stopSimulation], [session_tick] (the
      updater with its publications and state updates), [paramChange]
      ([SimulationControls.handleChange] and the re-render that captures
      a new [initialProducts]), [on_mqtt_event] and [unmount]; the guard
      [enabled] (the buttons and inputs the form renders), the step
      relation [session_step] and [reachable].  The invariant
      [heap_inv PI HI] /\ [control_inv] holds in every reachable state for
      every [tick_invariant PI HI] ([reachable_inv]); its two instances
      are the stock invariant and [buffered] with no stockout.
    - [SessionProperties]: the claims of the session: the invariant, the
      refinement of the transport's step relation, Start resets to the
      seed catalog, the first tick of a run is never delivered, a timer
      tick appends one history entry and refines the contract, the
      aliasing of history snapshots, every history entry's inventory is
      the stock of its snapshot objects ([history_records_inventory], by
      [history_inventory]: a tick changes nothing of an allocated object
      but [lastRestock]), the timer runs at the interval of the current
      [params] (the form is disabled while running), quiescence when
      stopped, what a connected tick sends, no stockout
      ever with the seed catalog and the dashboard indicator that is
      never lit, the stock bars of the product cards within 0-100 %, the
      liveness of a running session (every number of timer fires is
      accepted and grows the history by as many snapshots), and the
      non-positive interval that Start accepts.
    - [View]: the render of [App] (lines 205-265) as a function of the
      state ([render]: the form, the dashboard, the chart, the cards) and
      the consistency of the page in every reachable state
      ([dashboard_consistent]: the Current Stock card is the total of the
      cards, the chart ends at [currentData], the JSON panel reads back as
      [currentData]; [chart_plots_snapshot_stock]: the chart draws one
      series, the stock totals of the last 20 snapshots in tick order,
      and never the reorder markers).

    ** Modelling choices

    - JavaScript numbers that the code keeps integral (stocks, rates,
      levels, totals, timestamps in milliseconds) are [Z].  Numbers with a
      fractional part are fixed-point [Z] with a documented scale:
      temperatures in hundredths of a degree (they are rounded with
      [toFixed(2)]), humidities in tenths of a percent ([toFixed(1)]),
      prices in cents, the tick interval in milliseconds (the code
      multiplies the seconds by 1000 before arming the timer).
    - [Math.random()] returns [k / 2^53] for an integer [0 <= k < 2^53]
      (the V8 generator fills the 53-bit mantissa); the runtime returns
      [k].  Products and sums of a draw are computed exactly, as rationals
      over [2^53]: the IEEE rounding of the intermediate multiplication is
      not modelled.
    - [toFixed] rounds half away from zero (it takes the absolute value
      first, then picks the larger candidate on a tie), which matters for
      the negative temperatures of frozen products; [round_half_away]
      models it.
    - [Date.now()] is an opaque clock reading of the runtime; every call
      of the code is one call of the model, in the code's order.
    - The events of a session are explicit: the user's clicks and edits,
      the firing of the interval timer, the MQTT client's events and the
      unmounting; React's batching is modelled by applying the updates in
      the order they take effect (the updater of [setProducts] sees the
      [products] set just before it).  The timer handle is kept as the
      interval it was armed with.
    - Every function of the program's model is structurally recursive,
      and the witnesses run the scripted host by [vm_compute] (the
      longest, Start and three timer ticks, in well under a second).  Only
      the JSON decoder of [JsonDecode] (not code of the repository) takes
      fuel: [3 * length s + 3] units for an input [s], which
      [decode_fuel_enough] shows to be enough (a value needs [3n+1], the
      lists of an array or object [3n+2] or [3n+3], and every call that
      succeeds consumes a character), so that the fuel never decides the
      outcome ([decode_json_spec]).

    ** Not modelled (and why)

    - JSX rendering, CSS classes (but the ones the code computes from the
      state), chart drawing and [toLocaleTimeString]: presentation only.
    - The subscribers of the topic are not in the repository; the decoder
      of [JsonDecode] stands for them and is not mapped to code.
    - The internals of the MQTT client library (reconnection, backoff,
      WebSocket framing): the code only calls it; its observable events
      ([connect], [error], [offline], [close]) are inputs of the model.
    - React's StrictMode double invocation of updaters (development builds
      only), and [Number(value)] on a non-numeric or fractional input.

    ** Plan for the following sittings

    [toISOString] against the calendar (the civil date of a day count,
    its fields in range, by a check of the 146097 days of an era). *)

From Stdlib Require Import ZArith Lia.
From stdpp Require Import base list decidable sets.

Declare Scope scsim_scope.
Delimit Scope scsim_scope with sc.

Local Open Scope Z_scope.

(** ** The denominator of [Math.random()] *)

(** [Math.random()] returns a double [k / 2^53]; the model keeps [k]. *)
Definition RAND_DEN : Z := 2 ^ 53.

Lemma RAND_DEN_pos : 0 < RAND_DEN.
Proof. unfold RAND_DEN. lia. Qed.

(** ** [toFixed]: rounding half away from zero *)

(** [round_half_away a d] is the integer nearest to [a / d], ties away
    from zero: the digit string [toFixed] prints, for a scale [d]. *)
Definition round_half_away (a d : Z) : Z :=
  if bool_decide (0 <= a) then (2 * a + d) / (2 * d)
  else - ((2 * - a + d) / (2 * d)).

Notation "⟦ a ⁄ d ⟧" := (round_half_away a d)
  (at level 0, a at level 200, d at level 200) : scsim_scope.

(** ** Sums and counts over lists, as the code's running totals *)

Definition sumZ {A} (f : A → Z) (l : list A) : Z :=
  foldr (λ x acc, f x + acc) 0 l.

Definition countZ {A} (P : A → bool) (l : list A) : Z :=
  sumZ (λ x, if P x then 1 else 0) l.

(** ** Lemmas *)

Create HintDb scsim.
Create Rewrite HintDb scsim_sums.

Section Floor.
Context (d : Z) (Hd : 0 < d).

(** A draw [k] of [Math.random()] scaled by [n] and floored lies in
    [0 .. n-1]. *)
Lemma floor_scaled_range (k n : Z) :
  0 <= k < d → 0 < n → 0 <= k * n / d < n.
Proof.
  intros Hk Hn. split.
  - apply Z.div_pos; [nia | lia].
  - apply Z.div_lt_upper_bound; [lia | nia].
Qed.

(** Every value [j] of [0 .. n-1] is the floored draw of some [k]: the
    smallest, [ceil (j * d / n)], when [n <= d]. *)
Lemma floor_scaled_onto (n j : Z) :
  0 < n <= d → 0 <= j < n →
  0 <= (j * d + n - 1) / n < d ∧ (j * d + n - 1) / n * n / d = j.
Proof.
  intros Hn Hj. set (k := (j * d + n - 1) / n).
  pose proof (Z.div_mod (j * d + n - 1) n ltac:(lia)) as Hdm.
  pose proof (Z.mod_pos_bound (j * d + n - 1) n ltac:(lia)) as Hmb.
  fold k in Hdm. split; [split|].
  - apply Z.div_pos; nia.
  - apply Z.div_lt_upper_bound; nia.
  - symmetry. apply (Z.div_unique _ _ _ (k * n - j * d)); [left|]; nia.
Qed.

(** With a non-positive scale [n] the floored product lies in [n .. 0]. *)
Lemma floor_scaled_range_nonpos (k n : Z) :
  0 <= k < d → n <= 0 → n <= k * n / d <= 0.
Proof.
  intros Hk Hn. split.
  - apply Z.div_le_lower_bound; [lia | nia].
  - apply Z.div_le_upper_bound; [lia | nia].
Qed.

Lemma round_half_away_int (n : Z) : round_half_away (n * d) d = n.
Proof.
  unfold round_half_away. case_bool_decide.
  - replace (2 * (n * d) + d) with (n * (2 * d) + d) by lia.
    rewrite Z.div_add_l by lia. rewrite Z.div_small by lia. lia.
  - replace (2 * - (n * d) + d) with (- n * (2 * d) + d) by lia.
    rewrite Z.div_add_l by lia. rewrite Z.div_small by lia. lia.
Qed.

Lemma round_half_away_mono (a b : Z) :
  a <= b → round_half_away a d <= round_half_away b d.
Proof.
  intros Hab. unfold round_half_away.
  repeat case_bool_decide.
  - apply Z.div_le_mono; lia.
  - lia.
  - assert (0 <= (2 * b + d) / (2 * d)) by (apply Z.div_pos; lia).
    assert (0 <= (2 * - a + d) / (2 * d)) by (apply Z.div_pos; lia).
    lia.
  - assert ((2 * - b + d) / (2 * d) <= (2 * - a + d) / (2 * d))
      by (apply Z.div_le_mono; lia).
    lia.
Qed.

(** Rounding a value that lies between two integers (scaled by [d])
    stays between them. *)
Lemma round_half_away_between (lo hi a : Z) :
  lo * d <= a <= hi * d → lo <= round_half_away a d <= hi.
Proof.
  intros [Hlo Hhi].
  rewrite <- (round_half_away_int lo) at 1.
  rewrite <- (round_half_away_int hi).
  split; apply round_half_away_mono; lia.
Qed.
End Floor.

Lemma sumZ_nil {A} (f : A → Z) : sumZ f [] = 0.
Proof. reflexivity. Qed.

Lemma sumZ_cons {A} (f : A → Z) x l : sumZ f (x :: l) = f x + sumZ f l.
Proof. reflexivity. Qed.

Lemma sumZ_app {A} (f : A → Z) l1 l2 :
  sumZ f (l1 ++ l2) = sumZ f l1 + sumZ f l2.
Proof.
  induction l1 as [|x l1 IH]; [done|].
  rewrite <- app_comm_cons, !sumZ_cons, IH. lia.
Qed.

Lemma sumZ_map {A B} (f : B → Z) (g : A → B) l :
  sumZ f (map g l) = sumZ (f ∘ g) l.
Proof. induction l as [|x l IH]; [done|]. cbn [map]. rewrite !sumZ_cons, IH. done. Qed.

Lemma sumZ_ext {A} (f g : A → Z) l :
  (∀ x, x ∈ l → f x = g x) → sumZ f l = sumZ g l.
Proof.
  induction l as [|x l IH]; intros Hfg; [done|].
  rewrite !sumZ_cons. rewrite (Hfg x) by set_solver. rewrite IH; [done|].
  intros y Hy. apply Hfg. set_solver.
Qed.

Lemma sumZ_nonneg {A} (f : A → Z) l :
  (∀ x, x ∈ l → 0 <= f x) → 0 <= sumZ f l.
Proof.
  induction l as [|x l IH]; intros Hf; [done|].
  rewrite sumZ_cons. assert (0 <= f x) by (apply Hf; set_solver).
  assert (0 <= sumZ f l) by (apply IH; intros y Hy; apply Hf; set_solver).
  lia.
Qed.

Lemma countZ_cons {A} (P : A → bool) x l :
  countZ P (x :: l) = (if P x then 1 else 0) + countZ P l.
Proof. reflexivity. Qed.

Lemma countZ_bounds {A} (P : A → bool) l :
  0 <= countZ P l <= Z.of_nat (length l).
Proof.
  induction l as [|x l IH]; [simpl; lia|].
  rewrite countZ_cons. simpl length. destruct (P x); lia.
Qed.

Lemma Forall2_Forall_r {A B} (Q : B → Prop) (l : list A) (k : list B) :
  Forall2 (λ _ y, Q y) l k → Forall Q k.
Proof. induction 1; constructor; auto. Qed.

Lemma Forall2_impl_length {A B} (P : A → B → Prop) l k :
  Forall2 P l k → length l = length k.
Proof. apply Forall2_length. Qed.

Lemma Forall3_map_r {A B C D} (P : A → B → D → Prop) (f : C → D) l1 l2 l3 :
  Forall3 (λ a b c, P a b (f c)) l1 l2 l3 → Forall3 P l1 l2 (map f l3).
Proof. induction 1; constructor; auto. Qed.

Lemma Forall3_impl' {A B C} (P Q : A → B → C → Prop) l1 l2 l3 :
  Forall3 P l1 l2 l3 → (∀ a b c, P a b c → Q a b c) → Forall3 Q l1 l2 l3.
Proof. induction 1; constructor; auto. Qed.

Lemma Forall3_Forall_r {A B C} (P : A → B → C → Prop) (Q : C → Prop) l1 l2 l3 :
  Forall3 P l1 l2 l3 → (∀ a b c, P a b c → Q c) → Forall Q l3.
Proof. induction 1; constructor; eauto. Qed.

Lemma Forall2_Forall_lr {A B} (R : A → B → Prop) (P : A → Prop) (Q : B → Prop) l k :
  Forall2 R l k → Forall P l → (∀ x y, R x y → P x → Q y) → Forall Q k.
Proof. induction 1; inversion 1; subst; constructor; eauto. Qed.

(** A field every element of [l] has, and that [k] copies, every element
    of [k] has. *)
Lemma Forall2_transport {A B C} (f : A → C) (g : B → C) (v : C) l k :
  Forall2 (λ x y, g y = f x) l k → Forall (λ x, f x = v) l → Forall (λ y, g y = v) k.
Proof. induction 1; inversion 1; subst; constructor; auto; congruence. Qed.

#[export] Hint Resolve RAND_DEN_pos : scsim.
#[export] Hint Rewrite @sumZ_nil @sumZ_cons @countZ_cons @sumZ_app : scsim_sums.

(** [unfold_sums] rewrites sums and counts of concrete lists. *)
Ltac unfold_sums := autorewrite with scsim_sums in *.
