(* ===== verification/Types.v ===== *)
(** * The data model: [src/types.ts] and [src/constants.ts]

    Interfaces become records, enums become inductive types with the
    source's constructors and their string values.  Fractional numbers
    are fixed-point [Z] (see the header of [Prelude]): temperatures in
    hundredths of a degree, humidities in tenths of a percent, prices in
    cents, the simulation interval in milliseconds. *)

From Stdlib Require Import ZArith Lia.
From stdpp Require Import base list decidable strings.
From S2P Require Import Prelude.

Local Open Scope Z_scope.
Local Open Scope string_scope.

(** [enum MqttStatus] (types.ts 24-29). *)
Inductive MqttStatus := CONNECTED | DISCONNECTED | CONNECTING | ERROR.

Definition MqttStatus_value (s : MqttStatus) : string :=
  match s with
  | CONNECTED => "Connected"
  | DISCONNECTED => "Disconnected"
  | CONNECTING => "Connecting"
  | ERROR => "Error"
  end.

(** [enum ProductType] (types.ts 31-35). *)
Inductive ProductType := FRESH | FROZEN | DRY.

Definition ProductType_value (t : ProductType) : string :=
  match t with FRESH => "FRESH" | FROZEN => "FROZEN" | DRY => "DRY" end.

(** The [sensors] field of [Product]: temperature in hundredths of a
    degree, humidity in tenths of a percent, timestamp in ms. *)
Record Sensors := mkSensors {
  temperature : Z;
  humidity : Z;
  timestamp : Z
}.

(** [interface Product] (types.ts 37-51).  [status] is a [string] in the
    source ('OK' or 'WARNING'); [lastRestock] is [number | null]. *)
Record Product := mkProduct {
  id : string;
  name : string;
  type : ProductType;
  idealTemp : Z;
  idealHumidity : Z;
  maxStock : Z;
  currentStock : Z;
  reorderLevel : Z;
  price : Z;
  demandRate : Z;
  sensors : Sensors;
  status : string;
  lastRestock : option Z
}.

(** [interface SimulationParams] (types.ts 2-11); [simulationInterval]
    is kept in milliseconds. *)
Record SimulationParams := mkParams {
  initialStock : Z;
  reorderPoint : Z;
  reorderQuantity : Z;
  demandMin : Z;
  demandMax : Z;
  leadTimeMin : Z;
  leadTimeMax : Z;
  simulationInterval : Z
}.

(** [interface SimulationResult] (types.ts 13-22); [timestamp] is the
    instant the ISO string renders; [products] is the optional snapshot. *)
Record SimulationResult := mkResult {
  res_timestamp : Z;
  demand : Z;
  inventory_level : Z;
  reorder_quantity : Z;
  lead_time_days : Z;
  stockout : Z;
  products : option (list Product)
}.

(** [MQTT_CONFIG] (constants.ts 1-6). *)
Record MqttConfig := mkMqttConfig {
  BROKER_URL : string;
  PORT : Z;
  TOPIC : string
}.

Definition MQTT_CONFIG : MqttConfig :=
  mkMqttConfig "test.mosquitto.org" 8080 "supplychain/warehouse/events".

(** [DEFAULT_PARAMS] (constants.ts 8-17); the interval 0.5 s is 500 ms. *)
Definition DEFAULT_PARAMS : SimulationParams :=
  mkParams 200 50 150 10 50 1 5 500.

(** Field updates used by the tick (object spread in the source). *)
Definition set_lastRestock (t : option Z) (p : Product) : Product :=
  mkProduct p.(id) p.(name) p.(type) p.(idealTemp) p.(idealHumidity)
    p.(maxStock) p.(currentStock) p.(reorderLevel) p.(price) p.(demandRate)
    p.(sensors) p.(status) t.

#[export] Instance MqttStatus_eq_dec : EqDecision MqttStatus.
Proof. solve_decision. Defined.
#[export] Instance ProductType_eq_dec : EqDecision ProductType.
Proof. solve_decision. Defined.
#[export] Instance Sensors_eq_dec : EqDecision Sensors.
Proof. solve_decision. Defined.
#[export] Instance Product_eq_dec : EqDecision Product.
Proof. solve_decision. Defined.
#[export] Instance SimulationParams_eq_dec : EqDecision SimulationParams.
Proof. solve_decision. Defined.
#[export] Instance SimulationResult_eq_dec : EqDecision SimulationResult.
Proof. solve_decision. Defined.

(** The well-formedness of a product that the design states (section 3):
    its stock lies in [0 .. maxStock] and its demand rate is not negative. *)
Definition product_wf (p : Product) : Prop :=
  0 <= p.(currentStock) <= p.(maxStock) ∧ 0 <= p.(demandRate).

#[export] Instance product_wf_dec p : Decision (product_wf p).
Proof. unfold product_wf. apply _. Defined.

(** The fields a tick never changes: identity, category, setpoints,
    capacity, threshold, price and demand rate. *)
Definition same_static (p q : Product) : Prop :=
  q.(id) = p.(id) ∧ q.(name) = p.(name) ∧ q.(type) = p.(type) ∧
  q.(idealTemp) = p.(idealTemp) ∧ q.(idealHumidity) = p.(idealHumidity) ∧
  q.(maxStock) = p.(maxStock) ∧ q.(reorderLevel) = p.(reorderLevel) ∧
  q.(price) = p.(price) ∧ q.(demandRate) = p.(demandRate).

(** ** The seed catalog: [initialProducts] (App.tsx 20-66)

    The sensor timestamps are the three calls of [Date.now()] (lines 32,
    47 and 62) at the render that built the array; the catalog takes
    them as arguments. *)
Definition initialProducts (t1 t2 t3 : Z) : list Product := [
  mkProduct "P001" "Pommes Golden (Frais)" FRESH 400 900 500 450 100 250 5
    (mkSensors 420 880 t1) "OK" None;
  mkProduct "P002" "Steaks Hachés (Surgelé)" FROZEN (-1800) 500 300 280 50 890 3
    (mkSensors (-1850) 550 t2) "OK" None;
  mkProduct "P003" "Riz Basmati 5kg (Sec)" DRY 2000 400 200 150 20 1200 1
    (mkSensors 2100 380 t3) "OK" None
].

(** Every product of the seed catalog is well formed. *)
Lemma initialProducts_wf t1 t2 t3 : Forall product_wf (initialProducts t1 t2 t3).
Proof. repeat constructor; unfold product_wf; simpl; lia. Qed.
