(* ===== verification/Runtime.v ===== *)
(** * The JavaScript host the tick engine runs on

    [runSimulationTick] calls two host functions: [Math.random()] and
    [Date.now()] (and [new Date()], which reads the same clock).  The
    class [Runtime] is the interface the engine requires of the host: a
    state [W] of the host, a draw that returns the numerator [k] of
    [k / 2^53] with [0 <= k < 2^53] (the contract of [Math.random]), and a
    clock reading.  The engine's code is written in the state monad
    [Eff W], in the order of the calls of the source, and reasoned about
    with the weakest precondition [wp] and its rules.  The scripted
    runtime [Script] replays a list of draws and a ticking clock; the
    witnesses use it. *)

From Stdlib Require Import ZArith Lia.
From stdpp Require Import base list decidable sets.
From S2P Require Import Prelude.

Local Open Scope Z_scope.

Class Runtime (W : Type) := {
  math_random : W → Z * W;
  date_now : W → Z * W;
  math_random_range : ∀ w, 0 <= (math_random w).1 < RAND_DEN
}.

(** The state monad of a tick: the host state is threaded through every
    call. *)
Definition Eff (W A : Type) : Type := W → A * W.

#[export] Instance Eff_ret W : MRet (Eff W) := λ A a w, (a, w).
#[export] Instance Eff_bind W : MBind (Eff W) :=
  λ A B f m w, let '(a, w') := m w in f a w'.

Section Effects.
Context {W : Type} `{Runtime W}.

Definition random : Eff W Z := math_random.
Definition now : Eff W Z := date_now.

(** [wp m Q]: whatever the host state, the value [m] returns
    satisfies [Q].  [Eff] computations always return (they are total
    functions), so this is a total-correctness statement. *)
Definition wp {A} (m : Eff W A) (Q : A → Prop) : Prop := ∀ w, Q (m w).1.

Lemma wp_ret {A} (a : A) (Q : A → Prop) : Q a → wp (mret a) Q.
Proof. intros HQ w. exact HQ. Qed.

Lemma wp_bind {A B} (m : Eff W A) (f : A → Eff W B) (Q : B → Prop) :
  wp m (λ a, wp (f a) Q) → wp (m ≫= f) Q.
Proof.
  intros Hm w. unfold mbind, Eff_bind. specialize (Hm w).
  destruct (m w) as [a w']. apply Hm.
Qed.

Lemma wp_random (Q : Z → Prop) :
  (∀ k, 0 <= k < RAND_DEN → Q k) → wp random Q.
Proof. intros HQ w. apply HQ, math_random_range. Qed.

Lemma wp_now (Q : Z → Prop) : (∀ t, Q t) → wp now Q.
Proof. intros HQ w. apply HQ. Qed.

Lemma wp_mono {A} (m : Eff W A) (P Q : A → Prop) :
  wp m P → (∀ a, P a → Q a) → wp m Q.
Proof. intros Hm HPQ w. apply HPQ, Hm. Qed.

Lemma wp_and {A} (m : Eff W A) (P Q : A → Prop) :
  wp m P → wp m Q → wp m (λ a, P a ∧ Q a).
Proof. intros HP HQ w. split; [apply HP | apply HQ]. Qed.

Lemma wp_mapM {A B} (f : A → Eff W B) (P : A → B → Prop) (l : list A) :
  (∀ x, x ∈ l → wp (f x) (P x)) → wp (mapM f l) (Forall2 P l).
Proof.
  induction l as [|x l IH]; intros Hf; simpl.
  - apply wp_ret. constructor.
  - apply wp_bind. eapply wp_mono; [apply Hf; set_solver|]. intros b Hb.
    apply wp_bind. eapply wp_mono; [apply IH; intros y Hy; apply Hf; set_solver|].
    intros bs Hbs. apply wp_ret. by constructor.
Qed.

Lemma wp_any {A} (m : Eff W A) (Q : A → Prop) : (∀ a, Q a) → wp m Q.
Proof. intros HQ w. apply HQ. Qed.

(** The value and the final state of a run, for concrete reasoning. *)
Lemma run_bind {A B} (m : Eff W A) (f : A → Eff W B) w :
  (m ≫= f) w = f (m w).1 (m w).2.
Proof. unfold mbind, Eff_bind. by destruct (m w). Qed.

(** A [wp] fact read at one host state. *)
Lemma wp_run {A} (m : Eff W A) (Q : A → Prop) w : wp m Q → Q (m w).1.
Proof. intros Hm. apply Hm. Qed.
End Effects.

(** [wp_step] takes one step of a [wp] goal by the rule of the head
    operation. *)
Ltac wp_step :=
  match goal with
  | |- wp (mbind _ _) _ => apply wp_bind
  | |- wp (mret _) _ => apply wp_ret
  | |- wp random _ => apply wp_random; intros ?k ?Hk
  | |- wp now _ => apply wp_now; intros ?t
  | |- wp (if bool_decide _ then _ else _) _ => case_bool_decide
  | |- wp (if ?b then _ else _) _ => destruct b eqn:?
  | |- wp (match ?x with _ => _ end) _ => destruct x eqn:?
  end; cbv beta iota zeta.

Ltac wp_steps := repeat wp_step.

(** ** A scripted runtime: replays draws, the clock ticks 1 ms per read *)

Record Script := mkScript { script_draws : list Z; script_clock : Z }.

Definition script_random (s : Script) : Z * Script :=
  match s.(script_draws) with
  | [] => (0, s)
  | k :: ks => (k mod RAND_DEN, mkScript ks s.(script_clock))
  end.

Definition script_now (s : Script) : Z * Script :=
  (s.(script_clock), mkScript s.(script_draws) (s.(script_clock) + 1)).

Lemma script_random_range s : 0 <= (script_random s).1 < RAND_DEN.
Proof.
  unfold script_random. destruct (script_draws s); simpl.
  - pose proof RAND_DEN_pos. lia.
  - apply Z.mod_pos_bound, RAND_DEN_pos.
Qed.

#[export] Instance script_runtime : Runtime Script := {|
  math_random := script_random;
  date_now := script_now;
  math_random_range := script_random_range
|}.
