(* ===== verification/TickSpec.v ===== *)
(** * The contract of one tick (design, sections 3, 4.1 and 8)

    The abstract specification of the tick engine, independent of the
    code: every random draw is replaced by "some value in its range", so
    [product_step p sold q] relates a product [p] to every product [q] the
    tick may produce after a demand of [sold], and [tick_spec] relates the
    product list and the parameters to the next list and the aggregate.
    [TickEngine] proves that [runSimulationTick] refines it.  This file
    also proves what the contract alone guarantees: the stock invariant,
    and the restock rule of section 8. *)

From Stdlib Require Import ZArith Lia.
From stdpp Require Import base list decidable sets strings.
From S2P Require Import Prelude Types.

Local Open Scope Z_scope.
Local Open Scope string_scope.

(** Steps 2 and 3 of section 4.1. *)
Definition new_stock (p : Product) (sold : Z) : Z := Z.max 0 (p.(currentStock) - sold).

Definition restocks (p : Product) (sold : Z) : bool :=
  bool_decide (new_stock p sold <= p.(reorderLevel)).

Definition reorder_of (p : Product) (sold : Z) : Z :=
  if restocks p sold then p.(maxStock) - new_stock p sold else 0.

Definition stock_after (p : Product) (sold : Z) : Z :=
  if restocks p sold then p.(maxStock) else new_stock p sold.

Definition stocks_out (p : Product) (sold : Z) : bool :=
  bool_decide (new_stock p sold = 0).

(** The health status rule of section 3: [WARNING] iff the sensed
    temperature is more than 2 degrees (200 hundredths) from the ideal. *)
Definition status_of (ideal t : Z) : string :=
  if bool_decide (Z.abs (t - ideal) > 200) then "WARNING" else "OK".

(** One product in one tick, after a demand of [sold] (steps 1-5). *)
Record product_step (p : Product) (sold : Z) (q : Product) : Prop := {
  step_sold : 0 <= sold <= p.(demandRate);
  step_static : same_static p q;
  step_stock : q.(currentStock) = stock_after p sold;
  step_restock : if restocks p sold then is_Some q.(lastRestock)
                 else q.(lastRestock) = p.(lastRestock);
  step_temperature : p.(idealTemp) - 50 <= q.(sensors).(temperature) <= p.(idealTemp) + 50;
  step_humidity : 0 <= q.(sensors).(humidity) <= 1000;
  step_status : q.(status) = status_of p.(idealTemp) q.(sensors).(temperature)
}.

(** One tick: the products step with demands [solds]; the aggregate holds
    the running totals and a lead time within the configured bounds. *)
Record tick_spec (params : SimulationParams) (prev : list Product)
    (solds : list Z) (next : list Product) (agg : SimulationResult) : Prop := {
  tick_products : Forall3 product_step prev solds next;
  tick_demand : agg.(demand) = sumZ (λ s, s) solds;
  tick_inventory : agg.(inventory_level) = sumZ currentStock next;
  tick_reorder : agg.(reorder_quantity) = sumZ (uncurry reorder_of) (zip prev solds);
  tick_stockout : agg.(stockout) = countZ (uncurry stocks_out) (zip prev solds);
  tick_lead : params.(leadTimeMin) <= params.(leadTimeMax) →
              params.(leadTimeMin) <= agg.(lead_time_days) <= params.(leadTimeMax)
}.

(** A product whose reorder level covers a tick's largest demand, with
    its stock above that level and its capacity above it too: the seed
    catalog is made of such products. *)
Definition buffered (p : Product) : Prop :=
  product_wf p ∧ p.(demandRate) <= p.(reorderLevel) ∧
  p.(reorderLevel) < p.(currentStock) ∧ p.(reorderLevel) < p.(maxStock).

(** ** What the contract guarantees *)

Lemma new_stock_range p sold :
  product_wf p → 0 <= sold → 0 <= new_stock p sold <= p.(currentStock).
Proof. unfold product_wf, new_stock. lia. Qed.

Lemma stock_after_range p sold :
  product_wf p → 0 <= sold → 0 <= stock_after p sold <= p.(maxStock).
Proof.
  intros Hwf Hs. pose proof (new_stock_range p sold Hwf Hs).
  unfold product_wf, stock_after in *. destruct (restocks p sold); lia.
Qed.

Lemma product_step_wf p sold q :
  product_wf p → product_step p sold q → product_wf q.
Proof.
  intros Hwf [Hsold Hst Hstock _ _ _ _].
  destruct Hst as (_ & _ & _ & _ & _ & Hmax & _ & _ & Hrate).
  pose proof (stock_after_range p sold Hwf (proj1 Hsold)).
  unfold product_wf in *. rewrite Hstock, Hmax, Hrate. lia.
Qed.

Lemma tick_spec_wf params prev solds next agg :
  Forall product_wf prev → tick_spec params prev solds next agg →
  Forall product_wf next.
Proof.
  intros Hwf [Hsteps _ _ _ _ _]. revert Hwf.
  induction Hsteps as [|p sold q prev' solds' next' Hstep _ IH]; intros Hwf;
    inversion Hwf; subst; constructor; eauto using product_step_wf.
Qed.

Lemma restocks_true p sold :
  restocks p sold = true ↔ new_stock p sold <= p.(reorderLevel).
Proof. unfold restocks. by rewrite bool_decide_eq_true. Qed.

Lemma restocks_false p sold :
  restocks p sold = false ↔ p.(reorderLevel) < new_stock p sold.
Proof. unfold restocks. rewrite bool_decide_eq_false. lia. Qed.

Lemma reorder_of_range p sold :
  product_wf p → 0 <= sold → 0 <= reorder_of p sold <= p.(maxStock).
Proof.
  intros Hwf Hs. pose proof (new_stock_range p sold Hwf Hs).
  unfold product_wf, reorder_of in *. destruct (restocks p sold); lia.
Qed.

(** The totals the contract states are bounded by the catalogue:
    demand by the sum of the rates, inventory and reorders by the sum of
    the capacities, stockouts by the number of products. *)
Lemma steps_sum_bounds prev solds next :
  Forall product_wf prev → Forall3 product_step prev solds next →
  0 <= sumZ (λ s, s) solds <= sumZ demandRate prev ∧
  0 <= sumZ currentStock next <= sumZ maxStock prev ∧
  0 <= sumZ (uncurry reorder_of) (zip prev solds) <= sumZ maxStock prev ∧
  0 <= countZ (uncurry stocks_out) (zip prev solds) <= Z.of_nat (length prev).
Proof.
  intros Hwf Hsteps. revert Hwf.
  induction Hsteps as [|p sold q prev' solds' next' Hstep _ IH]; intros Hwf.
  - unfold_sums. simpl. lia.
  - apply Forall_cons in Hwf as [Hp Hwf]. specialize (IH Hwf).
    destruct Hstep as [Hsold _ Hstock _ _ _ _].
    pose proof (stock_after_range p sold Hp (proj1 Hsold)).
    pose proof (reorder_of_range p sold Hp (proj1 Hsold)).
    cbn [zip length uncurry]. unfold_sums. cbn [uncurry].
    destruct (stocks_out p sold); lia.
Qed.

(** A buffered product stays buffered and never runs out in a tick. *)
Lemma buffered_step p sold q : buffered p → product_step p sold q → buffered q.
Proof.
  intros Hb Hstep. pose proof (product_step_wf p sold q (proj1 Hb) Hstep) as Hwf.
  destruct Hstep as [Hsold Hst Hstock _ _ _ _].
  destruct Hst as (_ & _ & _ & _ & _ & Hmax & Hre & _ & Hrate).
  unfold buffered, stock_after, new_stock in *. rewrite Hstock, Hmax, Hre, Hrate.
  split; [done|]. destruct (restocks p sold) eqn:E; [lia|]. apply restocks_false in E.
  unfold new_stock in E. lia.
Qed.

Lemma buffered_no_stockout p sold :
  buffered p → 0 <= sold <= p.(demandRate) → stocks_out p sold = false.
Proof.
  intros Hb Hs. unfold stocks_out, new_stock, buffered in *.
  apply bool_decide_eq_false. lia.
Qed.

Lemma buffered_steps_no_stockout prev solds next :
  Forall buffered prev → Forall3 product_step prev solds next →
  countZ (uncurry stocks_out) (zip prev solds) = 0.
Proof.
  intros Hb Hsteps. revert Hb.
  induction Hsteps as [|p sold q prev' solds' next' Hstep _ IH]; intros Hb; [done|].
  apply Forall_cons in Hb as [Hp Hb]. cbn [zip]. rewrite countZ_cons. cbn [uncurry].
  rewrite (buffered_no_stockout p sold Hp (step_sold _ _ _ Hstep)), IH by done. done.
Qed.

Lemma initialProducts_buffered t1 t2 t3 : Forall buffered (initialProducts t1 t2 t3).
Proof. repeat constructor; unfold buffered, product_wf; simpl; lia. Qed.

#[export] Hint Resolve product_step_wf tick_spec_wf buffered_step : scsim.
