(* ===== verification/TickEngine.v ===== *)
(** * The tick engine: [runSimulationTick] (App.tsx 98-180)

    [simulate_product] is the callback of [prev.map] (App.tsx 106-136):
    it reads and updates the four running totals the closure shares
    ([totalDemand], [totalInventory], [totalReorder], [totalStockouts]),
    so the totals are threaded through it.  It returns the object [p] as
    the callback leaves it (the statement [p.lastRestock = Date.now()]
    mutates the previous product, an aliasing effect [Session] follows)
    together with the new product.  [map_products] is [Array.prototype.map]
    over the product list, in index order.  [runSimulationTick] adds the
    lead-time draw, the aggregate result and the per-product payloads
    (App.tsx 138-167); publishing them and updating the React state is the
    session's job.

    The theorems of this file are stated with [wp]: they hold for every
    host state of every runtime that honours the [Math.random] contract. *)

From Stdlib Require Import ZArith Lia.
From stdpp Require Import base list decidable sets strings.
From S2P Require Import Prelude Types Runtime TickSpec.

Local Open Scope Z_scope.
Local Open Scope string_scope.

(** The running totals of App.tsx 101-104. *)
Record Totals := mkTotals {
  totalDemand : Z;
  totalInventory : Z;
  totalReorder : Z;
  totalStockouts : Z
}.

Definition totals0 : Totals := mkTotals 0 0 0 0.

(** The [product] object of a [product_update] payload (App.tsx 154-166). *)
Record ProductPayload := mkPayload {
  pl_id : string;
  pl_name : string;
  pl_type : ProductType;
  pl_currentStock : Z;
  pl_maxStock : Z;
  pl_reorderLevel : Z;
  pl_price : Z;
  pl_demandRate : Z;
  pl_sensors : Sensors;
  pl_status : string;
  pl_lastRestock : option Z
}.

(** A [product_update] event (App.tsx 151-167). *)
Record ProductEvent := mkEvent {
  ev_event : string;
  ev_timestamp : Z;
  ev_product : ProductPayload
}.

Definition product_event (ts : Z) (prod : Product) : ProductEvent :=
  mkEvent "product_update" ts
    (mkPayload prod.(id) prod.(name) prod.(type) prod.(currentStock)
       prod.(maxStock) prod.(reorderLevel) prod.(price) prod.(demandRate)
       prod.(sensors) prod.(status) prod.(lastRestock)).

(** What one tick produces: the previous objects as the callbacks left
    them, the next product list, the aggregate [agg] (without the
    product snapshot) and the product events, in publication order. *)
Record TickOutput := mkTickOutput {
  tick_prev : list Product;
  tick_next : list Product;
  tick_agg : SimulationResult;
  tick_events : list ProductEvent
}.

(** The sensor draws of App.tsx 123-124, in fixed point.  The temperature
    [idealTemp + (r - 0.5) * 1], in hundredths, is
    [(idealTemp * 2^53 + 100 k - 50 * 2^53) / 2^53], rounded by
    [toFixed(2)]; the humidity [idealHumidity + (r - 0.5) * 4], in tenths,
    is clamped to [0 .. 100 %] then rounded by [toFixed(1)]. *)
Definition draw_temperature (idealT r : Z) : Z :=
  (⟦ idealT * RAND_DEN + 100 * r - 50 * RAND_DEN ⁄ RAND_DEN ⟧)%sc.

Definition draw_humidity (idealH r : Z) : Z :=
  (⟦ Z.max 0 (Z.min (1000 * RAND_DEN) (idealH * RAND_DEN + 40 * r - 20 * RAND_DEN))
       ⁄ RAND_DEN ⟧)%sc.

(** [Math.abs(newTemp - p.idealTemp) > 2 ? 'WARNING' : 'OK'] (App.tsx 125). *)
Definition sensor_status (newTemp idealT : Z) : string :=
  if bool_decide (Z.abs (newTemp - idealT) > 200) then "WARNING" else "OK".

Section Tick.
Context {W : Type} `{Runtime W}.

(** The callback of [prev.map] (App.tsx 106-136). *)
Definition simulate_product (t : Totals) (p : Product)
    : Eff W (Totals * (Product * Product)) :=
  r ← random;
  let sold := r * (p.(demandRate) + 1) / RAND_DEN in
  let totalDemand' := t.(totalDemand) + sold in
  let newStock := Z.max 0 (p.(currentStock) - sold) in
  let totalStockouts' :=
    if bool_decide (newStock = 0) then t.(totalStockouts) + 1
    else t.(totalStockouts) in
  '(newStock, totalReorder', p) ←
    (if bool_decide (newStock <= p.(reorderLevel)) then
       let reorderQty := p.(maxStock) - newStock in
       restockAt ← now;
       mret (newStock + reorderQty, t.(totalReorder) + reorderQty,
             set_lastRestock (Some restockAt) p)
     else mret (newStock, t.(totalReorder), p));
  r2 ← random;
  let newTemp := draw_temperature p.(idealTemp) r2 in
  r3 ← random;
  let newHumidity := draw_humidity p.(idealHumidity) r3 in
  let newStatus := sensor_status newTemp p.(idealTemp) in
  let totalInventory' := t.(totalInventory) + newStock in
  ts ← now;
  mret (mkTotals totalDemand' totalInventory' totalReorder' totalStockouts',
        (p, mkProduct p.(id) p.(name) p.(type) p.(idealTemp) p.(idealHumidity)
              p.(maxStock) newStock p.(reorderLevel) p.(price) p.(demandRate)
              (mkSensors newTemp newHumidity ts) newStatus p.(lastRestock))).

(** [prev.map(...)]: the callback applied in index order, the totals
    threaded from one call to the next. *)
Fixpoint map_products (t : Totals) (prev : list Product)
    : Eff W (Totals * list (Product * Product)) :=
  match prev with
  | [] => mret (t, [])
  | p :: ps =>
      '(t', pq) ← simulate_product t p;
      '(t'', pqs) ← map_products t' ps;
      mret (t'', pq :: pqs)
  end.

(** The updater passed to [setProducts] (App.tsx 100-179), up to the
    publication and the React state updates. *)
Definition runSimulationTick (params : SimulationParams) (prev : list Product)
    : Eff W TickOutput :=
  '(t, pqs) ← map_products totals0 prev;
  let next := map snd pqs in
  r ← random;
  let leadTime :=
    r * (params.(leadTimeMax) - params.(leadTimeMin) + 1) / RAND_DEN
    + params.(leadTimeMin) in
  aggAt ← now;
  let agg := mkResult aggAt t.(totalDemand) t.(totalInventory)
               t.(totalReorder) leadTime t.(totalStockouts) None in
  events ← mapM (λ prod, ts ← now; mret (product_event ts prod)) next;
  mret (mkTickOutput (map fst pqs) next agg events).
End Tick.

(** ** The relation of the refinement *)

(** What the callback does to one product: the product steps to its next
    version, and the object the callback leaves behind ([p] itself,
    mutated by line 119) is the previous product with the new
    [lastRestock] when the tick restocked it. *)
Definition step_pair (p : Product) (sold : Z) (pq : Product * Product) : Prop :=
  product_step p sold pq.2 ∧
  pq.1 = if restocks p sold then set_lastRestock pq.2.(lastRestock) p else p.

(** The draw a host returns so that line 108 sells [sold] units of [p]:
    the least [k] with [floor(k * (demandRate + 1) / 2^53) = sold]. *)
Definition demand_draw (p : Product) (sold : Z) : Z :=
  (sold * RAND_DEN + p.(demandRate)) / (p.(demandRate) + 1).

(** ** Bounds of the draws *)

Lemma sold_range r d :
  0 <= r < RAND_DEN → 0 <= d → 0 <= r * (d + 1) / RAND_DEN <= d.
Proof.
  intros Hr Hd. pose proof (floor_scaled_range RAND_DEN RAND_DEN_pos r (d + 1) Hr).
  lia.
Qed.

Lemma draw_temperature_range idealT r :
  0 <= r < RAND_DEN →
  idealT - 50 <= draw_temperature idealT r <= idealT + 50.
Proof.
  intros Hr. unfold draw_temperature.
  apply round_half_away_between; [apply RAND_DEN_pos | nia].
Qed.

Lemma draw_humidity_range idealH r : 0 <= draw_humidity idealH r <= 1000.
Proof.
  unfold draw_humidity.
  apply round_half_away_between; [apply RAND_DEN_pos | pose proof RAND_DEN_pos; lia].
Qed.

(** The lead time of App.tsx 139 lies within the configured bounds when
    they are ordered. *)
Lemma lead_time_range (r lo hi : Z) :
  0 <= r < RAND_DEN → lo <= hi →
  lo <= r * (hi - lo + 1) / RAND_DEN + lo <= hi.
Proof.
  intros Hr Hlh.
  pose proof (floor_scaled_range RAND_DEN RAND_DEN_pos r (hi - lo + 1) Hr). lia.
Qed.

Lemma sensor_status_spec newTemp idealT :
  sensor_status newTemp idealT = status_of idealT newTemp.
Proof. reflexivity. Qed.

(** ** Refinement: the callback implements one [product_step] *)

Section Refinement.
Context {W : Type} `{Runtime W}.

Lemma simulate_product_refines (t : Totals) (p : Product) :
  0 <= p.(demandRate) →
  wp (simulate_product t p) (λ '(t', (p', q)), ∃ sold,
      product_step p sold q ∧
      t'.(totalDemand) = t.(totalDemand) + sold ∧
      t'.(totalInventory) = t.(totalInventory) + q.(currentStock) ∧
      t'.(totalReorder) = t.(totalReorder) + reorder_of p sold ∧
      t'.(totalStockouts) = t.(totalStockouts) + (if stocks_out p sold then 1 else 0) ∧
      p' = (if restocks p sold then set_lastRestock q.(lastRestock) p else p)).
Proof.
  intros Hd. unfold simulate_product. wp_steps.
  all: exists (k * (p.(demandRate) + 1) / RAND_DEN).
  all: pose proof (sold_range k _ Hk Hd).
  all: pose proof (draw_temperature_range p.(idealTemp) k0 Hk0).
  all: pose proof (draw_humidity_range p.(idealHumidity) k1).
  all: set (sold := k * (p.(demandRate) + 1) / RAND_DEN) in *.
  all: repeat split; simpl.
  all: unfold reorder_of, stocks_out, stock_after, restocks, new_stock in *.
  all: repeat case_bool_decide; try lia; try done; by eexists.
Qed.

Lemma map_products_refines (t : Totals) (prev : list Product) :
  Forall (λ p, 0 <= p.(demandRate)) prev →
  wp (map_products t prev) (λ '(t', pqs), ∃ solds,
      Forall3 (λ p sold pq, product_step p sold pq.2 ∧
                 pq.1 = if restocks p sold
                        then set_lastRestock pq.2.(lastRestock) p else p)
        prev solds pqs ∧
      t'.(totalDemand) = t.(totalDemand) + sumZ (λ s, s) solds ∧
      t'.(totalInventory) = t.(totalInventory) + sumZ currentStock (map snd pqs) ∧
      t'.(totalReorder) = t.(totalReorder) + sumZ (uncurry reorder_of) (zip prev solds) ∧
      t'.(totalStockouts) =
        t.(totalStockouts) + countZ (uncurry stocks_out) (zip prev solds)).
Proof.
  revert t. induction prev as [|p prev IH]; intros t Hd; simpl.
  - apply wp_ret. exists []. split_and!; try constructor; unfold_sums; lia.
  - apply Forall_cons in Hd as [Hp Hd].
    apply wp_bind. eapply wp_mono; [by apply simulate_product_refines|].
    intros [t' [p' q]] (sold & Hstep & Hdem & Hinv & Hre & Hout & Hp').
    apply wp_bind. eapply wp_mono; [by apply IH|].
    intros [t'' pqs] (solds & Hsteps & Hdem' & Hinv' & Hre' & Hout').
    apply wp_ret. exists (sold :: solds).
    split_and!; try by constructor.
    all: cbn [map snd zip uncurry]; unfold_sums; cbn [uncurry]; lia.
Qed.
End Refinement.


(** ** The tick refines its contract *)

Section TickProperties.
Context {W : Type} `{Runtime W}.

(** The tick implements its contract (the claim is stated in
    [TickProperties]). *)
Lemma tick_refines_contract (params : SimulationParams) (prev : list Product) :
  Forall (λ p, 0 <= p.(demandRate)) prev →
  wp (runSimulationTick params prev) (λ o,
      ∃ solds, tick_spec params prev solds o.(tick_next) o.(tick_agg)).
Proof.
  intros Hd. unfold runSimulationTick.
  apply wp_bind. eapply wp_mono; [by apply map_products_refines|].
  intros [t pqs] (solds & Hsteps & Hdem & Hinv & Hre & Hout).
  wp_steps. apply wp_any. intros events. apply wp_ret.
  exists solds. split; simpl; try done; try lia.
  - apply Forall3_map_r. eapply Forall3_impl'; [done|]. by intros ? ? ? [? _].
  - intros Hlh. by apply lead_time_range.
Qed.
End TickProperties.

(** ** Sensor readings *)

Section Sensors.
Context {W : Type} `{Runtime W}.

(** The callback keeps the static fields, draws a temperature within
    half a degree of the ideal and a humidity within [0 .. 100 %], and
    the status it derives is always ['OK']. *)
Lemma simulate_product_sensors (t : Totals) (p : Product) :
  wp (simulate_product t p) (λ r,
      same_static p r.2.2 ∧
      p.(idealTemp) - 50 <= r.2.2.(sensors).(temperature) <= p.(idealTemp) + 50 ∧
      0 <= r.2.2.(sensors).(humidity) <= 1000 ∧
      r.2.2.(status) = "OK").
Proof.
  unfold simulate_product. wp_steps.
  all: pose proof (draw_temperature_range p.(idealTemp) k0 Hk0).
  all: pose proof (draw_humidity_range p.(idealHumidity) k1).
  all: simpl; unfold sensor_status; split_and!; try done; try lia.
  all: case_bool_decide; [lia | done].
Qed.

(** A property every callback establishes holds of the whole list. *)
Lemma map_products_forall (P : Product → Product → Prop) (t : Totals)
    (prev : list Product) :
  (∀ t p, p ∈ prev → wp (simulate_product t p) (λ r, P p r.2.2)) →
  wp (map_products t prev) (λ r, Forall2 P prev (map snd r.2)).
Proof.
  revert t. induction prev as [|p prev IH]; intros t HP; simpl.
  - apply wp_ret. constructor.
  - apply wp_bind. eapply wp_mono; [apply HP; set_solver|].
    intros [t' [p' q]] Hq. apply wp_bind.
    eapply wp_mono; [apply IH; intros t0 p0 Hp0; apply HP; set_solver|].
    intros [t'' pqs] Hpqs. apply wp_ret. by constructor.
Qed.

(** [runSimulationTick] through its traversal: a per-product fact
    becomes a fact of the next list. *)
Lemma runSimulationTick_forall (P : Product → Product → Prop) params prev :
  (∀ t p, p ∈ prev → wp (simulate_product t p) (λ r, P p r.2.2)) →
  wp (runSimulationTick params prev) (λ o, Forall2 P prev o.(tick_next)).
Proof.
  intros HP. unfold runSimulationTick. apply wp_bind.
  eapply wp_mono; [by apply map_products_forall|].
  intros [t pqs] Hpqs. wp_steps. apply wp_any. intros events. by apply wp_ret.
Qed.
End Sensors.

(** ** The lead-time draw *)

Section LeadTime.
Context {W : Type} `{Runtime W}.

(** A fact of every possible lead-time draw (App.tsx 139) holds of the
    aggregate's [lead_time_days]. *)
Lemma runSimulationTick_lead_time (P : Z → Prop) params prev :
  (∀ r, 0 <= r < RAND_DEN →
        P (r * (params.(leadTimeMax) - params.(leadTimeMin) + 1) / RAND_DEN
           + params.(leadTimeMin))) →
  wp (runSimulationTick params prev) (λ o, P o.(tick_agg).(lead_time_days)).
Proof.
  intros HP. unfold runSimulationTick. apply wp_bind, wp_any. intros [t pqs].
  wp_steps. apply wp_any. intros events. apply wp_ret. by apply HP.
Qed.
End LeadTime.

(** ** The previous and the next objects of a tick, side by side *)

Lemma step_pair_wf p sold pq :
  product_wf p → step_pair p sold pq → product_wf pq.1 ∧ product_wf pq.2.
Proof.
  intros Hwf [Hstep ->]. split; [|by eapply product_step_wf].
  by destruct (restocks p sold).
Qed.

Lemma step_pair_buffered p sold pq :
  buffered p → step_pair p sold pq → buffered pq.1 ∧ buffered pq.2.
Proof.
  intros Hb [Hstep ->]. split; [|by eapply buffered_step].
  by destruct (restocks p sold).
Qed.

Lemma step_pairs_wf prev solds pqs :
  Forall3 step_pair prev solds pqs → Forall product_wf prev →
  Forall product_wf (map fst pqs) ∧ Forall product_wf (map snd pqs).
Proof.
  induction 1 as [|p sold pq prev' solds' pqs' Hpair _ IH]; intros Hwf; [done|].
  apply Forall_cons in Hwf as [Hp Hwf]. destruct (IH Hwf).
  destruct (step_pair_wf _ _ _ Hp Hpair). split; by constructor.
Qed.

(** The object left behind carries the [lastRestock] of its successor. *)
Lemma prev_next_lastRestock prev solds pqs :
  Forall3 step_pair prev solds pqs →
  map lastRestock (map fst pqs) = map lastRestock (map snd pqs).
Proof.
  induction 1 as [|p sold pq prev' solds' pqs' [Hstep Hpq] _ IH]; [done|].
  simpl. rewrite IH. f_equal. pose proof (step_restock _ _ _ Hstep) as Hrs.
  rewrite Hpq. destruct (restocks p sold); [done | by rewrite Hrs].
Qed.

(** The callbacks change nothing of [prev] but [lastRestock]. *)
Lemma step_pairs_erase prev solds pqs :
  Forall3 step_pair prev solds pqs →
  map (set_lastRestock None) (map fst pqs) = map (set_lastRestock None) prev.
Proof.
  induction 1 as [|p sold pq prev' solds' pqs' [_ Hpq] _ IH]; [done|].
  simpl. rewrite IH, Hpq. f_equal. by destruct (restocks p sold), p.
Qed.

(** When no product can restock, the callbacks leave [prev] untouched. *)
Lemma no_restock_keeps_prev prev solds pqs :
  Forall3 step_pair prev solds pqs →
  Forall (λ p, ∀ sold, 0 <= sold <= p.(demandRate) → restocks p sold = false) prev →
  map fst pqs = prev ∧
  Forall2 (λ p q, q.(lastRestock) = p.(lastRestock)) prev (map snd pqs).
Proof.
  induction 1 as [|p sold pq prev' solds' pqs' [Hstep Hpq] _ IH]; intros Hno;
    [done|].
  apply Forall_cons in Hno as [Hp Hno]. destruct (IH Hno) as [Hfst Hsnd].
  pose proof (Hp sold (step_sold _ _ _ Hstep)) as E.
  pose proof (step_restock _ _ _ Hstep) as Hrs. rewrite E in Hpq, Hrs.
  simpl. rewrite Hpq, Hfst. split; [done|]. by constructor.
Qed.

(** No product of the seed catalog can restock in its first tick: each
    starts more than its demand rate above its reorder level. *)
Lemma catalog_no_restock t1 t2 t3 :
  Forall (λ p, 0 <= p.(demandRate) ∧
               ∀ sold, 0 <= sold <= p.(demandRate) → restocks p sold = false)
    (initialProducts t1 t2 t3).
Proof.
  repeat constructor; simpl; try lia; intros sold Hs; apply restocks_false;
    unfold new_stock; simpl in *; lia.
Qed.

Section PrevNext.
Context {W : Type} `{Runtime W}.

Lemma runSimulationTick_prev_next (params : SimulationParams) (prev : list Product) :
  Forall (λ p, 0 <= p.(demandRate)) prev →
  wp (runSimulationTick params prev) (λ o, ∃ solds pqs,
      Forall3 step_pair prev solds pqs ∧
      o.(tick_prev) = map fst pqs ∧ o.(tick_next) = map snd pqs).
Proof.
  intros Hd. unfold runSimulationTick. apply wp_bind.
  eapply wp_mono; [by apply map_products_refines|].
  intros [t pqs] (solds & Hsteps & _). wp_steps. apply wp_any. intros events.
  apply wp_ret. by exists solds, pqs.
Qed.

(** A tick on products none of which can restock leaves the objects of
    [prev] as they were and keeps every [lastRestock]. *)
Lemma runSimulationTick_no_restock (params : SimulationParams) (prev : list Product) :
  Forall (λ p, 0 <= p.(demandRate) ∧
               ∀ sold, 0 <= sold <= p.(demandRate) → restocks p sold = false) prev →
  wp (runSimulationTick params prev) (λ o,
      o.(tick_prev) = prev ∧
      Forall2 (λ p q, q.(lastRestock) = p.(lastRestock)) prev o.(tick_next)).
Proof.
  intros Hno. eapply wp_mono.
  - apply runSimulationTick_prev_next. eapply Forall_impl; [done|]. by intros p [? _].
  - intros o (solds & pqs & Hpairs & -> & ->). apply (no_restock_keeps_prev _ solds).
    + done.
    + eapply Forall_impl; [done|]. by intros p [_ ?].
Qed.
End PrevNext.

(** ** The events of a tick *)

Section Events.
Context {W : Type} `{Runtime W}.

(** The tick emits one [product_update] event per next product, in
    order, each stamped by its own clock read. *)
Lemma runSimulationTick_events (params : SimulationParams) (prev : list Product) :
  wp (runSimulationTick params prev) (λ o,
      Forall2 (λ q e, ∃ ts, e = product_event ts q) o.(tick_next) o.(tick_events)).
Proof.
  unfold runSimulationTick. apply wp_bind, wp_any. intros [t pqs]. wp_steps.
  eapply wp_mono; [apply (wp_mapM _ (λ q e, ∃ ts, e = product_event ts q))|].
  { intros q _. wp_steps. eauto. }
  intros events He. by apply wp_ret.
Qed.
End Events.

(** ** Every sale the contract allows is drawn by some host *)

Section Onto.

Lemma demand_draw_spec p sold :
  0 <= sold <= p.(demandRate) → p.(demandRate) < RAND_DEN →
  0 <= demand_draw p sold < RAND_DEN ∧
  demand_draw p sold * (p.(demandRate) + 1) / RAND_DEN = sold.
Proof.
  intros Hs Hd. unfold demand_draw.
  replace (sold * RAND_DEN + p.(demandRate))
    with (sold * RAND_DEN + (p.(demandRate) + 1) - 1) by lia.
  apply floor_scaled_onto; [apply RAND_DEN_pos|lia|lia].
Qed.

(** The callback on a script whose first draw is [r] and whose sensor
    draws are [0]: it consumes three draws and sells
    [floor(r * (demandRate + 1) / 2^53)]. *)
Lemma simulate_product_script (t : Totals) (p : Product) (r : Z) (ks : list Z) (c : Z) :
  0 <= r < RAND_DEN →
  let res := simulate_product (W := Script) t p (mkScript (r :: 0 :: 0 :: ks) c) in
  res.2.(script_draws) = ks ∧
  res.1.1.(totalDemand) = t.(totalDemand) + r * (p.(demandRate) + 1) / RAND_DEN ∧
  res.1.2.2.(currentStock) = stock_after p (r * (p.(demandRate) + 1) / RAND_DEN).
Proof.
  intros Hr. unfold simulate_product, stock_after, restocks, new_stock.
  cbv [mbind Eff_bind mret Eff_ret random now math_random date_now script_runtime].
  cbn [script_random script_now script_draws script_clock]. rewrite Z.mod_small by done.
  set (sd := r * (demandRate p + 1) / RAND_DEN).
  destruct (bool_decide (Z.max 0 (currentStock p - sd) <= reorderLevel p));
    cbn; split_and!; try done; lia.
Qed.

(** The traversal on the script of [demand_draw]s sells [solds]. *)
Lemma map_products_onto (t : Totals) (prev : list Product) (solds : list Z) (ks : list Z) (c : Z) :
  Forall2 (λ p sold, 0 <= sold <= p.(demandRate) ∧ p.(demandRate) < RAND_DEN) prev solds →
  let res := map_products (W := Script) t prev
               (mkScript (concat (zip_with (λ p j, [demand_draw p j; 0; 0]) prev solds) ++ ks) c) in
  res.2.(script_draws) = ks ∧
  res.1.1.(totalDemand) = t.(totalDemand) + sumZ (λ x, x) solds ∧
  map (λ pq, pq.2.(currentStock)) res.1.2 = zip_with stock_after prev solds.
Proof.
  intros HF. revert t c. induction HF as [|p sold prev solds [Hs Hd] HF IH]; intros t c.
  - cbn. split_and!; [done|lia|done].
  - destruct (demand_draw_spec p sold Hs Hd) as [Hr Hsold].
    cbn [map_products zip_with concat]. rewrite run_bind.
    pose proof (simulate_product_script t p (demand_draw p sold)
                  (concat (zip_with (λ p j, [demand_draw p j; 0; 0]) prev solds) ++ ks) c Hr)
      as (Hw & Htd & Hst).
    rewrite Hsold in Htd, Hst.
    destruct (simulate_product t p _) as [[t' pq] w'] eqn:E. cbn in Hw, Htd, Hst |- *.
    rewrite run_bind. destruct w' as [dr cl]. cbn in Hw. subst dr.
    destruct (IH t' cl) as (Hw' & Htd' & Hst').
    destruct (map_products t' prev _) as [[t'' pqs] w''] eqn:E'.
    unfold sumZ in Htd'. cbn in Hw', Htd', Hst' |- *.
    split_and!; [done|lia|by rewrite Hst, Hst'].
Qed.
End Onto.
