(* ===== verification/TickProperties.v ===== *)
(** * The properties of the tick engine

    The claims about [runSimulationTick] and its callback
    [simulate_product], each with a witness that applies it on the seed
    catalog of App.tsx or on the scenarios of the design (section 8),
    run on the scripted runtime [Script]. *)

From Stdlib Require Import ZArith Lia.
From stdpp Require Import base list decidable sets strings.
From S2P Require Import Prelude Types Runtime TickSpec TickEngine.

Local Open Scope Z_scope.
Local Open Scope string_scope.

(** ** Inputs of the witnesses *)

(** The product of the first scenario of section 8. *)
Definition scenario_product_1 : Product :=
  mkProduct "S1" "scenario 1" DRY 2000 400 500 50 50 1200 0
    (mkSensors 2000 400 0) "OK" None.

(** The product of the second scenario, and a host whose first draw is a
    demand of 10 ([floor(k * 21 / 2^53) = 10]). *)
Definition scenario_product_2 : Product :=
  mkProduct "S2" "scenario 2" FRESH 400 900 100 10 5 250 20
    (mkSensors 400 900 0) "OK" None.

Definition scenario_host_2 : Script := mkScript [10 * RAND_DEN / 21 + 1] 0.

(** Parameters with inverted lead-time bounds (min 5, max 1). *)
Definition inverted_params : SimulationParams := mkParams 200 50 150 10 50 5 1 500.

(** Parameters that differ from the defaults in every policy field. *)
Definition other_policy_params : SimulationParams := mkParams 10 400 20 0 3 1 5 2000.

Section Properties.
Context {W : Type} `{Runtime W}.

(** C1. Invariant: if every product satisfies
    [0 <= currentStock <= maxStock] (with a non-negative demand rate)
    before a tick, every product of the next list satisfies it after
    the tick, whatever [Math.random] and [Date.now] return. *)
Theorem runSimulationTick_preserves_wf (params : SimulationParams) (prev : list Product) :
  Forall product_wf prev →
  wp (runSimulationTick params prev) (λ o, Forall product_wf o.(tick_next)).
Proof.
  intros Hwf. eapply wp_mono.
  - apply tick_refines_contract. eapply Forall_impl; [done|]. by intros p [_ Hd].
  - intros o [solds Hspec]. eauto using tick_spec_wf.
Qed.

(** C2. Refinement: for every runtime honouring the [Math.random]
    contract and every host state, [runSimulationTick] produces a next
    product list and an aggregate that the abstract contract
    [tick_spec] (section 4.1) allows for some demands drawn in range:
    each product steps as the contract says, the running totals are
    the sums the contract states, the lead time lies within ordered
    bounds. *)
Theorem runSimulationTick_refines (params : SimulationParams) (prev : list Product) :
  Forall (λ p, 0 <= p.(demandRate)) prev →
  wp (runSimulationTick params prev) (λ o,
      ∃ solds, tick_spec params prev solds o.(tick_next) o.(tick_agg)).
Proof. apply tick_refines_contract. Qed.

(** C3. The restock rule (section 8): the callback draws a demand
    [sold] in [0 .. demandRate] and adds it to the demand total; if the
    stock after the sale, [max 0 (currentStock - sold)], is at or below
    the reorder level, the new stock is [maxStock], the reorder total
    grows by exactly [maxStock] minus that stock and [lastRestock] is
    set; otherwise the stock after the sale is kept, the reorder total
    is unchanged and [lastRestock] is unchanged. *)
Theorem simulate_product_restock_rule (t : Totals) (p : Product) :
  0 <= p.(demandRate) →
  wp (simulate_product t p) (λ r, ∃ sold,
      0 <= sold <= p.(demandRate) ∧
      r.1.(totalDemand) = t.(totalDemand) + sold ∧
      (new_stock p sold <= p.(reorderLevel) →
         r.2.2.(currentStock) = p.(maxStock) ∧
         r.1.(totalReorder) = t.(totalReorder) + (p.(maxStock) - new_stock p sold) ∧
         is_Some r.2.2.(lastRestock)) ∧
      (p.(reorderLevel) < new_stock p sold →
         r.2.2.(currentStock) = new_stock p sold ∧
         r.1.(totalReorder) = t.(totalReorder) ∧
         r.2.2.(lastRestock) = p.(lastRestock))).
Proof.
  intros Hd. eapply wp_mono; [by apply simulate_product_refines|].
  intros [t' [p' q]] (sold & [Hsold _ Hstock Hrs _ _ _] & Hdem & _ & Hre & _ & _).
  exists sold. simpl. unfold reorder_of, stock_after in *.
  destruct (restocks p sold) eqn:E;
    [apply restocks_true in E | apply restocks_false in E];
    split_and!; intros; try split_and!; try done; lia.
Qed.

(** C4. The tick reaches every outcome its contract allows (the converse
    of C2 for the sales): for every vector of sales [solds] with
    [0 <= sold <= demandRate] for each product (and [demandRate < 2^53]),
    some sequence of [Math.random] draws makes [runSimulationTick]
    report the total demand [sum solds] and leave each product with the
    stock [stock_after p sold] of the contract.  So the demand formula
    [Math.floor(Math.random() * (demandRate + 1))] of line 108 can sell
    any amount from [0] to [demandRate], the upper bound included. *)
Theorem runSimulationTick_every_demand (params : SimulationParams) (prev : list Product) (solds : list Z) :
  Forall2 (λ p sold, 0 <= sold <= p.(demandRate) ∧ p.(demandRate) < RAND_DEN) prev solds →
  ∃ w : Script,
    (runSimulationTick params prev w).1.(tick_agg).(demand) = sumZ (λ x, x) solds ∧
    map currentStock (runSimulationTick params prev w).1.(tick_next) = zip_with stock_after prev solds.
Proof.
  intros HF. exists (mkScript (concat (zip_with (λ p j, [demand_draw p j; 0; 0]) prev solds) ++ []) 0).
  unfold runSimulationTick. rewrite run_bind.
  destruct (map_products_onto totals0 prev solds [] 0 HF) as (_ & Hd & Hs).
  destruct (map_products totals0 prev _) as [[t pqs] w']. cbn in Hd, Hs.
  cbv beta iota delta [fst snd].
  apply (wp_run _ (λ o, o.(tick_agg).(demand) = sumZ (λ x, x) solds ∧
                        map currentStock o.(tick_next) = zip_with stock_after prev solds)).
  wp_steps. apply wp_any. intros events. apply wp_ret. cbn [tick_agg demand tick_next].
  split; [lia|rewrite map_map; exact Hs].
Qed.

(** C5. Stockout and reorder in the same tick (section 4.1, edge case):
    when a product's sale empties it, the tick counts one stockout for
    it and, as the reorder level is not negative, restocks it to
    [maxStock] in the same tick, adding [maxStock] to the reorder
    total. *)
Theorem simulate_product_stockout_restocks (t : Totals) (p : Product) :
  0 <= p.(reorderLevel) → 0 <= p.(demandRate) →
  wp (simulate_product t p) (λ r,
      r.1.(totalStockouts) = t.(totalStockouts) + 1 →
      r.2.2.(currentStock) = p.(maxStock) ∧
      r.1.(totalReorder) = t.(totalReorder) + p.(maxStock)).
Proof.
  intros Hrl Hd. eapply wp_mono; [by apply simulate_product_refines|].
  intros [t' [p' q]] (sold & [_ _ Hstock _ _ _ _] & _ & _ & Hre & Hout & _) Hso.
  simpl in *. unfold stocks_out, reorder_of, stock_after in *.
  case_bool_decide; [|lia].
  assert (restocks p sold = true) as E by (apply restocks_true; lia).
  rewrite E in Hstock, Hre. lia.
Qed.
End Properties.

Section MoreProperties.
Context {W : Type} `{Runtime W}.

(** C6. Lead-time bounds (section 8): when [leadTimeMin <= leadTimeMax],
    the lead time of the aggregate lies in [leadTimeMin .. leadTimeMax]. *)
Theorem runSimulationTick_lead_time_bounds (params : SimulationParams) (prev : list Product) :
  params.(leadTimeMin) <= params.(leadTimeMax) →
  wp (runSimulationTick params prev) (λ o,
      params.(leadTimeMin) <= o.(tick_agg).(lead_time_days) <= params.(leadTimeMax)).
Proof.
  intros Hlh.
  apply (runSimulationTick_lead_time
           (λ l, params.(leadTimeMin) <= l <= params.(leadTimeMax))).
  intros r Hr. by apply lead_time_range.
Qed.

(** C7. The health status is always ['OK']: the temperature drawn lies
    within half a degree of the ideal, so the [WARNING] branch of
    App.tsx 125 (deviation above 2 degrees) is never taken, for every
    product list, parameters and host. *)
Theorem runSimulationTick_status_always_ok (params : SimulationParams) (prev : list Product) :
  wp (runSimulationTick params prev) (λ o, Forall (λ q, q.(status) = "OK") o.(tick_next)).
Proof.
  eapply wp_mono; [apply (runSimulationTick_forall (λ _ q, q.(status) = "OK"))|].
  - intros t p _. eapply wp_mono; [apply simulate_product_sensors|].
    by intros r (_ & _ & _ & Hok).
  - intros o. apply Forall2_Forall_r.
Qed.

(** C8. Sensor ranges: every next product's temperature lies within
    0.5 degree (50 hundredths) of its ideal temperature, after the
    [toFixed(2)] rounding, and its humidity within [0 .. 100 %] (1000
    tenths); for a frozen product at -18.0 the reading lies in
    [-18.5 .. -17.5]. *)
Theorem runSimulationTick_sensor_ranges (params : SimulationParams) (prev : list Product) :
  wp (runSimulationTick params prev) (λ o, Forall2 (λ p q,
      p.(idealTemp) - 50 <= q.(sensors).(temperature) <= p.(idealTemp) + 50 ∧
      0 <= q.(sensors).(humidity) <= 1000) prev o.(tick_next)).
Proof.
  apply runSimulationTick_forall. intros t p _.
  eapply wp_mono; [apply simulate_product_sensors|].
  by intros r (_ & Ht & Hh & _).
Qed.

(** C9. One event per product: the next list keeps every product's
    identity, category, setpoints, capacity, threshold, price and rate,
    in order; the tick emits exactly one [product_update] event per
    product, carrying that product's post-tick attributes. *)
Theorem runSimulationTick_one_event_per_product (params : SimulationParams)
    (prev : list Product) :
  wp (runSimulationTick params prev) (λ o,
      Forall2 same_static prev o.(tick_next) ∧
      Forall2 (λ q e, ∃ ts, e = product_event ts q) o.(tick_next) o.(tick_events) ∧
      length o.(tick_events) = length prev).
Proof.
  eapply wp_mono; [apply wp_and; [apply (runSimulationTick_forall same_static) |
                                  apply runSimulationTick_events]|].
  { intros t p _. eapply wp_mono; [apply simulate_product_sensors|]. by intros r (Hs & _). }
  intros o [Hs He]. split_and!; try done.
  by rewrite <- (Forall2_length _ _ _ He), <- (Forall2_length _ _ _ Hs).
Qed.

(** C10. Scenario of section 8: a product with [currentStock = 50],
    [reorderLevel = 50], [maxStock = 500] and [demandRate = 0] sells
    nothing, is at its reorder level, and is restocked by 450 to 500. *)
Theorem scenario_reorder_without_demand (t : Totals) (p : Product) :
  p.(currentStock) = 50 → p.(reorderLevel) = 50 → p.(maxStock) = 500 →
  p.(demandRate) = 0 →
  wp (simulate_product t p) (λ r,
      r.1.(totalDemand) = t.(totalDemand) ∧
      r.2.2.(currentStock) = 500 ∧
      r.1.(totalReorder) = t.(totalReorder) + 450 ∧
      is_Some r.2.2.(lastRestock)).
Proof.
  intros Hc Hr Hm Hd. eapply wp_mono; [apply simulate_product_refines; lia|].
  intros [t' [p' q]] (sold & [Hsold _ Hstock Hrs _ _ _] & Hdem & _ & Hre & _ & _).
  assert (sold = 0) as -> by lia.
  assert (restocks p 0 = true) as E by (apply restocks_true; unfold new_stock; lia).
  unfold stock_after, reorder_of, new_stock in *. rewrite E in *.
  simpl. split_and!; try done; lia.
Qed.

(** C11. Scenario of section 8: a product with [currentStock = 10],
    [reorderLevel = 5], [maxStock = 100], [demandRate = 20] and a demand
    draw of 10 empties the stock: the tick counts a stockout AND, since
    [0 <= 5], restocks it to 100 in the same tick, reordering 100. *)
Theorem scenario_stockout_then_reorder (t : Totals) (p : Product) (w : W) :
  p.(currentStock) = 10 → p.(reorderLevel) = 5 → p.(maxStock) = 100 →
  p.(demandRate) = 20 →
  (math_random w).1 * (p.(demandRate) + 1) / RAND_DEN = 10 →
  let r := (simulate_product t p w).1 in
  r.1.(totalDemand) = t.(totalDemand) + 10 ∧
  r.1.(totalStockouts) = t.(totalStockouts) + 1 ∧
  r.2.2.(currentStock) = 100 ∧
  r.1.(totalReorder) = t.(totalReorder) + 100.
Proof.
  intros Hc Hr Hm Hd Hsold.
  unfold simulate_product, mbind, Eff_bind, mret, Eff_ret, random, now.
  destruct (math_random w) as [k w1] eqn:E. simpl in Hsold.
  cbv zeta. rewrite Hsold, Hc, Hr, Hm.
  simpl. destruct (date_now w1) as [t0 w2].
  destruct (math_random w2) as [k2 w3]. destruct (math_random w3) as [k3 w4].
  destruct (date_now w4) as [t1 w5]. simpl. lia.
Qed.
End MoreProperties.

Section Findings.
Context {W : Type} `{Runtime W}.

(** C12. Inverted lead-time bounds are not rejected: the parameters are
    never validated (design section 7 says they should be rejected
    before [start()]), and when [leadTimeMax < leadTimeMin] the drawn
    lead time lies in [leadTimeMax + 1 .. leadTimeMin], outside the
    configured interval on its upper side. *)
Theorem runSimulationTick_lead_time_inverted (params : SimulationParams)
    (prev : list Product) :
  params.(leadTimeMax) < params.(leadTimeMin) →
  wp (runSimulationTick params prev) (λ o,
      params.(leadTimeMax) < o.(tick_agg).(lead_time_days) <= params.(leadTimeMin)).
Proof.
  intros Hinv.
  apply (runSimulationTick_lead_time
           (λ l, params.(leadTimeMax) < l <= params.(leadTimeMin))).
  intros r Hr.
  pose proof (floor_scaled_range_nonpos RAND_DEN RAND_DEN_pos r
                (params.(leadTimeMax) - params.(leadTimeMin) + 1) Hr ltac:(lia)).
  lia.
Qed.

(** C13. The first tick of a run never restocks a product of the seed
    catalog [initialProducts], whatever the draws: the callbacks leave
    the catalog objects unmutated (no [lastRestock] assignment), and
    every next product still has [lastRestock = null]. *)
Theorem first_tick_keeps_catalog (params : SimulationParams) (t1 t2 t3 : Z) :
  wp (runSimulationTick params (initialProducts t1 t2 t3)) (λ o,
      o.(tick_prev) = initialProducts t1 t2 t3 ∧
      Forall (λ q, q.(lastRestock) = None) o.(tick_next)).
Proof.
  eapply wp_mono; [apply runSimulationTick_no_restock, catalog_no_restock|].
  intros o [Hprev Hnext]. split; [done|].
  eapply Forall2_transport; [done|]. repeat constructor.
Qed.

(** C14. Aggregate bounds: for well-formed products, the tick's demand
    lies in [0 .. sum of the demand rates], its inventory level and its
    reorder quantity in [0 .. sum of the capacities], and its stockout
    count in [0 .. number of products]. *)
Theorem runSimulationTick_aggregate_bounds (params : SimulationParams)
    (prev : list Product) :
  Forall product_wf prev →
  wp (runSimulationTick params prev) (λ o,
      0 <= o.(tick_agg).(demand) <= sumZ demandRate prev ∧
      0 <= o.(tick_agg).(inventory_level) <= sumZ maxStock prev ∧
      0 <= o.(tick_agg).(reorder_quantity) <= sumZ maxStock prev ∧
      0 <= o.(tick_agg).(stockout) <= Z.of_nat (length prev)).
Proof.
  intros Hwf. eapply wp_mono.
  - apply tick_refines_contract. eapply Forall_impl; [done|]. by intros p [_ Hd].
  - intros o [solds [Hsteps Hdem Hinv Hre Hout _]].
    rewrite Hdem, Hinv, Hre, Hout. by apply steps_sum_bounds.
Qed.

(** C15. The policy parameters are ignored: two parameter records that
    agree on the lead-time bounds give the same tick, whatever their
    [initialStock], [reorderPoint], [reorderQuantity], [demandMin],
    [demandMax] and [simulationInterval]; the form of
    SimulationControls edits them to no effect on the simulation. *)
Theorem runSimulationTick_ignores_policy_params (params params' : SimulationParams)
    (prev : list Product) :
  params.(leadTimeMin) = params'.(leadTimeMin) →
  params.(leadTimeMax) = params'.(leadTimeMax) →
  runSimulationTick (W := W) params prev = runSimulationTick params' prev.
Proof. intros Hmin Hmax. unfold runSimulationTick. by rewrite Hmin, Hmax. Qed.
End Findings.

(** ** Witnesses: the claims at concrete inputs, on the scripted runtime *)

Lemma runSimulationTick_preserves_wf_witness :
  Forall product_wf (initialProducts 0 0 0) ∧
  wp (W := Script) (runSimulationTick DEFAULT_PARAMS (initialProducts 0 0 0))
    (λ o, Forall product_wf o.(tick_next)).
Proof.
  assert (Hwf : Forall product_wf (initialProducts 0 0 0))
    by (repeat constructor; simpl; lia).
  split; [exact Hwf | exact (runSimulationTick_preserves_wf DEFAULT_PARAMS _ Hwf)].
Defined.

Lemma runSimulationTick_refines_witness :
  Forall (λ p, 0 <= p.(demandRate)) (initialProducts 0 0 0) ∧
  wp (W := Script) (runSimulationTick DEFAULT_PARAMS (initialProducts 0 0 0))
    (λ o, ∃ solds, tick_spec DEFAULT_PARAMS (initialProducts 0 0 0) solds
                     o.(tick_next) o.(tick_agg)).
Proof.
  assert (Hd : Forall (λ p, 0 <= p.(demandRate)) (initialProducts 0 0 0))
    by (repeat constructor; simpl; lia).
  split; [exact Hd | exact (runSimulationTick_refines DEFAULT_PARAMS _ Hd)].
Defined.

Lemma simulate_product_restock_rule_witness :
  0 <= scenario_product_2.(demandRate) ∧
  wp (W := Script) (simulate_product totals0 scenario_product_2) (λ r, ∃ sold,
      0 <= sold <= scenario_product_2.(demandRate) ∧
      r.1.(totalDemand) = totals0.(totalDemand) + sold ∧
      (new_stock scenario_product_2 sold <= scenario_product_2.(reorderLevel) →
         r.2.2.(currentStock) = scenario_product_2.(maxStock) ∧
         r.1.(totalReorder) =
           totals0.(totalReorder) + (scenario_product_2.(maxStock) - new_stock scenario_product_2 sold) ∧
         is_Some r.2.2.(lastRestock)) ∧
      (scenario_product_2.(reorderLevel) < new_stock scenario_product_2 sold →
         r.2.2.(currentStock) = new_stock scenario_product_2 sold ∧
         r.1.(totalReorder) = totals0.(totalReorder) ∧
         r.2.2.(lastRestock) = scenario_product_2.(lastRestock))).
Proof.
  assert (Hd : 0 <= scenario_product_2.(demandRate)) by (simpl; lia).
  split; [exact Hd | exact (simulate_product_restock_rule totals0 scenario_product_2 Hd)].
Defined.

Lemma runSimulationTick_every_demand_witness :
  Forall2 (λ p sold, 0 <= sold <= p.(demandRate) ∧ p.(demandRate) < RAND_DEN)
    (initialProducts 0 0 0) (map demandRate (initialProducts 0 0 0)) ∧
  ∃ w : Script,
    (runSimulationTick DEFAULT_PARAMS (initialProducts 0 0 0) w).1.(tick_agg).(demand) =
      sumZ (λ x, x) (map demandRate (initialProducts 0 0 0)) ∧
    map currentStock (runSimulationTick DEFAULT_PARAMS (initialProducts 0 0 0) w).1.(tick_next) =
      zip_with stock_after (initialProducts 0 0 0) (map demandRate (initialProducts 0 0 0)).
Proof.
  assert (HF : Forall2 (λ p sold, 0 <= sold <= p.(demandRate) ∧ p.(demandRate) < RAND_DEN)
    (initialProducts 0 0 0) (map demandRate (initialProducts 0 0 0)))
    by (repeat constructor; vm_compute; congruence).
  split; [exact HF | exact (runSimulationTick_every_demand DEFAULT_PARAMS _ _ HF)].
Defined.

Lemma simulate_product_stockout_restocks_witness :
  0 <= scenario_product_2.(reorderLevel) ∧ 0 <= scenario_product_2.(demandRate) ∧
  wp (W := Script) (simulate_product totals0 scenario_product_2) (λ r,
      r.1.(totalStockouts) = totals0.(totalStockouts) + 1 →
      r.2.2.(currentStock) = scenario_product_2.(maxStock) ∧
      r.1.(totalReorder) = totals0.(totalReorder) + scenario_product_2.(maxStock)).
Proof.
  assert (Hr : 0 <= scenario_product_2.(reorderLevel)) by (simpl; lia).
  assert (Hd : 0 <= scenario_product_2.(demandRate)) by (simpl; lia).
  split_and!; [exact Hr | exact Hd |].
  exact (simulate_product_stockout_restocks totals0 scenario_product_2 Hr Hd).
Defined.

Lemma runSimulationTick_lead_time_bounds_witness :
  DEFAULT_PARAMS.(leadTimeMin) <= DEFAULT_PARAMS.(leadTimeMax) ∧
  wp (W := Script) (runSimulationTick DEFAULT_PARAMS (initialProducts 0 0 0))
    (λ o, DEFAULT_PARAMS.(leadTimeMin) <= o.(tick_agg).(lead_time_days)
          <= DEFAULT_PARAMS.(leadTimeMax)).
Proof.
  assert (Hlh : DEFAULT_PARAMS.(leadTimeMin) <= DEFAULT_PARAMS.(leadTimeMax))
    by (simpl; lia).
  split; [exact Hlh | exact (runSimulationTick_lead_time_bounds DEFAULT_PARAMS _ Hlh)].
Defined.

Lemma scenario_reorder_without_demand_witness :
  wp (W := Script) (simulate_product totals0 scenario_product_1) (λ r,
      r.1.(totalDemand) = totals0.(totalDemand) ∧
      r.2.2.(currentStock) = 500 ∧
      r.1.(totalReorder) = totals0.(totalReorder) + 450 ∧
      is_Some r.2.2.(lastRestock)).
Proof.
  apply (scenario_reorder_without_demand totals0 scenario_product_1);
    reflexivity.
Defined.

Lemma scenario_stockout_then_reorder_witness :
  (math_random scenario_host_2).1 * (scenario_product_2.(demandRate) + 1) / RAND_DEN = 10 ∧
  (let r := (simulate_product totals0 scenario_product_2 scenario_host_2).1 in
   r.1.(totalDemand) = totals0.(totalDemand) + 10 ∧
   r.1.(totalStockouts) = totals0.(totalStockouts) + 1 ∧
   r.2.2.(currentStock) = 100 ∧
   r.1.(totalReorder) = totals0.(totalReorder) + 100).
Proof.
  assert (Hdraw : (math_random scenario_host_2).1 * (scenario_product_2.(demandRate) + 1)
                  / RAND_DEN = 10) by (vm_compute; reflexivity).
  split; [exact Hdraw|].
  apply (scenario_stockout_then_reorder totals0 scenario_product_2 scenario_host_2);
    [reflexivity .. | exact Hdraw].
Defined.

Lemma runSimulationTick_lead_time_inverted_witness :
  inverted_params.(leadTimeMax) < inverted_params.(leadTimeMin) ∧
  wp (W := Script) (runSimulationTick inverted_params (initialProducts 0 0 0))
    (λ o, inverted_params.(leadTimeMax) < o.(tick_agg).(lead_time_days)
          <= inverted_params.(leadTimeMin)).
Proof.
  assert (Hinv : inverted_params.(leadTimeMax) < inverted_params.(leadTimeMin))
    by (simpl; lia).
  split; [exact Hinv | exact (runSimulationTick_lead_time_inverted inverted_params _ Hinv)].
Defined.

Lemma runSimulationTick_aggregate_bounds_witness :
  Forall product_wf (initialProducts 0 0 0) ∧
  wp (W := Script) (runSimulationTick DEFAULT_PARAMS (initialProducts 0 0 0)) (λ o,
      0 <= o.(tick_agg).(demand) <= sumZ demandRate (initialProducts 0 0 0) ∧
      0 <= o.(tick_agg).(inventory_level) <= sumZ maxStock (initialProducts 0 0 0) ∧
      0 <= o.(tick_agg).(reorder_quantity) <= sumZ maxStock (initialProducts 0 0 0) ∧
      0 <= o.(tick_agg).(stockout) <= Z.of_nat (length (initialProducts 0 0 0))).
Proof.
  assert (Hwf : Forall product_wf (initialProducts 0 0 0))
    by (repeat constructor; simpl; lia).
  split; [exact Hwf | exact (runSimulationTick_aggregate_bounds DEFAULT_PARAMS _ Hwf)].
Defined.

Lemma runSimulationTick_ignores_policy_params_witness :
  DEFAULT_PARAMS.(leadTimeMin) = other_policy_params.(leadTimeMin) ∧
  DEFAULT_PARAMS.(leadTimeMax) = other_policy_params.(leadTimeMax) ∧
  runSimulationTick (W := Script) DEFAULT_PARAMS (initialProducts 0 0 0)
  = runSimulationTick other_policy_params (initialProducts 0 0 0).
Proof.
  split_and!; [reflexivity | reflexivity |].
  apply runSimulationTick_ignores_policy_params; reflexivity.
Defined.
