(* ===== verification/Json.v ===== *)
(** * The messages on the wire: [JSON.stringify] of the payloads

    [mqttService.publish] sends [JSON.stringify(data)].  This file models
    the JSON values the code builds, the serializer of the host
    ([JSON.stringify]: key order of insertion, [QuoteJSONString] escaping,
    the shortest decimal of a number), its indented form
    [JSON.stringify(v, null, 2)] that the dashboard prints,
    [Date.prototype.toISOString], the two payloads of a tick (the
    [product_update] event, App.tsx 151-167, and the aggregate, 140-147)
    and the [currentData] object [{ ...agg, products }] (line 174).
    Numbers kept in fixed point (see [Types]) are printed as the decimal
    they stand for, trailing zeros removed, which is what JavaScript
    prints for the double nearest to a decimal of at most 15 significant
    digits.  The reading side is in [JsonDecode]. *)

From Stdlib Require Import ZArith Lia Ascii String DecimalString.
From stdpp Require Import base list decidable.
From S2P Require Import Prelude Types TickEngine.

Local Open Scope Z_scope.
Local Open Scope string_scope.

(** JSON values as the code builds them; [JDec m e] is the number
    [m / 10^e]. *)
#[warnings="-register-all"]
Inductive json :=
| JNull
| JBool (b : bool)
| JNum (n : Z)
| JDec (m : Z) (e : nat)
| JStr (s : string)
| JArr (l : list json)
| JObj (kvs : list (string * json)).

(** ** Numbers *)

Definition Z_to_string (z : Z) : string := NilZero.string_of_int (Z.to_int z).

Fixpoint zeros (n : nat) : string :=
  match n with O => EmptyString | S n' => String "0" (zeros n') end.

(** [s] left-padded with zeros to width [w] ([padStart(w, '0')]). *)
Definition pad_zeros (w : nat) (s : string) : string :=
  zeros (w - String.length s) ++ s.

(** Drop the trailing zeros of a fraction [r / 10^e]. *)
Fixpoint trim_fraction (r : Z) (e : nat) : Z * nat :=
  match e with
  | O => (r, O)
  | S e' => if bool_decide (r mod 10 = 0) then trim_fraction (r / 10) e' else (r, e)
  end.

(** [Number.prototype.toString] of [m / 10^e]. *)
Definition decimal_to_string (m : Z) (e : nat) : string :=
  let a := Z.abs m in
  let q := a / 10 ^ Z.of_nat e in
  let r := a mod 10 ^ Z.of_nat e in
  let sign := if bool_decide (m < 0) then "-" else EmptyString in
  if bool_decide (r = 0) then
    (if bool_decide (q = 0) then "0" else sign ++ Z_to_string q)
  else
    let '(r', e') := trim_fraction r e in
    sign ++ Z_to_string q ++ "." ++ pad_zeros e' (Z_to_string r').

(** ** Strings: [QuoteJSONString] *)

(** A lower-case hexadecimal digit, for the [\u00XX] escapes. *)
Definition hex_digit (n : nat) : ascii :=
  ascii_of_nat (if bool_decide (n < 10)%nat then 48 + n else 87 + n)%nat.

(** The quotation mark, character 34. *)
Definition dquote : string := String (ascii_of_nat 34) EmptyString.

Definition escape_char (c : ascii) : string :=
  let n := nat_of_ascii c in
  if bool_decide (n = 34%nat) then "\" ++ dquote
  else if bool_decide (c = "\"%char) then "\\"
  else if bool_decide (n = 8%nat) then "\b"
  else if bool_decide (n = 9%nat) then "\t"
  else if bool_decide (n = 10%nat) then "\n"
  else if bool_decide (n = 12%nat) then "\f"
  else if bool_decide (n = 13%nat) then "\r"
  else if bool_decide (n < 32)%nat then
    "\u00" ++ String (hex_digit (n / 16)) (String (hex_digit (n mod 16)) EmptyString)
  else String c EmptyString.

Fixpoint escape_string (s : string) : string :=
  match s with
  | EmptyString => EmptyString
  | String c s' => escape_char c ++ escape_string s'
  end.

Definition quote (s : string) : string := dquote ++ escape_string s ++ dquote.

(** ** [JSON.stringify] *)

Fixpoint stringify (j : json) : string :=
  match j with
  | JNull => "null"
  | JBool true => "true"
  | JBool false => "false"
  | JNum n => Z_to_string n
  | JDec m e => decimal_to_string m e
  | JStr s => quote s
  | JArr l => "[" ++ String.concat "," (map stringify l) ++ "]"
  | JObj kvs =>
      "{" ++ String.concat "," (map (λ kv, quote kv.1 ++ ":" ++ stringify kv.2) kvs) ++ "}"
  end.

(** [JSON.stringify(value, null, 2)]: the same serialization laid out
    with a gap of two spaces (SerializeJSONObject and SerializeJSONArray
    of ECMA-262 with a non-empty gap): every member on a line of its own,
    indented one gap deeper than its container, a space after the colon;
    an empty array or object stays [[]] or [{}]. *)
Definition newline : string := String (ascii_of_nat 10) EmptyString.

Fixpoint stringify_pretty (ind : string) (j : json) : string :=
  let ind' := (ind ++ "  ")%string in
  match j with
  | JArr [] => "[]"
  | JArr l =>
      "[" ++ newline ++ ind' ++
      String.concat ("," ++ newline ++ ind') (map (stringify_pretty ind') l) ++
      newline ++ ind ++ "]"
  | JObj [] => "{}"
  | JObj kvs =>
      "{" ++ newline ++ ind' ++
      String.concat ("," ++ newline ++ ind')
        (map (λ kv, quote kv.1 ++ ": " ++ stringify_pretty ind' kv.2) kvs) ++
      newline ++ ind ++ "}"
  | _ => stringify j
  end.

(** Induction on [json] with a hypothesis for every element of an array
    and every field of an object. *)
Section json_ind'.
Variable P : json → Prop.
Hypothesis Hnull : P JNull.
Hypothesis Hbool : ∀ b, P (JBool b).
Hypothesis Hnum : ∀ n, P (JNum n).
Hypothesis Hdec : ∀ m e, P (JDec m e).
Hypothesis Hstr : ∀ s, P (JStr s).
Hypothesis Harr : ∀ l, Forall P l → P (JArr l).
Hypothesis Hobj : ∀ kvs, Forall (λ kv, P kv.2) kvs → P (JObj kvs).

Fixpoint json_ind' (j : json) : P j :=
  match j with
  | JNull => Hnull
  | JBool b => Hbool b
  | JNum n => Hnum n
  | JDec m e => Hdec m e
  | JStr s => Hstr s
  | JArr l =>
      Harr l ((fix go (l : list json) : Forall P l :=
                 match l with
                 | [] => Forall_nil _
                 | x :: xs => Forall_cons _ x xs (json_ind' x) (go xs)
                 end) l)
  | JObj kvs =>
      Hobj kvs ((fix go (kvs : list (string * json)) : Forall (λ kv, P kv.2) kvs :=
                   match kvs with
                   | [] => Forall_nil _
                   | kv :: rest => Forall_cons _ kv rest (json_ind' kv.2) (go rest)
                   end) kvs)
  end.
End json_ind'.

(** ** [Date.prototype.toISOString] *)

(** The proleptic Gregorian date of a day count from 1970-01-01. *)
Definition civil_from_days (days : Z) : Z * Z * Z :=
  let z := days + 719468 in
  let era := z / 146097 in
  let doe := z - era * 146097 in
  let yoe := (doe - doe / 1460 + doe / 36524 - doe / 146096) / 365 in
  let doy := doe - (365 * yoe + yoe / 4 - yoe / 100) in
  let mp := (5 * doy + 2) / 153 in
  let d := doy - (153 * mp + 2) / 5 + 1 in
  let m := if bool_decide (mp < 10) then mp + 3 else mp - 9 in
  (yoe + era * 400 + (if bool_decide (m <= 2) then 1 else 0), m, d).

Definition pad_num (w : nat) (n : Z) : string := pad_zeros w (Z_to_string n).

Definition toISOString (ms : Z) : string :=
  let days := ms / 86400000 in
  let t := ms mod 86400000 in
  let '(y, m, d) := civil_from_days days in
  let year :=
    if bool_decide (0 <= y <= 9999) then pad_num 4 y
    else (if bool_decide (y < 0) then "-" else "+") ++ pad_num 6 (Z.abs y) in
  year ++ "-" ++ pad_num 2 m ++ "-" ++ pad_num 2 d ++ "T" ++
  pad_num 2 (t / 3600000) ++ ":" ++ pad_num 2 (t / 60000 mod 60) ++ ":" ++
  pad_num 2 (t / 1000 mod 60) ++ "." ++ pad_num 3 (t mod 1000) ++ "Z".

(** ** The payloads of a tick *)

Definition sensors_json (s : Sensors) : json :=
  JObj [("temperature", JDec s.(temperature) 2); ("humidity", JDec s.(humidity) 1);
        ("timestamp", JNum s.(timestamp))].

(** The [product_update] payload (App.tsx 151-167); [timestamp] is
    [new Date().toISOString()]. *)
Definition product_event_json (e : ProductEvent) : json :=
  let pl := e.(ev_product) in
  JObj [("event", JStr e.(ev_event));
        ("timestamp", JStr (toISOString e.(ev_timestamp)));
        ("product", JObj [
           ("id", JStr pl.(pl_id)); ("name", JStr pl.(pl_name));
           ("type", JStr (ProductType_value pl.(pl_type)));
           ("currentStock", JNum pl.(pl_currentStock)); ("maxStock", JNum pl.(pl_maxStock));
           ("reorderLevel", JNum pl.(pl_reorderLevel)); ("price", JDec pl.(pl_price) 2);
           ("demandRate", JNum pl.(pl_demandRate)); ("sensors", sensors_json pl.(pl_sensors));
           ("status", JStr pl.(pl_status));
           ("lastRestock", match pl.(pl_lastRestock) with Some t => JNum t | None => JNull end)])].

(** The aggregate [agg] (App.tsx 140-147): the object literal has no
    [products] key. *)
Definition aggregate_fields (agg : SimulationResult) : list (string * json) :=
  [("timestamp", JStr (toISOString agg.(res_timestamp)));
   ("demand", JNum agg.(demand)); ("inventory_level", JNum agg.(inventory_level));
   ("reorder_quantity", JNum agg.(reorder_quantity));
   ("lead_time_days", JNum agg.(lead_time_days)); ("stockout", JNum agg.(stockout))].

Definition aggregate_json (agg : SimulationResult) : json := JObj (aggregate_fields agg).

(** A product object as the code holds it: the keys of the seed literal
    (App.tsx 21-34) in their order, which the spread of line 130 keeps. *)
Definition product_json (p : Product) : json :=
  JObj [("id", JStr p.(id)); ("name", JStr p.(name));
        ("type", JStr (ProductType_value p.(type)));
        ("idealTemp", JDec p.(idealTemp) 2); ("idealHumidity", JDec p.(idealHumidity) 1);
        ("maxStock", JNum p.(maxStock)); ("currentStock", JNum p.(currentStock));
        ("reorderLevel", JNum p.(reorderLevel)); ("price", JDec p.(price) 2);
        ("demandRate", JNum p.(demandRate)); ("sensors", sensors_json p.(sensors));
        ("status", JStr p.(status));
        ("lastRestock", match p.(lastRestock) with Some t => JNum t | None => JNull end)].

(** [{ ...agg, products: next }] (App.tsx 174), the [currentData] the
    dashboard prints, with the product objects as they are when it
    renders. *)
Definition current_data_json (agg : SimulationResult) (ps : list Product) : json :=
  JObj (aggregate_fields agg ++ [("products", JArr (map product_json ps))]).
