(* ===== verification/JsonDecode.v ===== *)
(** * Reading the messages back: [JSON.parse]

    The subscribers of the topic are not part of the repository; what the
    code promises them is that [JSON.stringify] of its payloads is JSON
    that reads back as the values it built (spec, section 6).  This file
    holds a decoder of that JSON, after the grammar of RFC 8259 as
    [JSON.parse] reads it, restricted to what [JSON.stringify] prints: no
    insignificant whitespace, no exponents, characters below 256 (the
    characters of the model, [\u00XX] escapes).  It accepts leading zeros
    in a numeral, which [JSON.parse] refuses; no printed numeral has one.
    A number is read as its value: the pair [(m, e)] of [m / 10^e] without
    trailing zeros of the fraction, as a double forgets how it was
    written.

    The decoder is a family of mutually recursive functions over the input
    with fuel ([decode_value] and the lists of an array or an object);
    [decode_json] gives it three times the input length, and
    [decode_fuel_enough] and [decode_fuel_mono] show that this fuel never
    decides the outcome ([decode_json_spec]).  The theorems show that every
    value printed by [stringify] reads back as [canon] of itself
    ([decode_json_stringify]), and that the messages of a tick read back as
    values of the schemas the specification gives for them
    ([tick_messages_typed]).  [strip_ws] erases the whitespace
    [JSON.parse] skips; the indented layout of [stringify_pretty] strips
    to the compact one ([strip_pretty]), so the dashboard's panel reads
    back as what it prints. *)

From Stdlib Require Import ZArith Lia Ascii String DecimalString DecimalFacts DecimalPos DecimalZ.
From stdpp Require Import base list decidable.
From S2P Require Import Prelude Types Runtime TickSpec TickEngine Json.

Local Open Scope Z_scope.
Local Open Scope string_scope.

Definition digit_of (c : ascii) : option Z :=
  let n := nat_of_ascii c in
  if bool_decide (48 <= n < 58)%nat then Some (Z.of_nat n - 48) else None.

Fixpoint digits_value (s : string) : option (Z * nat) :=
  match s with
  | EmptyString => Some (0, 0%nat)
  | String c s' =>
      match digit_of c, digits_value s' with
      | Some d, Some (v, n) => Some (d * 10 ^ Z.of_nat n + v, S n)
      | _, _ => None
      end
  end.

(** ** Numbers *)

Definition is_num_char (c : ascii) : bool :=
  let n := nat_of_ascii c in bool_decide (n = 45 ∨ n = 46 ∨ 48 <= n < 58)%nat.

Fixpoint all_num (s : string) : bool :=
  match s with EmptyString => true | String c s' => is_num_char c && all_num s' end.

Fixpoint split_dot (s : string) : string * option string :=
  match s with
  | EmptyString => (EmptyString, None)
  | String c s' =>
      if Ascii.eqb c "."%char then (EmptyString, Some s')
      else let '(a, b) := split_dot s' in (String c a, b)
  end.

(** The digits of a number after its optional sign: an integer part and
    an optional fraction, each of at least one digit. *)
Definition decode_body (neg : bool) (body : string) : option (Z * nat) :=
  let sign v := if neg then - v else v in
  let '(ip, fp) := split_dot body in
  match digits_value ip with
  | Some (q, S _) =>
      match fp with
      | None => Some (sign q, 0%nat)
      | Some f =>
          match digits_value f with
          | Some (r, S k) => Some (sign (q * 10 ^ Z.of_nat (S k) + r), S k)
          | _ => None
          end
      end
  | _ => None
  end.

(** A number [m / 10^e] as the pair [(m, e)]. *)
Definition decode_number (s : string) : option (Z * nat) :=
  match s with
  | String c b => if Ascii.eqb c "-"%char then decode_body true b else decode_body false s
  | EmptyString => None
  end.

(** *** Numbers are compared by value

    [JSON.parse] turns a numeral into a double; two numerals of the same
    value give the same number.  The decoder keeps a number as the pair
    without trailing zeros of the fraction, the one [trim_fraction]
    computes. *)

Definition dec_normal (m : Z) (e : nat) : Prop := e = 0%nat ∨ m mod 10 ≠ 0.

(** The number a decoded numeral stands for. *)
Definition num_json (p : Z * nat) : json :=
  JDec (trim_fraction p.1 p.2).1 (trim_fraction p.1 p.2).2.

Fixpoint scan_number (s : string) : string * string :=
  match s with
  | EmptyString => (EmptyString, EmptyString)
  | String c s' =>
      if is_num_char c then let '(a, b) := scan_number s' in (String c a, b)
      else (EmptyString, s)
  end.

(** What may follow a number: nothing, or a character that cannot
    continue it. *)
Definition rest_ok (r : string) : bool :=
  match r with EmptyString => true | String c _ => negb (is_num_char c) end.

(** ** String literals *)

(** The grammar of RFC 8259 for the characters between the quotes, as
    [JSON.parse] reads them: an escape [\x] for the short escapes and
    [\u] with four hexadecimal digits (here below 256, the characters of
    the model); a raw quotation mark, backslash or control character is
    rejected. *)

Definition hex_value (c : ascii) : option nat :=
  let n := nat_of_ascii c in
  if bool_decide (48 <= n < 58)%nat then Some (n - 48)%nat
  else if bool_decide (97 <= n < 103)%nat then Some (n - 87)%nat
  else if bool_decide (65 <= n < 71)%nat then Some (n - 55)%nat
  else None.

Definition short_escape (d : ascii) : option ascii :=
  let n := nat_of_ascii d in
  if bool_decide (n = 34%nat) then Some d
  else if bool_decide (n = 92%nat) then Some d
  else if bool_decide (n = 47%nat) then Some d
  else if bool_decide (d = "b"%char) then Some (ascii_of_nat 8)
  else if bool_decide (d = "t"%char) then Some (ascii_of_nat 9)
  else if bool_decide (d = "n"%char) then Some (ascii_of_nat 10)
  else if bool_decide (d = "f"%char) then Some (ascii_of_nat 12)
  else if bool_decide (d = "r"%char) then Some (ascii_of_nat 13)
  else None.

(** The characters of a string literal after its opening quotation
    mark, up to the closing one: the decoded string and what follows. *)
Fixpoint decode_chars (s : string) : option (string * string) :=
  match s with
  | EmptyString => None
  | String c s' =>
      let n := nat_of_ascii c in
      if bool_decide (n = 34%nat) then Some (EmptyString, s')
      else if bool_decide (n = 92%nat) then
        match s' with
        | String d rest =>
            if Ascii.eqb d "u" then
              match rest with
              | String a (String b (String x (String y rest'))) =>
                  match hex_value a, hex_value b, hex_value x, hex_value y with
                  | Some 0%nat, Some 0%nat, Some hi, Some lo =>
                      match decode_chars rest' with
                      | Some (t, r) => Some (String (ascii_of_nat (16 * hi + lo)) t, r)
                      | None => None
                      end
                  | _, _, _, _ => None
                  end
              | _ => None
              end
            else
              match short_escape d, decode_chars rest with
              | Some e, Some (t, r) => Some (String e t, r)
              | _, _ => None
              end
        | EmptyString => None
        end
      else if bool_decide (n < 32)%nat then None
      else match decode_chars s' with Some (t, r) => Some (String c t, r) | None => None end
  end.

(** ** Values *)

(** The outcome of a decoder: a value and the input left, a syntax
    error, or the fuel ran out. *)
Inductive dres (A : Type) :=
| Done (a : A) (rest : string)
| Fail
| NoFuel.
Arguments Done {A} a rest.
Arguments Fail {A}.
Arguments NoFuel {A}.

Definition dmap {A B} (g : A → B) (d : dres A) : dres B :=
  match d with Done a r => Done (g a) r | Fail => Fail | NoFuel => NoFuel end.

Definition dq : ascii := ascii_of_nat 34.

(** [s] without the prefix [p], if it starts with it. *)
Fixpoint strip_prefix (p s : string) : option string :=
  match p, s with
  | EmptyString, _ => Some s
  | String c p', String d s' => if Ascii.eqb c d then strip_prefix p' s' else None
  | String _ _, EmptyString => None
  end.

(** A value; the elements of an array after its [[], the elements after
    the first, the members of an object after its [{], the members after
    the first.  Each call spends one unit of fuel. *)
Fixpoint decode_value (fuel : nat) (s : string) {struct fuel} : dres json :=
  match fuel with
  | O => NoFuel
  | S f =>
      match s with
      | EmptyString => Fail
      | String c r =>
          if Ascii.eqb c "n" then
            match strip_prefix "ull" r with Some r' => Done JNull r' | None => Fail end
          else if Ascii.eqb c "t" then
            match strip_prefix "rue" r with Some r' => Done (JBool true) r' | None => Fail end
          else if Ascii.eqb c "f" then
            match strip_prefix "alse" r with Some r' => Done (JBool false) r' | None => Fail end
          else if Ascii.eqb c "[" then dmap JArr (decode_elems f r)
          else if Ascii.eqb c "{" then dmap JObj (decode_members f r)
          else if Ascii.eqb c dq then
            match decode_chars r with Some (x, r') => Done (JStr x) r' | None => Fail end
          else if is_num_char c then
            let '(tok, r') := scan_number s in
            match decode_number tok with Some p => Done (num_json p) r' | None => Fail end
          else Fail
      end
  end
with decode_elems (fuel : nat) (s : string) {struct fuel} : dres (list json) :=
  match fuel with
  | O => NoFuel
  | S f =>
      match s with
      | String c r => if Ascii.eqb c "]" then Done [] r else decode_items f s
      | EmptyString => decode_items f s
      end
  end
with decode_items (fuel : nat) (s : string) {struct fuel} : dres (list json) :=
  match fuel with
  | O => NoFuel
  | S f =>
      match decode_value f s with
      | Done v (String c r) =>
          if Ascii.eqb c "," then dmap (cons v) (decode_items f r)
          else if Ascii.eqb c "]" then Done [v] r
          else Fail
      | Done _ EmptyString => Fail
      | Fail => Fail
      | NoFuel => NoFuel
      end
  end
with decode_members (fuel : nat) (s : string) {struct fuel} : dres (list (string * json)) :=
  match fuel with
  | O => NoFuel
  | S f =>
      match s with
      | String c r => if Ascii.eqb c "}" then Done [] r else decode_fields f s
      | EmptyString => decode_fields f s
      end
  end
with decode_fields (fuel : nat) (s : string) {struct fuel} : dres (list (string * json)) :=
  match fuel with
  | O => NoFuel
  | S f =>
      match s with
      | String c r =>
          if Ascii.eqb c dq then
            match decode_chars r with
            | Some (k, String c1 r1) =>
                if Ascii.eqb c1 ":" then
                  match decode_value f r1 with
                  | Done v (String c2 r2) =>
                      if Ascii.eqb c2 "," then dmap (cons (k, v)) (decode_fields f r2)
                      else if Ascii.eqb c2 "}" then Done [(k, v)] r2
                      else Fail
                  | Done _ EmptyString => Fail
                  | Fail => Fail
                  | NoFuel => NoFuel
                  end
                else Fail
            | _ => Fail
            end
          else Fail
      | EmptyString => Fail
      end
  end.

(** [JSON.parse] of a whole message, with the fuel [decode_fuel_enough]
    shows to be enough. *)
Definition decode_json (s : string) : option json :=
  match decode_value (3 * String.length s + 3) s with
  | Done j EmptyString => Some j
  | _ => None
  end.

(** ** The value read back *)

(** The value [JSON.parse] gives back for a value the code builds: every
    number as the pair of its value without trailing zeros. *)
Fixpoint canon (j : json) : json :=
  match j with
  | JNum n => num_json (n, 0%nat)
  | JDec m e => num_json (m, e)
  | JArr l => JArr (map canon l)
  | JObj kvs => JObj (map (λ kv, (kv.1, canon kv.2)) kvs)
  | _ => j
  end.

(** [j] printed and followed by anything that cannot continue a numeral
    decodes back to [canon j]. *)
Definition decodes_back (j : json) : Prop :=
  ∀ rest, rest_ok rest = true → ∃ f, decode_value f (stringify j ++ rest) = Done (canon j) rest.

Definition field_string (kv : string * json) : string := quote kv.1 ++ ":" ++ stringify kv.2.

(** ** The message schemas of the specification (section 6) *)

#[warnings="-register-all"]
Inductive jty :=
| TStr
| TEnum (vals : list string)
| TInt
| TNum
| TNullable (t : jty)
| TObj (fields : list (string * jty)).

(** A value of the schema: an object has the fields of the schema, in
    its order; an [int] is a number without fraction. *)
Fixpoint has_type (j : json) (t : jty) {struct t} : bool :=
  match t, j with
  | TStr, JStr _ => true
  | TEnum vals, JStr s => bool_decide (s ∈ vals)
  | TInt, JNum _ => true
  | TInt, JDec _ 0 => true
  | TNum, JNum _ => true
  | TNum, JDec _ _ => true
  | TNullable _, JNull => true
  | TNullable t', _ => has_type j t'
  | TObj fs, JObj kvs =>
      (fix go (fs : list (string * jty)) (kvs : list (string * json)) : bool :=
         match fs, kvs with
         | [], [] => true
         | (k, t') :: fs', (k', v) :: kvs' => String.eqb k k' && has_type v t' && go fs' kvs'
         | _, _ => false
         end) fs kvs
  | _, _ => false
  end.

Definition sensors_schema : jty :=
  TObj [("temperature", TNum); ("humidity", TNum); ("timestamp", TInt)].

Definition product_update_schema : jty :=
  TObj [("event", TEnum ["product_update"]); ("timestamp", TStr);
        ("product", TObj [
           ("id", TStr); ("name", TStr); ("type", TEnum ["FRESH"; "FROZEN"; "DRY"]);
           ("currentStock", TInt); ("maxStock", TInt); ("reorderLevel", TInt);
           ("price", TNum); ("demandRate", TInt); ("sensors", sensors_schema);
           ("status", TEnum ["OK"; "WARNING"]); ("lastRestock", TNullable TInt)])].

Definition aggregate_schema : jty :=
  TObj [("timestamp", TStr); ("demand", TInt); ("inventory_level", TInt);
        ("reorder_quantity", TInt); ("lead_time_days", TInt); ("stockout", TInt)].

(** ** Layout

    [JSON.parse] skips the whitespace between the tokens of a message
    (RFC 8259, section 2); [strip_ws] erases it and keeps every character
    of a string literal, escapes included.  [in_str] tells whether the
    scan is inside a literal. *)
Definition is_ws (c : ascii) : bool :=
  let n := nat_of_ascii c in bool_decide (n = 32 ∨ n = 10 ∨ n = 9 ∨ n = 13)%nat.

Fixpoint strip_ws (in_str : bool) (s : string) : string :=
  match s with
  | EmptyString => EmptyString
  | String c r =>
      if in_str then
        if Ascii.eqb c "\" then
          match r with
          | String d r' => String c (String d (strip_ws true r'))
          | EmptyString => String c EmptyString
          end
        else String c (strip_ws (negb (Ascii.eqb c dq)) r)
      else if is_ws c then strip_ws false r
      else String c (strip_ws (Ascii.eqb c dq) r)
  end.

(** * Lemmas *)

(** ** Strings and the digits of [Z_to_string] *)

Lemma string_app_nil_r (s : string) : (s ++ EmptyString)%string = s.
Proof. induction s as [|c s IH]; [reflexivity|]. change (String c (s ++ EmptyString) = String c s). by rewrite IH. Qed.

Lemma string_app_assoc (a b c : string) : (a ++ (b ++ c))%string = ((a ++ b) ++ c)%string.
Proof. induction a as [|x a IH]; [reflexivity|]. change (String x (a ++ (b ++ c)) = String x ((a ++ b) ++ c)). by rewrite IH. Qed.

Lemma string_app_cons (c : ascii) (a b : string) :
  (String c a ++ b)%string = String c (a ++ b).
Proof. reflexivity. Qed.

Lemma string_app_nil_l (b : string) : (EmptyString ++ b)%string = b.
Proof. reflexivity. Qed.

Lemma usize_nb_digits d : Unsigned.usize d = N.of_nat (Decimal.nb_digits d).
Proof. induction d; simpl; try rewrite IHd; lia. Qed.

Lemma Z_of_uint_cons (u : Decimal.uint) :
  u ≠ Decimal.Nil →
  Z.of_uint u = Z.of_N (Unsigned.hd u) * 10 ^ Z.of_nat (Decimal.nb_digits (Unsigned.tl u))
                + Z.of_uint (Unsigned.tl u).
Proof.
  intros Hu. unfold Z.of_uint. rewrite !Unsigned.of_uint_alt.
  destruct u; [done| ..]; unfold Decimal.rev; simpl Decimal.revapp;
    rewrite Unsigned.of_lu_revapp; simpl Unsigned.of_lu; simpl Unsigned.hd;
    simpl Unsigned.tl; rewrite usize_nb_digits; fold (Decimal.rev u);
    rewrite N2Z.inj_add, N2Z.inj_mul, N2Z.inj_pow, nat_N_Z; lia.
Qed.

Lemma digits_value_uint u :
  digits_value (NilEmpty.string_of_uint u) = Some (Z.of_uint u, Decimal.nb_digits u).
Proof.
  induction u; [done|..]; simpl; rewrite IHu;
    rewrite (Z_of_uint_cons (_ u)) by discriminate; reflexivity.
Qed.

Lemma Z_of_uint_bound u : 0 <= Z.of_uint u < 10 ^ Z.of_nat (Decimal.nb_digits u).
Proof.
  induction u; [change (0 <= 0 < 1); lia|..];
    rewrite (Z_of_uint_cons (_ u)) by discriminate; simpl Unsigned.hd; simpl Unsigned.tl;
    cbn [Decimal.nb_digits Z.of_N]; rewrite Nat2Z.inj_succ, Z.pow_succ_r by lia; lia.
Qed.

Lemma string_of_uint_length u :
  String.length (NilEmpty.string_of_uint u) = Decimal.nb_digits u.
Proof. induction u; simpl; auto. Qed.

Lemma unorm_fixed_hd d :
  Decimal.unorm d = d → d = Decimal.zero ∨ Unsigned.hd d ≠ 0%N.
Proof.
  destruct d as [|d|d|d|d|d|d|d|d|d|d]; try (right; simpl; lia); [done|].
  unfold Decimal.unorm. cbn [Decimal.nzhead]. intros H.
  destruct (Decimal.nzhead d) eqn:E; simplify_eq; [by left| |done..].
  pose proof (DecimalFacts.nb_digits_nzhead d) as Hle. rewrite E in Hle. simpl in Hle. lia.
Qed.

Lemma Pos_to_uint_unorm p : Decimal.unorm (Pos.to_uint p) = Pos.to_uint p.
Proof. rewrite <- Unsigned.to_of, Unsigned.of_to. reflexivity. Qed.

(** A non-negative integer prints as the digits of a [uint] of its value,
    with a non-zero leading digit unless it is 0. *)
Lemma Z_to_string_uint z :
  0 <= z → ∃ u, Z_to_string z = NilEmpty.string_of_uint u ∧ Z.of_uint u = z ∧
               u ≠ Decimal.Nil ∧ (0 < z → Unsigned.hd u ≠ 0%N).
Proof.
  intros Hz. destruct z as [|p|p]; [|exists (Pos.to_uint p)|lia].
  - exists (Decimal.D0 Decimal.Nil). split_and!; done || lia.
  - pose proof (Unsigned.to_uint_nonnil p) as Hnn.
    split_and!; [| |done|].
    + unfold Z_to_string. simpl. by destruct (Pos.to_uint p).
    + unfold Z.of_uint. by rewrite Unsigned.of_to.
    + intros _. destruct (unorm_fixed_hd _ (Pos_to_uint_unorm p)) as [E|]; [|done].
      by destruct (Unsigned.to_uint_nonzero p).
Qed.

Lemma Z_to_string_digits z :
  0 <= z →
  digits_value (Z_to_string z) = Some (z, String.length (Z_to_string z)) ∧
  (0 < String.length (Z_to_string z))%nat.
Proof.
  intros Hz. destruct (Z_to_string_uint z Hz) as (u & -> & Hv & Hnil & _).
  rewrite digits_value_uint, string_of_uint_length, Hv. split; [done|].
  destruct u; simpl; done || lia.
Qed.

Lemma Z_to_string_length_le z k :
  0 < z < 10 ^ Z.of_nat k → (String.length (Z_to_string z) <= k)%nat.
Proof.
  intros Hz. destruct (Z_to_string_uint z ltac:(lia)) as (u & -> & Hv & Hnil & Hhd).
  specialize (Hhd ltac:(lia)). rewrite string_of_uint_length.
  rewrite (Z_of_uint_cons u Hnil) in Hv.
  pose proof (Z_of_uint_bound (Unsigned.tl u)).
  assert (10 ^ Z.of_nat (Decimal.nb_digits (Unsigned.tl u)) < 10 ^ Z.of_nat k) as Hlt.
  { assert (1 <= Z.of_N (Unsigned.hd u)) by lia. nia. }
  apply Z.pow_lt_mono_r_iff in Hlt; [|lia|lia].
  destruct u; simpl in *; done || lia.
Qed.

(** ** Numerals decode to their value *)

Lemma trim_fraction_spec r e r' e' :
  trim_fraction r e = (r', e') →
  (e' <= e)%nat ∧ r * 10 ^ Z.of_nat e' = r' * 10 ^ Z.of_nat e ∧
  (0 < r < 10 ^ Z.of_nat e → 0 < r' < 10 ^ Z.of_nat e').
Proof.
  revert r. induction e as [|e IH]; intros r Ht; simpl in Ht.
  - simplify_eq. split_and!; [lia | lia | done].
  - case_bool_decide as Hm.
    + destruct (IH _ Ht) as (Hle & Heq & Hb). split_and!; [lia| |].
      * rewrite Nat2Z.inj_succ, Z.pow_succ_r by lia.
        rewrite (Z.div_mod r 10) at 1 by lia. rewrite Hm, Z.add_0_r.
        rewrite <- Z.mul_assoc, Heq. lia.
      * intros Hr. apply Hb. rewrite Nat2Z.inj_succ, Z.pow_succ_r in Hr by lia.
        pose proof (Z.div_mod r 10 ltac:(lia)). split; [|apply Z.div_lt_upper_bound]; lia.
    + simplify_eq. split_and!; [lia | lia | done].
Qed.

Lemma digits_value_app_zeros k s v n :
  digits_value s = Some (v, n) → digits_value (zeros k ++ s) = Some (v, (k + n)%nat).
Proof. intros Hs. induction k as [|k IH]; [done|]. simpl. rewrite IH. do 2 f_equal; try lia. Qed.

Lemma split_dot_uint u t :
  split_dot (NilEmpty.string_of_uint u ++ t) =
    (NilEmpty.string_of_uint u ++ (split_dot t).1, (split_dot t).2).
Proof.
  induction u; [change (split_dot t = ((split_dot t).1, (split_dot t).2)); by destruct (split_dot t)|..];
    simpl; rewrite IHu; by destruct (split_dot t).
Qed.

Lemma all_num_app a b : all_num (a ++ b) = all_num a && all_num b.
Proof. induction a; simpl; [done|]. rewrite IHa. by destruct (is_num_char a). Qed.

Lemma all_num_uint u : all_num (NilEmpty.string_of_uint u) = true.
Proof. induction u; simpl; auto. Qed.

Lemma all_num_zeros k : all_num (zeros k) = true.
Proof. induction k; simpl; auto. Qed.

Lemma Z_to_string_head q t :
  0 <= q → ∃ c b, (Z_to_string q ++ t)%string = String c b ∧ Ascii.eqb c "-"%char = false.
Proof.
  intros Hq. destruct (Z_to_string_uint q Hq) as (u & -> & _ & Hnil & _).
  destruct u; [done|..]; eexists _, _; split; reflexivity.
Qed.

Lemma decode_body_int neg q :
  0 <= q → decode_body neg (Z_to_string q) = Some (if neg then - q else q, 0%nat).
Proof.
  intros Hq. destruct (Z_to_string_digits q Hq) as [Hd Hlen].
  destruct (Z_to_string_uint q Hq) as (u & Hu & _).
  unfold decode_body. rewrite <- (string_app_nil_r (Z_to_string q)), Hu, split_dot_uint.
  simpl. rewrite string_app_nil_r, <- Hu, Hd.
  by destruct (String.length (Z_to_string q)); [lia|].
Qed.

Lemma decode_body_frac neg q f r k :
  0 <= q → digits_value f = Some (r, S k) →
  decode_body neg (Z_to_string q ++ "." ++ f) =
    Some (if neg then - (q * 10 ^ Z.of_nat (S k) + r) else q * 10 ^ Z.of_nat (S k) + r, S k).
Proof.
  intros Hq Hf. destruct (Z_to_string_digits q Hq) as [Hd Hlen].
  destruct (Z_to_string_uint q Hq) as (u & Hu & _).
  unfold decode_body. rewrite Hu, split_dot_uint, string_app_cons, string_app_nil_l.
  simpl. rewrite string_app_nil_r, <- Hu, Hd, Hf.
  by destruct (String.length (Z_to_string q)); [lia|].
Qed.

Lemma decode_number_Z n : decode_number (Z_to_string n) = Some (n, 0%nat).
Proof.
  destruct n as [|p|p].
  - reflexivity.
  - destruct (Z_to_string_head (Z.pos p) EmptyString ltac:(lia)) as (c & b & Hs & Hc).
    rewrite string_app_nil_r in Hs. unfold decode_number. rewrite Hs, Hc, <- Hs.
    by rewrite decode_body_int by lia.
  - change (Z_to_string (Z.neg p)) with (String "-" (Z_to_string (Z.pos p))).
    unfold decode_number. simpl. by rewrite decode_body_int by lia.
Qed.

Lemma digits_value_pad r k :
  0 < r < 10 ^ Z.of_nat k → digits_value (pad_zeros k (Z_to_string r)) = Some (r, k).
Proof.
  intros Hr. pose proof (Z_to_string_length_le r k Hr) as Hle.
  destruct (Z_to_string_digits r ltac:(lia)) as [Hd _].
  unfold pad_zeros. rewrite (digits_value_app_zeros _ _ _ _ Hd). do 2 f_equal. lia.
Qed.

(** The decimal printed for [m / 10^e] decodes to a pair of the same
    value. *)
Lemma decode_decimal m e :
  ∃ m' e', decode_number (decimal_to_string m e) = Some (m', e') ∧
           m' * 10 ^ Z.of_nat e = m * 10 ^ Z.of_nat e'.
Proof.
  unfold decimal_to_string.
  set (a := Z.abs m). set (q := a / 10 ^ Z.of_nat e). set (r := a mod 10 ^ Z.of_nat e).
  assert (0 < 10 ^ Z.of_nat e) as Hp by (apply Z.pow_pos_nonneg; lia).
  assert (a = 10 ^ Z.of_nat e * q + r) as Ha by (apply Z.div_mod; lia).
  assert (0 <= r < 10 ^ Z.of_nat e) as Hr by (apply Z.mod_pos_bound; lia).
  assert (0 <= q) as Hq by (apply Z.div_pos; lia).
  case_bool_decide as Hr0; [case_bool_decide as Hq0|].
  - exists 0, 0%nat. split; [reflexivity|]. lia.
  - case_bool_decide as Hm.
    + exists (- q), 0%nat. rewrite string_app_cons, string_app_nil_l.
      unfold decode_number. simpl. rewrite decode_body_int by done. split; [done|]. lia.
    + exists q, 0%nat. rewrite string_app_nil_l, decode_number_Z. split; [done|]. lia.
  - destruct (trim_fraction r e) as [r' e'] eqn:Et.
    destruct (trim_fraction_spec _ _ _ _ Et) as (Hle & Heq & Hb). specialize (Hb ltac:(lia)).
    destruct e' as [|k]; [simpl in Hb; lia|].
    pose proof (digits_value_pad r' (S k) Hb) as Hf.
    case_bool_decide as Hm.
    + exists (- (q * 10 ^ Z.of_nat (S k) + r')), (S k).
      rewrite string_app_cons, string_app_nil_l. unfold decode_number. simpl.
      rewrite (decode_body_frac true q _ r' k Hq Hf). split; [done|]. nia.
    + exists (q * 10 ^ Z.of_nat (S k) + r'), (S k). rewrite string_app_nil_l.
      destruct (Z_to_string_head q ("." ++ pad_zeros (S k) (Z_to_string r')) Hq)
        as (c & b & Hs & Hc).
      unfold decode_number. rewrite Hs, Hc, <- Hs.
      rewrite (decode_body_frac false q _ r' k Hq Hf). split; [done|]. nia.
Qed.

(** ** Normal forms of a number *)

Lemma trim_fraction_normal m e : dec_normal (trim_fraction m e).1 (trim_fraction m e).2.
Proof.
  revert m. induction e as [|e IH]; intros m; simpl; [by left|].
  case_bool_decide; [apply IH | by right].
Qed.

Lemma dec_normal_unique_le a1 b1 a2 b2 :
  (b1 <= b2)%nat → dec_normal a1 b1 → dec_normal a2 b2 →
  a1 * 10 ^ Z.of_nat b2 = a2 * 10 ^ Z.of_nat b1 → a1 = a2 ∧ b1 = b2.
Proof.
  intros Hle N1 N2 Heq. destruct (Nat.le_exists_sub b1 b2 Hle) as (d & -> & _).
  rewrite Nat2Z.inj_add, Z.pow_add_r, Z.mul_assoc in Heq by lia.
  apply Z.mul_reg_r in Heq; [|apply Z.pow_nonzero; lia].
  destruct d as [|d]; [simpl in Heq; split; lia|].
  destruct N2 as [N2|N2]; [lia|]. exfalso. apply N2.
  rewrite <- Heq, Nat2Z.inj_succ, Z.pow_succ_r by lia.
  apply Z.mod_divide; [lia|]. exists (a1 * 10 ^ Z.of_nat d). ring.
Qed.

Lemma dec_normal_unique a1 b1 a2 b2 :
  dec_normal a1 b1 → dec_normal a2 b2 →
  a1 * 10 ^ Z.of_nat b2 = a2 * 10 ^ Z.of_nat b1 → a1 = a2 ∧ b1 = b2.
Proof.
  intros N1 N2 Heq. destruct (Nat.le_ge_cases b1 b2).
  - by apply dec_normal_unique_le.
  - destruct (dec_normal_unique_le a2 b2 a1 b1); auto.
Qed.

(** Two pairs of the same value trim to the same pair. *)
Lemma trim_fraction_value m e m' e' :
  m * 10 ^ Z.of_nat e' = m' * 10 ^ Z.of_nat e → trim_fraction m e = trim_fraction m' e'.
Proof.
  intros Hv.
  destruct (trim_fraction m e) as [a1 b1] eqn:E1, (trim_fraction m' e') as [a2 b2] eqn:E2.
  pose proof (trim_fraction_normal m e) as N1. pose proof (trim_fraction_normal m' e') as N2.
  rewrite E1 in N1. rewrite E2 in N2. simpl in N1, N2.
  destruct (trim_fraction_spec _ _ _ _ E1) as (_ & H1 & _).
  destruct (trim_fraction_spec _ _ _ _ E2) as (_ & H2 & _).
  destruct (dec_normal_unique a1 b1 a2 b2 N1 N2) as [-> ->]; [|done].
  set (P := 10 ^ Z.of_nat e * 10 ^ Z.of_nat e').
  assert (P ≠ 0) by (apply Z.neq_mul_0; split; apply Z.pow_nonzero; lia).
  apply (Z.mul_reg_r _ _ P); [done|]. unfold P.
  transitivity (a1 * 10 ^ Z.of_nat e * 10 ^ Z.of_nat b2 * 10 ^ Z.of_nat e'); [ring|].
  rewrite <- H1.
  transitivity (m * 10 ^ Z.of_nat e' * 10 ^ Z.of_nat b1 * 10 ^ Z.of_nat b2); [ring|].
  rewrite Hv.
  transitivity (m' * 10 ^ Z.of_nat b2 * 10 ^ Z.of_nat b1 * 10 ^ Z.of_nat e); [ring|].
  rewrite H2. ring.
Qed.

Lemma decode_number_decimal m e :
  option_map num_json (decode_number (decimal_to_string m e)) = Some (num_json (m, e)).
Proof.
  destruct (decode_decimal m e) as (m' & e' & -> & Hv). simpl.
  unfold num_json. simpl. by rewrite (trim_fraction_value m' e' m e Hv).
Qed.

Lemma decode_number_integer n :
  option_map num_json (decode_number (Z_to_string n)) = Some (num_json (n, 0%nat)).
Proof. by rewrite decode_number_Z. Qed.

(** ** Scanning a numeral *)

Lemma all_num_Z n : all_num (Z_to_string n) = true.
Proof.
  destruct n as [|p|p]; [reflexivity| |].
  - destruct (Z_to_string_uint (Z.pos p) ltac:(lia)) as (u & -> & _). apply all_num_uint.
  - change (Z_to_string (Z.neg p)) with (String "-" (Z_to_string (Z.pos p))).
    destruct (Z_to_string_uint (Z.pos p) ltac:(lia)) as (u & -> & _). simpl.
    apply all_num_uint.
Qed.

Lemma all_num_decimal m e : all_num (decimal_to_string m e) = true.
Proof.
  unfold decimal_to_string.
  repeat case_bool_decide; try reflexivity;
    try destruct (trim_fraction _ _); unfold pad_zeros;
    rewrite ?all_num_app, ?all_num_Z, ?all_num_zeros; reflexivity.
Qed.

Lemma scan_number_app t r :
  all_num t = true → rest_ok r = true → scan_number (t ++ r) = (t, r).
Proof.
  induction t as [|c t IH]; intros Ht Hr.
  - destruct r as [|c r]; [done|]. simpl in *. by destruct (is_num_char c).
  - rewrite string_app_cons. simpl in *. apply andb_prop in Ht as [-> Ht].
    by rewrite IH.
Qed.

(** ** String literals *)

Lemma decode_chars_escape_char (c : ascii) (rest : string) :
  decode_chars (escape_char c ++ rest) =
    match decode_chars rest with Some (t, r) => Some (String c t, r) | None => None end.
Proof. destruct c as [[] [] [] [] [] [] [] []]; reflexivity. Qed.

Lemma decode_chars_escape_string (s rest : string) :
  decode_chars (escape_string s ++ dquote ++ rest) = Some (s, rest).
Proof.
  induction s as [|c s IH]; [reflexivity|].
  change (escape_string (String c s)) with (escape_char c ++ escape_string s)%string.
  by rewrite <- string_app_assoc, decode_chars_escape_char, IH.
Qed.

(** ** Every step consumes input *)

Lemma decode_chars_length r x r' :
  decode_chars r = Some (x, r') → (String.length r' < String.length r)%nat.
Proof.
  enough (∀ n r x r', (String.length r <= n)%nat → decode_chars r = Some (x, r') →
            (String.length r' < String.length r)%nat) by eauto.
  clear. intros n. induction n as [|n IH]; intros [|c s] x r' Hn H;
    simpl in Hn, H |- *; try done; [lia|].
  repeat case_bool_decide; simplify_eq; [lia| |].
  - destruct s as [|d s]; [done|]. destruct (Ascii.eqb d "u").
    + destruct s as [|a [|b [|c1 [|c2 rest]]]]; try done. simpl in Hn |- *.
      repeat case_match; simplify_eq.
      pose proof (IH rest _ _ ltac:(lia) ltac:(eassumption)). lia.
    + repeat case_match; simplify_eq.
      pose proof (IH s _ _ ltac:(simpl in Hn; lia) ltac:(eassumption)). simpl. lia.
  - destruct (decode_chars s) as [[t0 r0]|] eqn:Hd; simplify_eq.
    pose proof (IH s _ _ ltac:(lia) Hd). lia.
Qed.

Lemma scan_number_length s : (String.length (scan_number s).2 <= String.length s)%nat.
Proof.
  induction s as [|c s IH]; [done|]. simpl.
  destruct (is_num_char c); [|done]. destruct (scan_number s). simpl in *. lia.
Qed.

Lemma strip_prefix_length p s r :
  strip_prefix p s = Some r → (String.length r + String.length p = String.length s)%nat.
Proof.
  revert s. induction p as [|c p IH]; intros [|d s] H; simpl in H; simplify_eq; simpl; try lia.
  destruct (Ascii.eqb c d); [|done]. apply IH in H. lia.
Qed.

Lemma dmap_Done {A B} (g : A → B) d b r :
  dmap g d = Done b r → ∃ a, d = Done a r ∧ b = g a.
Proof. destruct d; simpl; intros; simplify_eq; eauto. Qed.

Lemma dmap_NoFuel {A B} (g : A → B) d : dmap g d = NoFuel ↔ d = NoFuel.
Proof. by destruct d. Qed.

(** Unfolds one decoder call and splits on its tests. *)
Ltac decode_cases H :=
  cbn [decode_value decode_elems decode_items decode_members decode_fields] in H;
  repeat (case_match; simplify_eq/=);
  repeat match goal with
    | H' : dmap _ _ = Done _ _ |- _ => apply dmap_Done in H' as (? & H' & ->)
    end.

(** Every successful call consumes at least one character. *)
Lemma decode_consumes f :
  (∀ s v r, decode_value f s = Done v r → (String.length r < String.length s)%nat) ∧
  (∀ s l r, decode_elems f s = Done l r → (String.length r < String.length s)%nat) ∧
  (∀ s l r, decode_items f s = Done l r → (String.length r < String.length s)%nat) ∧
  (∀ s l r, decode_members f s = Done l r → (String.length r < String.length s)%nat) ∧
  (∀ s l r, decode_fields f s = Done l r → (String.length r < String.length s)%nat).
Proof.
  induction f as [|f (IHv & IHe & IHi & IHm & IHf)]; [by split_and!|].
  split_and!; intros s x r H; decode_cases H.
  all: try match goal with H : strip_prefix _ _ = Some _ |- _ => apply strip_prefix_length in H end.
  all: try match goal with H : decode_chars _ = Some _ |- _ => apply decode_chars_length in H end.
  all: try match goal with H : decode_value _ _ = Done _ _ |- _ => apply IHv in H end.
  all: try match goal with H : decode_elems _ _ = Done _ _ |- _ => apply IHe in H end.
  all: try match goal with H : decode_items _ _ = Done _ _ |- _ => apply IHi in H end.
  all: try match goal with H : decode_members _ _ = Done _ _ |- _ => apply IHm in H end.
  all: try match goal with H : decode_fields _ _ = Done _ _ |- _ => apply IHf in H end.
  all: try match goal with H : scan_number ?t = _ |- _ =>
              pose proof (scan_number_length t) as Hl; rewrite H in Hl end.
  all: simpl in *; lia.
Qed.

(** ** Termination: fuel three times the input length is enough *)

Lemma decode_fuel_enough f :
  (∀ s, (3 * String.length s + 1 <= f)%nat → decode_value f s ≠ NoFuel) ∧
  (∀ s, (3 * String.length s + 3 <= f)%nat → decode_elems f s ≠ NoFuel) ∧
  (∀ s, (3 * String.length s + 2 <= f)%nat → decode_items f s ≠ NoFuel) ∧
  (∀ s, (3 * String.length s + 3 <= f)%nat → decode_members f s ≠ NoFuel) ∧
  (∀ s, (3 * String.length s + 2 <= f)%nat → decode_fields f s ≠ NoFuel).
Proof.
  induction f as [|f (IHv & IHe & IHi & IHm & IHf)]; [split_and!; intros; lia|].
  destruct (decode_consumes f) as (Cv & _ & _ & _ & _).
  split_and!; intros s Hs;
    cbn [decode_value decode_elems decode_items decode_members decode_fields];
    repeat (case_match; simplify_eq/=); rewrite ?dmap_NoFuel; try done.
  all: try match goal with H : decode_value _ _ = Done _ _ |- _ => apply Cv in H end.
  all: try match goal with H : decode_chars _ = Some _ |- _ => apply decode_chars_length in H end.
  all: try match goal with
    | H : decode_value _ ?t = NoFuel |- _ => exfalso; apply (IHv t); [|exact H]
    end.
  all: first [apply IHv | apply IHe | apply IHi | apply IHm | apply IHf | idtac].
  all: simpl in *; lia.
Qed.

(** ** More fuel never changes an outcome *)

Ltac mono_call H IH dec f f' t :=
  let E := fresh "E" in
  destruct (dec f t) eqn:E; rewrite ?E in H; cbn beta iota in H; try congruence;
  rewrite (IH f' t) by (lia || (rewrite E; done)); rewrite E.

Lemma decode_fuel_mono f :
  (∀ f' s, (f <= f')%nat → decode_value f s ≠ NoFuel → decode_value f' s = decode_value f s) ∧
  (∀ f' s, (f <= f')%nat → decode_elems f s ≠ NoFuel → decode_elems f' s = decode_elems f s) ∧
  (∀ f' s, (f <= f')%nat → decode_items f s ≠ NoFuel → decode_items f' s = decode_items f s) ∧
  (∀ f' s, (f <= f')%nat → decode_members f s ≠ NoFuel →
     decode_members f' s = decode_members f s) ∧
  (∀ f' s, (f <= f')%nat → decode_fields f s ≠ NoFuel → decode_fields f' s = decode_fields f s).
Proof.
  induction f as [|f (IHv & IHe & IHi & IHm & IHf)]; [done|].
  split_and!; intros [|f'] s Hf H; try lia;
    cbn [decode_value decode_elems decode_items decode_members decode_fields] in H |- *.
  all: repeat (try done; first
    [ match goal with
      | Hf : (S ?f <= S ?f')%nat |- context [decode_value ?f' ?t] =>
          mono_call H IHv decode_value f f' t
      | Hf : (S ?f <= S ?f')%nat |- context [decode_elems ?f' ?t] =>
          mono_call H IHe decode_elems f f' t
      | Hf : (S ?f <= S ?f')%nat |- context [decode_items ?f' ?t] =>
          mono_call H IHi decode_items f f' t
      | Hf : (S ?f <= S ?f')%nat |- context [decode_members ?f' ?t] =>
          mono_call H IHm decode_members f f' t
      | Hf : (S ?f <= S ?f')%nat |- context [decode_fields ?f' ?t] =>
          mono_call H IHf decode_fields f f' t
      end
    | case_match ]).
Qed.

Lemma decode_value_more f f' s v r :
  (f <= f')%nat → decode_value f s = Done v r → decode_value f' s = Done v r.
Proof. intros Hle H. rewrite <- H. apply (decode_fuel_mono f); [done|by rewrite H]. Qed.

Lemma decode_items_more f f' s l r :
  (f <= f')%nat → decode_items f s = Done l r → decode_items f' s = Done l r.
Proof. intros Hle H. rewrite <- H. apply (decode_fuel_mono f); [done|by rewrite H]. Qed.

Lemma decode_fields_more f f' s l r :
  (f <= f')%nat → decode_fields f s = Done l r → decode_fields f' s = Done l r.
Proof. intros Hle H. rewrite <- H. apply (decode_fuel_mono f); [done|by rewrite H]. Qed.

(** [decode_json] accepts exactly the inputs some fuel decodes to the end:
    the fuel it gives is never the reason of a failure. *)
Lemma decode_json_spec s j :
  decode_json s = Some j ↔ ∃ f, decode_value f s = Done j EmptyString.
Proof.
  unfold decode_json. split.
  - case_match; try done. case_match; try done. intros [= <-]. eauto.
  - intros [f Hf]. set (F := (3 * String.length s + 3)%nat).
    destruct (Nat.le_ge_cases f F) as [Hle|Hle].
    + by rewrite (decode_value_more _ _ _ _ _ Hle Hf).
    + pose proof (proj1 (decode_fuel_enough F) s ltac:(lia)) as Hn.
      rewrite <- (proj1 (decode_fuel_mono F) f s Hle Hn), Hf. done.
Qed.

(** ** Decoding what [JSON.stringify] prints *)

Lemma num_char_tests c :
  is_num_char c = true →
  Ascii.eqb c "n" = false ∧ Ascii.eqb c "t" = false ∧ Ascii.eqb c "f" = false ∧
  Ascii.eqb c "[" = false ∧ Ascii.eqb c "{" = false ∧ Ascii.eqb c dq = false.
Proof. intros Hc. split_and!; apply Ascii.eqb_neq; intros ->; vm_compute in Hc; done. Qed.

(** A numeral followed by a character that cannot continue it. *)
Lemma decode_value_numeral f t rest :
  all_num t = true → rest_ok rest = true → t ≠ EmptyString →
  decode_value (S f) (t ++ rest) =
    match decode_number t with Some p => Done (num_json p) rest | None => Fail end.
Proof.
  intros Ht Hr Hne. destruct t as [|c b]; [done|].
  pose proof Ht as Ht'. simpl in Ht'. apply andb_prop in Ht' as [Hc _].
  destruct (num_char_tests c Hc) as (H1 & H2 & H3 & H4 & H5 & H6).
  rewrite string_app_cons. cbn [decode_value]. rewrite H1, H2, H3, H4, H5, H6, Hc.
  rewrite <- string_app_cons, scan_number_app by done. done.
Qed.

Lemma app_ne_r (a b : string) : b ≠ EmptyString → (a ++ b)%string ≠ EmptyString.
Proof. by destruct a. Qed.

Lemma Z_to_string_ne n : Z_to_string n ≠ EmptyString.
Proof.
  destruct n as [|p|p]; [done| |done].
  destruct (Z_to_string_head (Z.pos p) EmptyString ltac:(lia)) as (c & b & Hs & _).
  rewrite string_app_nil_r in Hs. by rewrite Hs.
Qed.

Lemma decimal_to_string_ne m e : decimal_to_string m e ≠ EmptyString.
Proof.
  unfold decimal_to_string. repeat case_match; try done;
    repeat apply app_ne_r; try apply Z_to_string_ne; by destruct (Z_to_string _).
Qed.

Lemma quote_app s t : (quote s ++ t)%string = String dq (escape_string s ++ dquote ++ t).
Proof. unfold quote. by rewrite <- !string_app_assoc. Qed.

Lemma stringify_head j : ∃ c b, stringify j = String c b ∧ Ascii.eqb c "]" = false.
Proof.
  assert (∀ t, all_num t = true → t ≠ EmptyString →
            ∃ c b, t = String c b ∧ Ascii.eqb c "]" = false) as Hnum.
  { intros [|c b] Ht Hne; [done|]. simpl in Ht. apply andb_prop in Ht as [Hc _].
    exists c, b. split; [done|]. apply Ascii.eqb_neq. intros ->. by vm_compute in Hc. }
  destruct j as [|[]|n|m e|s|l|kvs]; try by eexists _, _.
  - apply Hnum; [apply all_num_Z|apply Z_to_string_ne].
  - apply Hnum; [apply all_num_decimal|apply decimal_to_string_ne].
Qed.

Lemma decode_items_stringify l rest :
  Forall decodes_back l → l ≠ [] →
  ∃ f, decode_items f (String.concat "," (map stringify l) ++ String "]" rest) =
       Done (map canon l) rest.
Proof.
  induction 1 as [|x xs Hx HF IH]; [done|]. intros _. destruct xs as [|y ys].
  - destruct (Hx (String "]" rest) eq_refl) as [f Hf]. exists (S f).
    cbn [decode_items map String.concat]. by rewrite Hf.
  - destruct IH as [fl Hl]; [done|].
    change (String.concat "," (map stringify (x :: y :: ys)))
      with (stringify x ++ String "," (String.concat "," (map stringify (y :: ys))))%string.
    rewrite <- string_app_assoc, string_app_cons.
    set (R := String.concat "," (map stringify (y :: ys))) in *. clearbody R.
    destruct (Hx (String "," (R ++ String "]" rest)) eq_refl) as [fx Hf].
    exists (S (fx `max` fl)). cbn [decode_items].
    rewrite (decode_value_more fx (fx `max` fl) _ _ _ ltac:(lia) Hf). cbn.
    by rewrite (decode_items_more fl (fx `max` fl) _ _ _ ltac:(lia) Hl).
Qed.

Lemma decode_fields_stringify kvs rest :
  Forall (λ kv, decodes_back kv.2) kvs → kvs ≠ [] →
  ∃ f, decode_fields f (String.concat "," (map field_string kvs) ++ String "}" rest) =
       Done (map (λ kv, (kv.1, canon kv.2)) kvs) rest.
Proof.
  induction 1 as [|[k v] xs Hx HF IH]; [done|]. intros _. destruct xs as [|y ys].
  - destruct (Hx (String "}" rest) eq_refl) as [f Hf]. simpl in Hf. exists (S f).
    cbn [map String.concat]. unfold field_string. simpl fst; simpl snd.
    rewrite <- !string_app_assoc, quote_app. cbn [decode_fields].
    rewrite decode_chars_escape_string, Ascii.eqb_refl, string_app_cons, string_app_nil_l.
    simpl. by rewrite Hf.
  - destruct IH as [fl Hl]; [done|].
    change (String.concat "," (map field_string ((k, v) :: y :: ys)))
      with (field_string (k, v) ++ String "," (String.concat "," (map field_string (y :: ys))))%string.
    unfold field_string at 1. simpl fst; simpl snd.
    rewrite <- !string_app_assoc, quote_app, string_app_cons.
    set (R := String.concat "," (map field_string (y :: ys))) in *. clearbody R.
    destruct (Hx (String "," (R ++ String "}" rest)) eq_refl) as [fx Hf]. simpl in Hf.
    exists (S (fx `max` fl)). cbn [decode_fields].
    rewrite decode_chars_escape_string, Ascii.eqb_refl, string_app_cons, string_app_nil_l.
    simpl. rewrite (decode_value_more fx (fx `max` fl) _ _ _ ltac:(lia) Hf). cbn.
    by rewrite (decode_fields_more fl (fx `max` fl) _ _ _ ltac:(lia) Hl).
Qed.

Lemma decode_value_arr f r : decode_value (S f) (String "[" r) = dmap JArr (decode_elems f r).
Proof. reflexivity. Qed.

Lemma decode_value_obj f r : decode_value (S f) (String "{" r) = dmap JObj (decode_members f r).
Proof. reflexivity. Qed.

Lemma decode_elems_items f c r :
  Ascii.eqb c "]" = false → decode_elems (S f) (String c r) = decode_items f (String c r).
Proof. intros Hc. cbn [decode_elems]. by rewrite Hc. Qed.

Lemma decode_members_fields f c r :
  Ascii.eqb c "}" = false → decode_members (S f) (String c r) = decode_fields f (String c r).
Proof. intros Hc. cbn [decode_members]. by rewrite Hc. Qed.

Lemma concat_head {A} (g : A → string) x xs :
  ∃ t, String.concat "," (map g (x :: xs)) = (g x ++ t)%string.
Proof.
  destruct xs; cbn [map String.concat]; [exists EmptyString; by rewrite string_app_nil_r|].
  by eexists.
Qed.

(** Appends associated to the right, literal characters made constructors. *)
Ltac str_norm :=
  repeat first [ rewrite <- string_app_assoc in * | rewrite string_app_cons in *
               | rewrite string_app_nil_l in * ].

Lemma decode_stringify j : decodes_back j.
Proof.
  induction j as [|b|n|m e|s|l Hl|kvs Hkvs] using json_ind'; intros rest Hr.
  - by exists 1%nat.
  - exists 1%nat. by destruct b.
  - exists 1%nat. simpl stringify.
    rewrite decode_value_numeral by auto using all_num_Z, Z_to_string_ne.
    by rewrite decode_number_Z.
  - exists 1%nat. simpl stringify.
    rewrite decode_value_numeral by auto using all_num_decimal, decimal_to_string_ne.
    pose proof (decode_number_decimal m e) as Hd.
    change (canon (JDec m e)) with (num_json (m, e)).
    destruct (decode_number (decimal_to_string m e)); cbn [option_map] in Hd; congruence.
  - exists 1%nat. simpl stringify. rewrite quote_app. simpl.
    by rewrite decode_chars_escape_string.
  - destruct l as [|x xs]; [by exists 2%nat|].
    destruct (decode_items_stringify (x :: xs) rest Hl) as [f Hf]; [done|].
    destruct (stringify_head x) as (c & b & Hc & Hcb).
    destruct (concat_head stringify x xs) as [t Ht].
    exists (S (S f)).
    change (stringify (JArr (x :: xs)))
      with ("[" ++ String.concat "," (map stringify (x :: xs)) ++ "]")%string.
    rewrite <- !string_app_assoc.
    change ("]" ++ rest)%string with (String "]" rest) in *.
    rewrite Ht, Hc in Hf |- *. str_norm.
    by rewrite decode_value_arr, decode_elems_items, Hf.
  - destruct kvs as [|[k v] kvs]; [by exists 2%nat|].
    destruct (decode_fields_stringify ((k, v) :: kvs) rest Hkvs) as [f Hf]; [done|].
    destruct (concat_head field_string (k, v) kvs) as [t Ht].
    exists (S (S f)).
    change (stringify (JObj ((k, v) :: kvs)))
      with ("{" ++ String.concat "," (map field_string ((k, v) :: kvs)) ++ "}")%string.
    rewrite <- !string_app_assoc.
    change ("}" ++ rest)%string with (String "}" rest) in *.
    rewrite Ht in Hf |- *. unfold field_string at 1 in Hf. unfold field_string at 1.
    simpl fst in *; simpl snd in *. rewrite <- !string_app_assoc, quote_app in Hf |- *.
    str_norm. by rewrite decode_value_obj, decode_members_fields, Hf.
Qed.

(** [JSON.parse] of a message [JSON.stringify] printed gives the value
    back, every number as its value. *)
Lemma decode_json_stringify j : decode_json (stringify j) = Some (canon j).
Proof.
  apply decode_json_spec. destruct (decode_stringify j EmptyString eq_refl) as [f Hf].
  rewrite string_app_nil_r in Hf. eauto.
Qed.

(** ** The payloads of a tick have the schema *)

Lemma has_type_event e :
  e.(ev_event) = "product_update" → e.(ev_product).(pl_status) ∈ ["OK"; "WARNING"] →
  has_type (canon (product_event_json e)) product_update_schema = true.
Proof.
  intros He Hs. destruct e as [ev ts [id nm ty cs ms rl pr dr [tp hm st] sts lr]].
  simpl in *. subst ev. unfold num_json. cbn.
  rewrite (bool_decide_eq_true_2 (sts ∈ _)) by done.
  by destruct ty, lr.
Qed.

Lemma has_type_aggregate agg : has_type (canon (aggregate_json agg)) aggregate_schema = true.
Proof. reflexivity. Qed.

Lemma status_of_values ideal t : status_of ideal t ∈ ["OK"; "WARNING"].
Proof. unfold status_of. case_bool_decide; [right; left|left]. Qed.

Section Status.
Context {W : Type} `{Runtime W}.

(** The products a tick produces carry a status of the schema. *)
Lemma runSimulationTick_status (params : SimulationParams) (prev : list Product) :
  Forall (λ p, 0 <= p.(demandRate)) prev →
  wp (runSimulationTick params prev) (λ o,
      Forall (λ e, e.(ev_event) = "product_update" ∧
                   e.(ev_product).(pl_status) ∈ ["OK"; "WARNING"]) o.(tick_events)).
Proof.
  intros Hd. eapply wp_mono.
  { apply wp_and; [apply runSimulationTick_prev_next, Hd|apply runSimulationTick_events]. }
  intros o [(solds & pqs & H3 & _ & Hnext) Hev]. rewrite Hnext in Hev.
  assert (Forall (λ q, q.(status) ∈ ["OK"; "WARNING"]) (map snd pqs)) as Hst.
  { apply Forall_map. eapply Forall3_Forall_r; [exact H3|].
    intros p sold pq [Hstep _]. rewrite (step_status _ _ _ Hstep). apply status_of_values. }
  eapply Forall2_Forall_lr; [exact Hev|exact Hst|]. by intros q e [ts ->].
Qed.

End Status.


(** ** Layout *)

Lemma strip_escape_char (c : ascii) (rest : string) :
  strip_ws true (escape_char c ++ rest) = (escape_char c ++ strip_ws true rest)%string.
Proof. destruct c as [[] [] [] [] [] [] [] []]; reflexivity. Qed.

Lemma strip_quote (s rest : string) :
  strip_ws false (quote s ++ rest) = (quote s ++ strip_ws false rest)%string.
Proof.
  rewrite !quote_app. cbn [strip_ws]. rewrite Ascii.eqb_refl. f_equal.
  induction s as [|c s IH]; [reflexivity|].
  change (escape_string (String c s)) with (escape_char c ++ escape_string s)%string.
  by rewrite <- !string_app_assoc, strip_escape_char, IH.
Qed.

Lemma num_char_not_ws c : is_num_char c = true → is_ws c = false.
Proof.
  unfold is_num_char, is_ws. intros Hc. apply bool_decide_eq_true in Hc.
  apply bool_decide_eq_false. lia.
Qed.

Lemma strip_numeral t rest :
  all_num t = true → strip_ws false (t ++ rest) = (t ++ strip_ws false rest)%string.
Proof.
  induction t as [|c t IH]; intros Ht; [done|]. simpl in Ht. apply andb_prop in Ht as [Hc Ht].
  destruct (num_char_tests c Hc) as (_ & _ & _ & _ & _ & Hq).
  rewrite !string_app_cons. cbn [strip_ws]. by rewrite num_char_not_ws, Hq, IH.
Qed.

(** An indentation is transparent to [strip_ws]. *)
Definition blank (ind : string) : Prop := ∀ r, strip_ws false (ind ++ r) = strip_ws false r.

Lemma blank_gap ind : blank ind → blank (ind ++ "  ").
Proof. intros Hb r. rewrite <- string_app_assoc. by rewrite Hb. Qed.

Lemma strip_concat {A} (f g : A → string) (sep : string) (l : list A) (rest : string) :
  (∀ r, strip_ws false (sep ++ r) = String "," (strip_ws false r)) →
  Forall (λ x, ∀ r, strip_ws false (f x ++ r) = (g x ++ strip_ws false r)%string) l →
  strip_ws false (String.concat sep (map f l) ++ rest) =
    (String.concat "," (map g l) ++ strip_ws false rest)%string.
Proof.
  intros Hsep. induction 1 as [|x xs Hx HF IH]; [done|]. destruct xs as [|y ys].
  - cbn [map String.concat]. apply Hx.
  - change (String.concat sep (map f (x :: y :: ys)))
      with (f x ++ sep ++ String.concat sep (map f (y :: ys)))%string.
    change (String.concat "," (map g (x :: y :: ys)))
      with (g x ++ "," ++ String.concat "," (map g (y :: ys)))%string.
    rewrite <- !string_app_assoc, Hx, Hsep, IH. reflexivity.
Qed.

(** The brackets of an indented array or object, around its members. *)
Lemma strip_concat_in {A} (f g : A → string) (l : list A) (o c : ascii) (ind ind' rest : string) :
  blank ind → blank ind' → Ascii.eqb o dq = false → Ascii.eqb c dq = false →
  is_ws o = false → is_ws c = false →
  Forall (λ x, ∀ r, strip_ws false (f x ++ r) = (g x ++ strip_ws false r)%string) l →
  strip_ws false
    ((String o EmptyString ++ newline ++ ind' ++
      String.concat ("," ++ newline ++ ind') (map f l) ++ newline ++ ind ++
      String c EmptyString) ++ rest) =
  ((String o EmptyString ++ String.concat "," (map g l) ++ String c EmptyString) ++
   strip_ws false rest)%string.
Proof.
  intros Hb Hb' Ho Hc Hwo Hwc HF. unfold newline. rewrite <- !string_app_assoc.
  rewrite !string_app_cons, !string_app_nil_l. cbn [strip_ws]. rewrite Hwo, Ho.
  cbn [strip_ws]. rewrite Hb'.
  rewrite (strip_concat f g); [|intros r; rewrite !string_app_cons, ?string_app_nil_l; cbn [strip_ws];
                          by rewrite Hb'|done].
  rewrite ?string_app_cons, ?string_app_nil_l. cbn [strip_ws]. rewrite Hb. cbn [strip_ws].
  by rewrite Hwc, Hc.
Qed.

(** The indented layout of a value, stripped, is its compact layout. *)
Lemma strip_pretty j :
  ∀ ind rest, blank ind →
  strip_ws false (stringify_pretty ind j ++ rest) = (stringify j ++ strip_ws false rest)%string.
Proof.
  induction j as [|b|n|m e|s|l Hl|kvs Hkvs] using json_ind'; intros ind rest Hb.
  - reflexivity.
  - by destruct b.
  - apply strip_numeral, all_num_Z.
  - apply strip_numeral, all_num_decimal.
  - apply strip_quote.
  - destruct l as [|x xs]; [reflexivity|].
    change (stringify_pretty ind (JArr (x :: xs))) with
      ("[" ++ newline ++ (ind ++ "  ") ++
       String.concat ("," ++ newline ++ (ind ++ "  ")) (map (stringify_pretty (ind ++ "  ")) (x :: xs)) ++
       newline ++ ind ++ "]")%string.
    change (stringify (JArr (x :: xs))) with
      ("[" ++ String.concat "," (map stringify (x :: xs)) ++ "]")%string.
    pose proof (blank_gap ind Hb) as Hb'.
    set (ind' := (ind ++ "  ")%string) in *. clearbody ind'.
    rewrite (strip_concat_in _ stringify); try done.
    revert Hl. apply Forall_impl. intros j Hj r. by apply Hj.
  - destruct kvs as [|kv kvs]; [reflexivity|].
    change (stringify_pretty ind (JObj (kv :: kvs))) with
      ("{" ++ newline ++ (ind ++ "  ") ++
       String.concat ("," ++ newline ++ (ind ++ "  "))
         (map (λ kv, quote kv.1 ++ ": " ++ stringify_pretty (ind ++ "  ") kv.2) (kv :: kvs)) ++
       newline ++ ind ++ "}")%string.
    change (stringify (JObj (kv :: kvs))) with
      ("{" ++ String.concat "," (map field_string (kv :: kvs)) ++ "}")%string.
    pose proof (blank_gap ind Hb) as Hb'.
    set (ind' := (ind ++ "  ")%string) in *. clearbody ind'.
    rewrite (strip_concat_in _ field_string); try done.
    revert Hkvs. apply Forall_impl. intros [k v] Hv r. cbn [fst snd] in *.
    unfold field_string. cbn [fst snd].
    rewrite <- !string_app_assoc, strip_quote. f_equal.
    rewrite !string_app_cons, ?string_app_nil_l. simpl. by rewrite Hv.
Qed.

(** * Properties *)

Section Messages.
Context {W : Type} `{Runtime W}.

(** C37. Schema of the published messages: for products whose demand
    rates are not negative, every [product_update] event and the
    aggregate a tick publishes read back (by [JSON.parse]) as values of
    the message schemas of the specification (section 6): the fields in
    their order, integers where it says [int], the status ['OK'] or
    ['WARNING'], the type one of the three categories, [lastRestock] a
    number or [null]. *)
Theorem tick_messages_typed (params : SimulationParams) (prev : list Product) :
  Forall (λ p, 0 <= p.(demandRate)) prev →
  wp (runSimulationTick params prev) (λ o,
    Forall (λ e, ∃ j, decode_json (stringify (product_event_json e)) = Some j ∧
                      has_type j product_update_schema = true) o.(tick_events) ∧
    ∃ j, decode_json (stringify (aggregate_json o.(tick_agg))) = Some j ∧
         has_type j aggregate_schema = true).
Proof.
  intros Hd. eapply wp_mono; [apply runSimulationTick_status, Hd|]. intros o Hev. split.
  - revert Hev. apply Forall_impl. intros e [He Hs].
    eexists; split; [apply decode_json_stringify|by apply has_type_event].
  - eexists; split; [apply decode_json_stringify|apply has_type_aggregate].
Qed.

End Messages.

Lemma tick_messages_typed_witness :
  Forall (λ p, 0 <= p.(demandRate)) (initialProducts 0 0 0) ∧
  wp (W := Script) (runSimulationTick DEFAULT_PARAMS (initialProducts 0 0 0)) (λ o,
    Forall (λ e, ∃ j, decode_json (stringify (product_event_json e)) = Some j ∧
                      has_type j product_update_schema = true) o.(tick_events) ∧
    ∃ j, decode_json (stringify (aggregate_json o.(tick_agg))) = Some j ∧
         has_type j aggregate_schema = true).
Proof.
  assert (Forall (λ p, 0 <= p.(demandRate)) (initialProducts 0 0 0)) as Hd
    by (repeat constructor; simpl; lia).
  split; [exact Hd|]. apply tick_messages_typed. exact Hd.
Defined.
