(* ===== verification/Transport.v ===== *)
(** * The transport adapter: [src/services/mqttService.ts]

    [MqttService] keeps one field, [this.client], a handle to a client of
    the MQTT library or [null].  The library's clients live on after the
    service drops its handle (their event handlers still call the status
    sink), so the model keeps the store of every client [mqtt.connect]
    created ([clients], indexed by creation order) and the handle is an
    index into it.  A client's observable state is whether it is
    connected and whether [end()] was called on it.  Its events
    ([connect], [error], [offline], [close]) are inputs of the model;
    each handler the service installs reports a status string to the
    sink.  [sent] records what [client.publish] was handed, in order.

    [connect] draws the random client id ([Math.random()], line 16) and
    so runs in [Eff]; the other operations are pure. *)

From Stdlib Require Import ZArith Lia String.
From stdpp Require Import base list decidable sets relations.
From S2P Require Import Prelude Types Runtime TickEngine Json.

Local Open Scope Z_scope.
Local Open Scope string_scope.

Record Client := mkClient {
  cl_url : string;
  cl_id_draw : Z;
  cl_connected : bool;
  cl_ended : bool
}.

Record MqttService := mkService {
  client : option nat;
  clients : list Client;
  sent : list (string * string)
}.

(** [new MqttService()]: [client = null], no library client yet. *)
Definition mqttService0 : MqttService := mkService None [] [].

(** The events a library client emits; [error] carries [err.message]. *)
Inductive ClientEvent :=
| EvConnect
| EvError (message : string)
| EvOffline
| EvClose.

(** [`ws://${MQTT_CONFIG.BROKER_URL}:${MQTT_CONFIG.PORT}`] (line 11). *)
Definition connectUrl : string :=
  "ws://" ++ MQTT_CONFIG.(BROKER_URL) ++ ":" ++ Z_to_string MQTT_CONFIG.(PORT).

Definition set_connected (b : bool) (c : Client) : Client :=
  mkClient c.(cl_url) c.(cl_id_draw) b c.(cl_ended).

(** [client.end()]: the library closes the link and ends the client. *)
Definition end_client (c : Client) : Client :=
  mkClient c.(cl_url) c.(cl_id_draw) false true.

Definition update_client (i : nat) (c : Client) (s : MqttService) : MqttService :=
  mkService s.(client) (<[i := c]> s.(clients)) s.(sent).

(** The client [this.client] designates. *)
Definition current (s : MqttService) : option Client :=
  s.(client) ≫= λ i, s.(clients) !! i.

Section Operations.
Context {W : Type} `{Runtime W}.

(** [connect(onStatusChange)] (lines 7-37): reports ['Connecting...'],
    draws the client id, creates a (not yet connected) client and stores
    its handle in [this.client], overwriting any previous one.  Returns
    the statuses reported during the call. *)
Definition connect (s : MqttService) : Eff W (MqttService * list string) :=
  r ← random;
  mret (mkService (Some (length s.(clients)))
          (s.(clients) ++ [mkClient connectUrl r false false]) s.(sent),
        ["Connecting..."]).
End Operations.

(** The handlers installed by [connect] (lines 24-36), run when client
    [i] emits [e]; an ended client emits nothing.  [close] has no handler
    but the library marks the client disconnected. *)
Definition client_event (i : nat) (e : ClientEvent) (s : MqttService)
    : MqttService * list string :=
  match s.(clients) !! i with
  | None => (s, [])
  | Some c =>
      if c.(cl_ended) then (s, [])
      else match e with
           | EvConnect => (update_client i (set_connected true c) s, ["Connected"])
           | EvError msg => (s, ["Error: " ++ msg])
           | EvOffline => (update_client i (set_connected false c) s, ["Disconnected"])
           | EvClose => (update_client i (set_connected false c) s, [])
           end
  end.

(** [topic || MQTT_CONFIG.TOPIC] (line 41): an absent or empty topic
    falls back to the configured one. *)
Definition destination (topic : option string) : string :=
  match topic with
  | Some t => if bool_decide (t = EmptyString) then MQTT_CONFIG.(TOPIC) else t
  | None => MQTT_CONFIG.(TOPIC)
  end.

(** [publish(data, topic?)] (lines 39-50): sends [JSON.stringify(data)]
    and returns it when the client exists and is connected, otherwise
    returns [null] and sends nothing. *)
Definition publish (data : json) (topic : option string) (s : MqttService)
    : MqttService * option string :=
  match current s with
  | Some c =>
      if c.(cl_connected) then
        let message := stringify data in
        (mkService s.(client) s.(clients) (s.(sent) ++ [(destination topic, message)]),
         Some message)
      else (s, None)
  | None => (s, None)
  end.

(** [disconnect()] (lines 52-57): ends the client and forgets it. *)
Definition disconnect (s : MqttService) : MqttService :=
  match s.(client) with
  | Some i =>
      match s.(clients) !! i with
      | Some c => mkService None (<[i := end_client c]> s.(clients)) s.(sent)
      | None => mkService None s.(clients) s.(sent)
      end
  | None => s
  end.

(** ** Well-formedness: the handle designates a client and every other
    client has been ended *)

Definition service_wf (s : MqttService) : Prop :=
  (∀ i, s.(client) = Some i → is_Some (s.(clients) !! i)) ∧
  (∀ i c, s.(clients) !! i = Some c → s.(client) ≠ Some i → c.(cl_ended) = true).

(** The statuses the service can report. *)
Definition service_status (st : string) : Prop :=
  st = "Connecting..." ∨ st = "Connected" ∨ st = "Disconnected" ∨
  ∃ msg, st = "Error: " ++ msg.

(** Whether [this.client && this.client.connected] holds. *)
Definition is_connected (s : MqttService) : bool :=
  match current s with Some c => c.(cl_connected) | None => false end.

(** States used by the witnesses: the service after one [connect] on
    the scripted host, and after its client reported [connect]. *)
Definition connecting_service : MqttService :=
  mkService (Some 0%nat) [mkClient connectUrl 0 false false] [].

Definition connected_service : MqttService :=
  mkService (Some 0%nat) [mkClient connectUrl 0 true false] [].

Section Steps.
Context {W : Type} `{Runtime W}.

(** The operations the session performs on the service, and the events
    of the library.  [connect] is guarded as the session calls it: only
    while the service holds no client. *)
Inductive service_step : MqttService → MqttService → Prop :=
| step_connect s w :
    s.(client) = None → service_step s (connect s w).1.1
| step_event s i e : service_step s (client_event i e s).1
| step_publish s d t : service_step s (publish d t s).1
| step_disconnect s : service_step s (disconnect s).
End Steps.

(** ** Lemmas *)

Lemma service_wf_init : service_wf mqttService0.
Proof. split; simpl; [by intros i ? | intros i c Hc; by rewrite lookup_nil in Hc]. Qed.

Lemma client_event_wf i e s : service_wf s → service_wf (client_event i e s).1.
Proof.
  intros [Hcur Hend]. unfold client_event.
  destruct (s.(clients) !! i) as [c|] eqn:Hi; [|done].
  destruct (cl_ended c) eqn:He; [done|].
  assert (s.(client) = Some i) as Hci.
  { destruct (decide (s.(client) = Some i)); [done|].
    by rewrite (Hend i c Hi n) in He. }
  assert (i < length s.(clients))%nat by (by apply lookup_lt_Some with c).
  destruct e; simpl; try done.
  all: split; simpl; [intros j Hj; rewrite Hci in Hj; simplify_eq;
                      by rewrite list_lookup_insert_eq |].
  all: intros j c' Hj Hne; rewrite Hci in Hne.
  all: rewrite list_lookup_insert_ne in Hj by (intros ->; done).
  all: apply (Hend j c' Hj); rewrite Hci; done.
Qed.

Lemma publish_state d t s :
  (publish d t s).1 = s ∨
  (publish d t s).1 = mkService s.(client) s.(clients) (s.(sent) ++ [(destination t, stringify d)]).
Proof.
  unfold publish. destruct (current s) as [c|]; [|by left].
  destruct (cl_connected c); [by right | by left].
Qed.

Lemma publish_wf d t s : service_wf s → service_wf (publish d t s).1.
Proof.
  intros Hwf. destruct (publish_state d t s) as [-> | ->]; [done|].
  destruct Hwf as [Hcur Hend]. by split.
Qed.

Lemma disconnect_wf s : service_wf s → service_wf (disconnect s).
Proof.
  intros Hwf. unfold disconnect.
  destruct s.(client) as [i|] eqn:Hci; [|done].
  destruct Hwf as [Hcur Hend].
  destruct (s.(clients) !! i) as [c|] eqn:Hi.
  - split; simpl; [done|]. intros j c' Hj _.
    destruct (decide (i = j)) as [<-|Hne].
    + rewrite list_lookup_insert_eq in Hj by (by apply lookup_lt_Some with c).
      by simplify_eq.
    + rewrite list_lookup_insert_ne in Hj by done. apply (Hend j); [done|]. congruence.
  - exfalso. destruct (Hcur i Hci) as [c Hc]. congruence.
Qed.

Lemma connect_wf `{Runtime W} s w :
  s.(client) = None → service_wf s → service_wf (connect s w).1.1.
Proof.
  intros Hnone [Hcur Hend]. unfold connect, mbind, Eff_bind, mret, Eff_ret, random.
  destruct (math_random w) as [r w']. simpl. split; simpl.
  - intros i [= <-]. rewrite lookup_app_r by lia. rewrite Nat.sub_diag. by eexists.
  - intros j c Hj Hne. destruct (decide (j < length s.(clients)))%nat as [Hlt|Hge].
    + rewrite lookup_app_l in Hj by done. apply (Hend j c Hj). by rewrite Hnone.
    + rewrite lookup_app_r in Hj by lia.
      destruct (decide (j = length s.(clients))) as [->|]; [done|].
      rewrite lookup_cons_ne_0 in Hj by lia. by rewrite lookup_nil in Hj.
Qed.

Lemma service_step_wf `{Runtime W} s s' :
  service_step s s' → service_wf s → service_wf s'.
Proof.
  destruct 1; eauto using client_event_wf, publish_wf, disconnect_wf, connect_wf.
Qed.

Lemma connect_state `{Runtime W} s w :
  (connect s w).1 = (mkService (Some (length s.(clients)))
                       (s.(clients) ++ [mkClient connectUrl (math_random w).1 false false])
                       s.(sent), ["Connecting..."]).
Proof. unfold connect, mbind, Eff_bind, mret, Eff_ret, random. by destruct (math_random w). Qed.

(** [publish] in one equation: it sends exactly when connected. *)
Lemma publish_spec d t s :
  publish d t s =
    if is_connected s
    then (mkService s.(client) s.(clients) (s.(sent) ++ [(destination t, stringify d)]),
          Some (stringify d))
    else (s, None).
Proof.
  unfold is_connected, publish. destruct (current s) as [c|]; [|done].
  by destruct (cl_connected c).
Qed.

Lemma publish_is_connected d t s : is_connected (publish d t s).1 = is_connected s.
Proof. rewrite publish_spec. by destruct (is_connected s) eqn:E. Qed.

Lemma publish_client d t s : (publish d t s).1.(client) = s.(client).
Proof. rewrite publish_spec. by destruct (is_connected s). Qed.

(** A client just created is designated and not yet connected, and
    nothing was sent. *)
Lemma connect_fresh `{Runtime W} s w :
  (connect s w).1.1.(client) = Some (length s.(clients)) ∧
  is_connected (connect s w).1.1 = false ∧
  (connect s w).1.1.(sent) = s.(sent).
Proof.
  rewrite connect_state. unfold is_connected, current. simpl.
  rewrite lookup_app_r by lia. by rewrite Nat.sub_diag.
Qed.

Lemma disconnect_client s : (disconnect s).(client) = None.
Proof. unfold disconnect. destruct s.(client) as [i|] eqn:E; [|done]. by destruct (s.(clients) !! i). Qed.

Lemma client_event_client i e s : (client_event i e s).1.(client) = s.(client).
Proof.
  unfold client_event. destruct (s.(clients) !! i) as [c|]; [|done].
  destruct (cl_ended c); [done|]. by destruct e.
Qed.

Lemma disconnect_sent s : (disconnect s).(sent) = s.(sent).
Proof. unfold disconnect. destruct s.(client) as [i|]; [|done]. by destruct (s.(clients) !! i). Qed.

Lemma client_event_sent i e s : (client_event i e s).1.(sent) = s.(sent).
Proof.
  unfold client_event. destruct (s.(clients) !! i) as [c|]; [|done].
  destruct (cl_ended c); [done|]. by destruct e.
Qed.

(** ** Properties *)

Section TransportProperties.
Context {W : Type} `{Runtime W}.

(** C16. Invariant of the transport: in every state reachable from
    [new MqttService()] by the session's guarded [connect], [publish],
    [disconnect] and the clients' events, [this.client] designates a
    client of the library and every other client has been ended. *)
Theorem service_reachable_wf (s : MqttService) :
  rtc service_step mqttService0 s → service_wf s.
Proof.
  intros Hr. remember mqttService0 as s0 eqn:E.
  assert (service_wf s0) as Hwf by (subst; apply service_wf_init).
  clear E. induction Hr; eauto using service_step_wf.
Qed.

(** C17. Publishing while not connected (section 8 scenario): when
    [this.client] is null or not connected, [publish] returns [null],
    sends nothing and leaves the service unchanged. *)
Theorem publish_while_disconnected_returns_null (data : json) (topic : option string)
    (s : MqttService) :
  is_connected s = false → publish data topic s = (s, None).
Proof.
  unfold is_connected, publish. destruct (current s) as [c|]; [|done].
  intros ->. done.
Qed.

(** C18. Publishing while connected sends [JSON.stringify(data)] once
    and returns the message; it goes to the given topic when that is a
    non-empty string, and to the configured topic
    ['supplychain/warehouse/events'] when the topic is absent or empty
    ([topic || MQTT_CONFIG.TOPIC], line 41). *)
Theorem publish_while_connected_sends (data : json) (topic : option string)
    (s : MqttService) :
  is_connected s = true →
  ∃ dst,
    publish data topic s =
      (mkService s.(client) s.(clients) (s.(sent) ++ [(dst, stringify data)]),
       Some (stringify data)) ∧
    (topic = None ∨ topic = Some EmptyString → dst = "supplychain/warehouse/events") ∧
    (∀ t, topic = Some t → t ≠ EmptyString → dst = t).
Proof.
  unfold is_connected, publish. destruct (current s) as [c|]; [|done].
  intros ->. exists (destination topic). split_and!; [done| |].
  - intros [-> | ->]; reflexivity.
  - intros t -> Ht. unfold destination. by rewrite bool_decide_false.
Qed.

(** C19. [disconnect] is idempotent, leaves no client designated, and
    leaves a well-formed service able to [connect] again: the new client
    is designated, not yet connected, and the service stays well
    formed. *)
Theorem disconnect_idempotent_reconnect (s : MqttService) (w : W) :
  service_wf s →
  disconnect (disconnect s) = disconnect s ∧
  (disconnect s).(client) = None ∧
  service_wf (connect (disconnect s) w).1.1 ∧
  is_connected (connect (disconnect s) w).1.1 = false.
Proof.
  intros Hwf.
  assert ((disconnect s).(client) = None) as Hnone.
  { unfold disconnect. destruct s.(client) as [i|] eqn:Hci; [|done].
    by destruct (s.(clients) !! i). }
  split_and!.
  - unfold disconnect at 1. by rewrite Hnone.
  - done.
  - apply connect_wf; [done|]. by apply disconnect_wf.
  - rewrite connect_state. unfold is_connected, current. simpl.
    rewrite lookup_app_r by lia. by rewrite Nat.sub_diag.
Qed.

(** C20. Status vocabulary: [connect] reports exactly ['Connecting...']
    and every handler reports ['Connected'], ['Disconnected'] or
    ['Error: ' + message]; the value ['Connecting'] of the [MqttStatus]
    enum, which the design names, is never reported. *)
Theorem reported_statuses (s : MqttService) (i : nat) (e : ClientEvent) :
  wp (connect s) (λ r, r.2 = ["Connecting..."]) ∧
  Forall service_status (client_event i e s).2 ∧
  Forall (λ st, st ≠ MqttStatus_value CONNECTING)
    ((client_event i e s).2 ++ ["Connecting..."]).
Proof.
  split_and!.
  - intros w. by rewrite connect_state.
  - unfold client_event. destruct (s.(clients) !! i) as [c|]; [|done].
    destruct (cl_ended c); [done|].
    destruct e; simpl; repeat apply Forall_cons_2; try apply Forall_nil_2;
      unfold service_status; eauto 10.
  - unfold client_event. destruct (s.(clients) !! i) as [c|].
    2: { simpl. by repeat apply Forall_cons_2. }
    destruct (cl_ended c).
    1: { simpl. by repeat apply Forall_cons_2. }
    destruct e; simpl; repeat apply Forall_cons_2; try apply Forall_nil_2; done.
Qed.

(** C21. [connect] does not end a live client it replaces: called while
    [this.client] designates a client that has not been ended, it
    overwrites the handle, so the old client stays live but forgotten
    (the service is no longer well formed) and its handler still reports
    ['Connected'] to the sink. *)
Theorem connect_twice_leaks_client (s : MqttService) (w : W) (i : nat) (c : Client) :
  s.(client) = Some i → s.(clients) !! i = Some c → c.(cl_ended) = false →
  ¬ service_wf (connect s w).1.1 ∧
  (client_event i EvConnect (connect s w).1.1).2 = ["Connected"].
Proof.
  intros Hci Hi He. rewrite connect_state. simpl.
  assert (i < length s.(clients))%nat as Hlt by (by apply lookup_lt_Some with c).
  assert ((s.(clients) ++ [mkClient connectUrl (math_random w).1 false false])%list !! i = Some c)
    as Hi' by (by rewrite lookup_app_l).
  split.
  - intros [_ Hend]. simpl in Hend. specialize (Hend i c Hi'). rewrite He in Hend.
    assert (false = true); [apply Hend; intros [= Heq]; lia | done].
  - unfold client_event. simpl. by rewrite Hi', He.
Qed.
End TransportProperties.

(** ** Witnesses *)

Lemma service_reachable_wf_witness :
  rtc (service_step (W := Script)) mqttService0 connected_service ∧
  service_wf connected_service.
Proof.
  assert (Hr : rtc (service_step (W := Script)) mqttService0 connected_service).
  { eapply rtc_l; [apply (step_connect mqttService0 (mkScript [] 0)); reflexivity|].
    eapply rtc_l; [apply (step_event _ 0 EvConnect)|]. apply rtc_refl. }
  split; [exact Hr | exact (service_reachable_wf connected_service Hr)].
Defined.

Lemma publish_while_disconnected_returns_null_witness :
  is_connected connecting_service = false ∧
  publish (JStr "x") None connecting_service = (connecting_service, None).
Proof.
  assert (Hc : is_connected connecting_service = false) by reflexivity.
  split; [exact Hc | exact (publish_while_disconnected_returns_null _ None _ Hc)].
Defined.

Lemma publish_while_connected_sends_witness :
  is_connected connected_service = true ∧
  ∃ dst,
    publish (JStr "x") (Some EmptyString) connected_service =
      (mkService connected_service.(client) connected_service.(clients)
         (connected_service.(sent) ++ [(dst, stringify (JStr "x"))]),
       Some (stringify (JStr "x"))) ∧
    (Some EmptyString = None ∨ Some EmptyString = Some EmptyString →
       dst = "supplychain/warehouse/events") ∧
    (∀ t, Some EmptyString = Some t → t ≠ EmptyString → dst = t).
Proof.
  assert (Hc : is_connected connected_service = true) by reflexivity.
  split; [exact Hc | exact (publish_while_connected_sends _ (Some EmptyString) _ Hc)].
Defined.

Lemma disconnect_idempotent_reconnect_witness :
  service_wf connected_service ∧
  disconnect (disconnect connected_service) = disconnect connected_service ∧
  (disconnect connected_service).(client) = None ∧
  service_wf (connect (W := Script) (disconnect connected_service) (mkScript [] 0)).1.1 ∧
  is_connected (connect (W := Script) (disconnect connected_service) (mkScript [] 0)).1.1
    = false.
Proof.
  assert (Hwf : service_wf connected_service).
  { split; simpl; [intros i [= <-]; by eexists|].
    intros [|j] c Hj Hne; [done|]. by rewrite lookup_cons_ne_0 in Hj. }
  split; [exact Hwf|].
  exact (disconnect_idempotent_reconnect connected_service (mkScript [] 0) Hwf).
Defined.

Lemma connect_twice_leaks_client_witness :
  connected_service.(client) = Some 0%nat ∧
  connected_service.(clients) !! 0%nat = Some (mkClient connectUrl 0 true false) ∧
  (mkClient connectUrl 0 true false).(cl_ended) = false ∧
  ¬ service_wf (connect (W := Script) connected_service (mkScript [] 0)).1.1 ∧
  (client_event 0 EvConnect (connect (W := Script) connected_service (mkScript [] 0)).1.1).2
    = ["Connected"].
Proof.
  split_and!; try reflexivity;
    apply (connect_twice_leaks_client connected_service (mkScript [] 0) 0
             (mkClient connectUrl 0 true false)); reflexivity.
Defined.
