(* ===== verification/Display.v ===== *)
(** * The dashboard: [MetricsDisplay.tsx], [StockChart.tsx] and the product cards

    The logic of the display: the connection and stockout predicates, the
    values of the metric cards and the classes of the status indicator of
    [MetricsDisplay] (lines 11-43), its panel of the last JSON message
    ([JSON.stringify(currentData, null, 2)], lines 46-55), the data
    [StockChart] hands to the chart: the last 20 history entries, each as
    its time, its inventory level and a reorder marker (lines 12-16), the
    one area series the chart draws over them (lines 23-63), the form of
    [SimulationControls] (lines 22-77), and
    the values each product card of [App.tsx] shows (lines 226-261): the
    stock percentage of the bar, the price with two decimals, the badge
    colour of the status.  Other colours and layout, and
    [toLocaleTimeString], are presentation and are not modelled; a chart
    point keeps the instant its time label renders. *)

From Stdlib Require Import ZArith Lia String.
From S2P Require Import Prelude Types Runtime TickSpec TickEngine Json JsonDecode.
From stdpp Require Import base list decidable sets.

Local Open Scope Z_scope.
Local Open Scope string_scope.

(** ** [MetricsDisplay] *)

(** [mqttStatus === 'Connected'] (line 11). *)
Definition isConnected (mqttStatus : string) : bool :=
  bool_decide (mqttStatus = "Connected").

(** [currentData?.stockout === 1] (line 12): [undefined === 1] is
    false. *)
Definition isStockout (currentData : option SimulationResult) : bool :=
  match currentData with
  | Some r => bool_decide (r.(stockout) = 1)
  | None => false
  end.

(** What a metric card shows: a number or a text. *)
Inductive MetricValue :=
| ShowNum (n : Z)
| ShowText (s : string).

(** [currentData?.inventory_level ?? '--'] (line 26). *)
Definition current_stock_value (currentData : option SimulationResult) : MetricValue :=
  match currentData with Some r => ShowNum r.(inventory_level) | None => ShowText "--" end.

(** The colour of the stock card (line 27). *)
Definition stock_color (currentData : option SimulationResult) : string :=
  if isStockout currentData then "text-red-500" else "text-blue-400".

(** [currentData?.demand ?? '--'] (line 31). *)
Definition last_demand_value (currentData : option SimulationResult) : MetricValue :=
  match currentData with Some r => ShowNum r.(demand) | None => ShowText "--" end.

(** [currentData ? `${currentData.lead_time_days} days` : '--'] (line 35). *)
Definition lead_time_value (currentData : option SimulationResult) : MetricValue :=
  match currentData with
  | Some r => ShowText (Z_to_string r.(lead_time_days) ++ " days")
  | None => ShowText "--"
  end.

(** The dot and the text of the connection status (lines 40-41). *)
Definition status_dot_class (mqttStatus : string) : string :=
  if isConnected mqttStatus then "bg-green-500 animate-pulse" else "bg-slate-700".

Definition status_text_class (mqttStatus : string) : string :=
  if isConnected mqttStatus then "text-green-500" else "text-slate-500".

(** The last JSON message (lines 46-55).  [currentData] is
    [{ ...agg, products: next }]: the panel sees the aggregate and the
    product objects it refers to, as they are when it renders. *)
Definition timestamp_label (currentData : option (SimulationResult * list Product))
    : option string :=
  option_map (λ d, toISOString d.1.(res_timestamp)) currentData.

Definition json_panel (currentData : option (SimulationResult * list Product)) : string :=
  match currentData with
  | Some (agg, ps) => stringify_pretty EmptyString (current_data_json agg ps)
  | None => "// No data sent yet..."
  end.

(** ** [StockChart] *)

Record ChartPoint := mkPoint {
  pt_time : Z;
  pt_inventory : Z;
  pt_reorder : option Z
}.

(** One entry of [chartData] (lines 13-15): the reorder marker is the
    inventory level when the tick reordered, [null] otherwise. *)
Definition chart_point (d : SimulationResult) : ChartPoint :=
  mkPoint d.(res_timestamp) d.(inventory_level)
    (if bool_decide (0 < d.(reorder_quantity)) then Some d.(inventory_level) else None).

(** [a.slice(-n)]: the last [n] elements, all of them when there are
    fewer. *)
Definition slice_last {A} (n : nat) (l : list A) : list A := drop (length l - n) l.

(** [history.slice(-20).map(...)] (line 12). *)
Definition chartData (history : list SimulationResult) : list ChartPoint :=
  map chart_point (slice_last 20 history).

(** The chart itself (lines 18-66): recharts plots, for each series, the
    field [dataKey] names of every point of [data] against the field of
    the x axis.  The chart has one area, [inventory], over [time]. *)
Record ChartSeries := mkSeries {
  series_key : string;
  series_curve : string;
  series_stroke : string
}.

Record ChartView := mkChart {
  chart_x_key : string;
  chart_series : list ChartSeries;
  chart_data : list ChartPoint
}.

(** [point[dataKey]] for the fields of a chart point. *)
Definition point_value (k : string) (pt : ChartPoint) : option Z :=
  if bool_decide (k = "time") then Some pt.(pt_time)
  else if bool_decide (k = "inventory") then Some pt.(pt_inventory)
  else if bool_decide (k = "reorder") then pt.(pt_reorder)
  else None.

Definition stock_chart (history : list SimulationResult) : ChartView :=
  mkChart "time" [mkSeries "inventory" "monotone" "#3b82f6"] (chartData history).

(** The values the chart draws, series by series. *)
Definition drawn (cv : ChartView) : list (list (option Z)) :=
  map (λ sr, map (point_value sr.(series_key)) cv.(chart_data)) cv.(chart_series).

(** ** The product cards of [App.tsx] (lines 226-261) *)

(** [Math.round((p.currentStock / p.maxStock) * 100)] (line 227):
    [Math.round x] is [floor (x + 1/2)], here [floor ((200 cs + ms) /
    (2 ms))].  With [maxStock = 0] the quotient is [NaN] or [Infinity]
    and the card shows it as such: [None].  The double rounding of the
    quotient is not modelled (a quotient a hair below a half would round
    down). *)
Definition stock_pct (cs ms : Z) : option Z :=
  if bool_decide (ms = 0) then None else Some ((200 * cs + ms) / (2 * ms)).

(** [x.toFixed(2)] of a price kept in cents. *)
Definition to_fixed2 (cents : Z) : string :=
  (if bool_decide (cents < 0) then "-" else EmptyString) ++
  Z_to_string (Z.abs cents / 100) ++ "." ++ pad_num 2 (Z.abs cents mod 100).

(** What one card shows, field by field. *)
Record ProductCard := mkCard {
  card_key : string;          (* key={p.id} *)
  card_name : string;         (* {p.name} *)
  card_category : string;     (* {p.type} *)
  card_price : string;        (* €{p.price.toFixed(2)} *)
  card_stock : string;        (* {p.currentStock}/{p.maxStock} *)
  card_stockPct : option Z;   (* the bar width and the percentage *)
  card_reorder : Z;           (* Reorder: {p.reorderLevel} *)
  card_tempColor : string;    (* the badge class *)
  card_temperature : string;  (* {p.sensors.temperature}°C *)
  card_humidity : string;     (* Hum: {p.sensors.humidity}% *)
  card_status : string        (* {p.status} *)
}.

(** The card of [p] (lines 227-261); numbers print as [Number.prototype.toString]. *)
Definition product_card (p : Product) : ProductCard :=
  {| card_key := p.(id);
     card_name := p.(name);
     card_category := ProductType_value p.(type);
     card_price := to_fixed2 p.(price);
     card_stock := Z_to_string p.(currentStock) ++ "/" ++ Z_to_string p.(maxStock);
     card_stockPct := stock_pct p.(currentStock) p.(maxStock);
     card_reorder := p.(reorderLevel);
     card_tempColor := if bool_decide (p.(status) = "WARNING") then "bg-amber-400" else "bg-green-400";
     card_temperature := decimal_to_string p.(sensors).(temperature) 2;
     card_humidity := decimal_to_string p.(sensors).(humidity) 1;
     card_status := p.(status) |}.

(** [products.map(p => ...)] (line 226). *)
Definition product_cards (products : list Product) : list ProductCard :=
  map product_card products.

(** The whole of [MetricsDisplay] (lines 10-59): the four cards, the
    status indicator and the panel of the last message. *)
Record MetricsView := mkMetrics {
  mv_stock : MetricValue;
  mv_stock_color : string;
  mv_demand : MetricValue;
  mv_lead_time : MetricValue;
  mv_status_dot : string;
  mv_status_text : string;
  mv_status : string;
  mv_timestamp : option string;
  mv_json : string
}.

Definition metrics_view (currentData : option (SimulationResult * list Product))
    (mqttStatus : string) : MetricsView :=
  let agg := option_map fst currentData in
  mkMetrics (current_stock_value agg) (stock_color agg) (last_demand_value agg)
    (lead_time_value agg) (status_dot_class mqttStatus) (status_text_class mqttStatus)
    mqttStatus (timestamp_label currentData) (json_panel currentData).

(** ** [SimulationControls] *)

(** One [InputField] (lines 22-34): its label, its name, the value the
    number input shows and whether it is disabled. *)
Record InputView := mkInput {
  in_label : string;
  in_name : string;
  in_value : string;
  in_disabled : bool
}.

Record ControlsView := mkControls {
  cv_inputs : list InputView;
  cv_button : string
}.

(** The form (lines 36-77): the eight fields of [params] (the interval,
    kept in milliseconds, shows its seconds), disabled while running, and
    the Start or the Stop button. *)
Definition controls_view (params : SimulationParams) (isRunning : bool) : ControlsView :=
  let field l n v := mkInput l n v isRunning in
  mkControls
    [field "Initial Stock" "initialStock" (Z_to_string params.(initialStock));
     field "Reorder Point" "reorderPoint" (Z_to_string params.(reorderPoint));
     field "Reorder Quantity" "reorderQuantity" (Z_to_string params.(reorderQuantity));
     field "Demand Min" "demandMin" (Z_to_string params.(demandMin));
     field "Demand Max" "demandMax" (Z_to_string params.(demandMax));
     field "Lead Time Min" "leadTimeMin" (Z_to_string params.(leadTimeMin));
     field "Lead Time Max" "leadTimeMax" (Z_to_string params.(leadTimeMax));
     field "Interval (sec)" "simulationInterval" (decimal_to_string params.(simulationInterval) 3)]
    (if isRunning then "Stop Simulation" else "Start Simulation").

(** A product that is empty and restocks at zero, for the scenario. *)
Definition empty_product (pid : string) : Product :=
  mkProduct pid pid DRY 2000 400 10 0 0 100 1 (mkSensors 2000 400 0) "OK" None.

(** ** Lemmas *)

Lemma map_slice_last_suffix {A B} (f : A → B) (n : nat) (l : list A) :
  suffix (map f (slice_last n l)) (map f l).
Proof.
  exists (map f (take (length l - n) l)). unfold slice_last.
  by rewrite <- map_app, take_drop.
Qed.

Lemma slice_last_length {A} (n : nat) (l : list A) :
  length (slice_last n l) = Nat.min n (length l).
Proof. unfold slice_last. rewrite length_drop. lia. Qed.

Lemma slice_last_map {A B} (g : A → B) (n : nat) (l : list A) :
  slice_last n (map g l) = map g (slice_last n l).
Proof. unfold slice_last. rewrite length_map. apply skipn_map. Qed.

(** The bar of a product in its bounds fills between 0 and 100 per cent. *)
Lemma stock_pct_range cs ms :
  0 <= cs <= ms → 0 < ms → ∃ k, stock_pct cs ms = Some k ∧ 0 <= k <= 100.
Proof.
  intros Hc Hm. unfold stock_pct. rewrite bool_decide_false by lia. eexists; split; [done|].
  split; [apply Z.div_pos; lia|].
  assert ((200 * cs + ms) / (2 * ms) < 101); [apply Z.div_lt_upper_bound|]; lia.
Qed.

(** After a tick the last point of the chart is the point of the new
    aggregate. *)
Lemma chartData_snoc_last (history : list SimulationResult) (d : SimulationResult) :
  last (chartData (history ++ [d])) = Some (chart_point d).
Proof.
  unfold chartData, slice_last. rewrite length_app, drop_app_le by (simpl; lia).
  rewrite map_app. cbn [map]. by rewrite last_snoc.
Qed.

(** The panel, read back by [JSON.parse], is [currentData]. *)
Lemma json_panel_decode (agg : SimulationResult) (ps : list Product) :
  decode_json (strip_ws false (json_panel (Some (agg, ps)))) =
    Some (canon (current_data_json agg ps)).
Proof.
  cbn [json_panel]. rewrite <- (string_app_nil_r (stringify_pretty _ _)).
  rewrite strip_pretty by (intros r; reflexivity).
  rewrite string_app_nil_r. apply decode_json_stringify.
Qed.

(** ** Properties *)

(** C33. The stock card turns red exactly when one product stocked out:
    for every product list, whatever the draws, the colour
    [MetricsDisplay] gives the Current Stock card after a tick (line 27,
    [isStockout] of line 12) is red if and only if exactly one product's
    sale emptied it in that tick.  A tick in which two or more products
    stock out leaves the card blue. *)
Theorem tick_stock_card_red_iff_one_stockout (params : SimulationParams) (prev : list Product)
    (ps : list Product) (st : string) :
  Forall (λ p, 0 <= p.(demandRate)) prev →
  wp (runSimulationTick params prev) (λ o, ∃ solds,
      Forall3 product_step prev solds o.(tick_next) ∧
      (metrics_view (Some (o.(tick_agg), ps)) st).(mv_stock_color) =
        if bool_decide (countZ (uncurry stocks_out) (zip prev solds) = 1)
        then "text-red-500" else "text-blue-400").
Proof.
  intros Hd. eapply wp_mono; [by apply tick_refines_contract|].
  intros o [solds Hspec]. exists solds. split; [apply (tick_products _ _ _ _ _ Hspec)|].
  unfold metrics_view, stock_color, isStockout. cbn [mv_stock_color option_map fst].
  by rewrite (tick_stockout _ _ _ _ _ Hspec).
Qed.

Lemma tick_stock_card_red_iff_one_stockout_witness :
  Forall (λ p, 0 <= p.(demandRate)) [empty_product "E1"; empty_product "E2"] ∧
  wp (W := Script) (runSimulationTick DEFAULT_PARAMS [empty_product "E1"; empty_product "E2"])
    (λ o, ∃ solds,
      Forall3 product_step [empty_product "E1"; empty_product "E2"] solds o.(tick_next) ∧
      (metrics_view (Some (o.(tick_agg), [])) "Connected").(mv_stock_color) =
        if bool_decide (countZ (uncurry stocks_out)
                          (zip [empty_product "E1"; empty_product "E2"] solds) = 1)
        then "text-red-500" else "text-blue-400").
Proof.
  assert (Hd : Forall (λ p, 0 <= p.(demandRate)) [empty_product "E1"; empty_product "E2"])
    by (repeat constructor; simpl; lia).
  split; [exact Hd|exact (tick_stock_card_red_iff_one_stockout DEFAULT_PARAMS _ [] "Connected" Hd)].
Defined.
