(* ===== verification/Session.v ===== *)
(** * The simulation session: the React state of [App.tsx]

    The component keeps [params], [isRunning], [mqttStatus],
    [currentData], [history], [products] and [timerRef] (App.tsx 11-18,
    68).  Product objects are shared: the [products] array, the
    [products] snapshot of every history entry ([aggWithProducts], line
    174) and the [initialProducts] array captured by [startSimulation]
    hold references to the same objects, and the tick assigns
    [p.lastRestock] on the objects of the previous array (line 119).  The
    model therefore keeps a heap of product objects ([app_heap], a stdpp
    [gmap] from locations) and the arrays as lists of locations.

    The events of a session are the user's clicks and edits (guarded as
    the form renders them: Start only while stopped, Stop only while
    running, inputs only while stopped), the firing of the interval
    timer, the events of the MQTT clients and the unmounting of the
    component.  [handle] runs one event in [Eff]; [session_step] is the
    step relation and [reachable] its closure from the first render. *)

From Stdlib Require Import ZArith Lia String.
From stdpp Require Import base list decidable sets gmap relations.
From S2P Require Import Prelude Types Runtime TickSpec TickEngine Json Transport.

Local Open Scope Z_scope.
Local Open Scope string_scope.

(** An entry of [history] and the value of [currentData]: the aggregate
    with the snapshot [products: next] (line 174), as references. *)
Record HistEntry := mkHist {
  h_agg : SimulationResult;
  h_products : list nat
}.

Record AppState := mkApp {
  app_params : SimulationParams;
  app_isRunning : bool;
  app_mqttStatus : string;
  app_currentData : option HistEntry;
  app_history : list HistEntry;
  app_products : list nat;
  app_initialProducts : list nat;
  app_timer : option Z;
  app_heap : gmap nat Product;
  app_next_loc : nat;
  app_mqtt : MqttService;
  app_mounted : bool
}.

(** ** The heap of product objects *)

(** Allocate fresh objects for a list of products. *)
Fixpoint alloc_list (h : gmap nat Product) (n : nat) (ps : list Product)
    : gmap nat Product * nat * list nat :=
  match ps with
  | [] => (h, n, [])
  | p :: ps' =>
      let '(h', n', ls) := alloc_list (<[n := p]> h) (S n) ps' in (h', n', n :: ls)
  end.

(** The objects an array refers to. *)
Definition deref (h : gmap nat Product) (ls : list nat) : list Product :=
  omap (λ l, h !! l) ls.

(** Write objects back at their locations (the assignments of line 119). *)
Fixpoint store_list (h : gmap nat Product) (ls : list nat) (ps : list Product)
    : gmap nat Product :=
  match ls, ps with
  | l :: ls', p :: ps' => store_list (<[l := p]> h) ls' ps'
  | _, _ => h
  end.

(** ** The parameter form ([SimulationControls.handleChange]) *)

Inductive ParamField :=
| FinitialStock | FreorderPoint | FreorderQuantity | FdemandMin | FdemandMax
| FleadTimeMin | FleadTimeMax | FsimulationInterval.

(** [{...params, [name]: Number(value)}] (SimulationControls.tsx 14-20).
    [v] is [Number(value)] in the unit the model keeps the field in: for
    [simulationInterval], kept in milliseconds, the input's seconds times
    1000. *)
Definition set_param (f : ParamField) (v : Z) (p : SimulationParams) : SimulationParams :=
  let '(mkParams a b c d e g h i) := p in
  match f with
  | FinitialStock => mkParams v b c d e g h i
  | FreorderPoint => mkParams a v c d e g h i
  | FreorderQuantity => mkParams a b v d e g h i
  | FdemandMin => mkParams a b c v e g h i
  | FdemandMax => mkParams a b c d v g h i
  | FleadTimeMin => mkParams a b c d e v h i
  | FleadTimeMax => mkParams a b c d e g v i
  | FsimulationInterval => mkParams a b c d e g h v
  end.

(** The events of a session. *)
Inductive SessionEvent :=
| Start
| Stop
| TimerFire
| ParamChange (f : ParamField) (v : Z)
| MqttEvent (i : nat) (e : ClientEvent)
| Unmount.

(** The last status the sink received, if any. *)
Definition last_status (current : string) (sts : list string) : string :=
  default current (last sts).

(** Publish every payload of a tick, then the aggregate (lines 150-172);
    the results of [publish] are ignored. *)
Definition publish_tick (events : list ProductEvent) (agg : SimulationResult)
    (svc : MqttService) : MqttService :=
  (publish (aggregate_json agg) None
     (foldl (λ sv e, (publish (product_event_json e) None sv).1) svc events)).1.

Section Handlers.
Context {W : Type} `{Runtime W}.

(** [runSimulationTick()] as the session runs it: the updater reads the
    objects of [products], mutates them, allocates the next objects,
    publishes, sets [currentData] and appends to [history]. *)
Definition session_tick (s : AppState) : Eff W AppState :=
  let prev := deref s.(app_heap) s.(app_products) in
  o ← runSimulationTick s.(app_params) prev;
  let h1 := store_list s.(app_heap) s.(app_products) o.(tick_prev) in
  let '(h2, n2, nextLocs) := alloc_list h1 s.(app_next_loc) o.(tick_next) in
  let entry := mkHist o.(tick_agg) nextLocs in
  mret (mkApp s.(app_params) s.(app_isRunning) s.(app_mqttStatus) (Some entry)
          (s.(app_history) ++ [entry]) nextLocs s.(app_initialProducts) s.(app_timer)
          h2 n2 (publish_tick o.(tick_events) o.(tick_agg) s.(app_mqtt)) s.(app_mounted)).

(** [startSimulation] (lines 70-86): connect (the sink receives
    ['Connecting...']), reset [products] to the captured
    [initialProducts], clear [history], set [isRunning], run one tick,
    arm the interval timer with [simulationInterval * 1000] ms. *)
Definition startSimulation (s : AppState) : Eff W AppState :=
  '(svc, sts) ← connect s.(app_mqtt);
  s' ← session_tick
         (mkApp s.(app_params) true (last_status s.(app_mqttStatus) sts)
            s.(app_currentData) [] s.(app_initialProducts) s.(app_initialProducts)
            s.(app_timer) s.(app_heap) s.(app_next_loc) svc s.(app_mounted));
  mret (mkApp s'.(app_params) s'.(app_isRunning) s'.(app_mqttStatus) s'.(app_currentData)
          s'.(app_history) s'.(app_products) s'.(app_initialProducts)
          (Some s.(app_params).(simulationInterval)) s'.(app_heap) s'.(app_next_loc)
          s'.(app_mqtt) s'.(app_mounted)).

(** A parameter edit re-renders the component: [startSimulation] is
    re-created ([useCallback] on [params]) and captures the
    [initialProducts] array of that render, fresh objects stamped with
    three calls of [Date.now()]. *)
Definition paramChange (f : ParamField) (v : Z) (s : AppState) : Eff W AppState :=
  t1 ← now; t2 ← now; t3 ← now;
  let '(h', n', locs) :=
    alloc_list s.(app_heap) s.(app_next_loc) (initialProducts t1 t2 t3) in
  mret (mkApp (set_param f v s.(app_params)) s.(app_isRunning) s.(app_mqttStatus)
          s.(app_currentData) s.(app_history) s.(app_products) locs s.(app_timer)
          h' n' s.(app_mqtt) s.(app_mounted)).
End Handlers.

(** [stopSimulation] (lines 88-96). *)
Definition stopSimulation (s : AppState) : AppState :=
  mkApp s.(app_params) false "Disconnected" s.(app_currentData) s.(app_history)
    s.(app_products) s.(app_initialProducts) None s.(app_heap) s.(app_next_loc)
    (disconnect s.(app_mqtt)) s.(app_mounted).

(** A client event reaches the sink [setMqttStatus]. *)
Definition on_mqtt_event (i : nat) (e : ClientEvent) (s : AppState) : AppState :=
  let '(svc, sts) := client_event i e s.(app_mqtt) in
  mkApp s.(app_params) s.(app_isRunning) (last_status s.(app_mqttStatus) sts)
    s.(app_currentData) s.(app_history) s.(app_products) s.(app_initialProducts)
    s.(app_timer) s.(app_heap) s.(app_next_loc) svc s.(app_mounted).

(** The cleanup of the unmount effect (lines 183-188): the interval is
    cleared (no event reaches an unmounted component) but [timerRef] is
    not reset. *)
Definition unmount (s : AppState) : AppState :=
  mkApp s.(app_params) s.(app_isRunning) s.(app_mqttStatus) s.(app_currentData)
    s.(app_history) s.(app_products) s.(app_initialProducts) s.(app_timer) s.(app_heap)
    s.(app_next_loc) (disconnect s.(app_mqtt)) false.

(** Which events the rendered component can receive. *)
Definition enabled (ev : SessionEvent) (s : AppState) : bool :=
  s.(app_mounted) &&
  match ev with
  | Start => negb s.(app_isRunning)
  | Stop => s.(app_isRunning)
  | TimerFire => bool_decide (is_Some s.(app_timer))
  | ParamChange _ _ => negb s.(app_isRunning)
  | MqttEvent _ _ => true
  | Unmount => true
  end.

Section Session.
Context {W : Type} `{Runtime W}.

Definition handle (ev : SessionEvent) (s : AppState) : Eff W AppState :=
  match ev with
  | Start => startSimulation s
  | Stop => mret (stopSimulation s)
  | TimerFire => session_tick s
  | ParamChange f v => paramChange f v s
  | MqttEvent i e => mret (on_mqtt_event i e s)
  | Unmount => mret (unmount s)
  end.

(** The first render: default parameters, the seed catalog of that
    render (stamped [t1], [t2], [t3]) as both [products] and the captured
    [initialProducts], everything else empty. *)
Definition app0 (t1 t2 t3 : Z) : AppState :=
  let '(h, n, locs) := alloc_list ∅ 0 (initialProducts t1 t2 t3) in
  mkApp DEFAULT_PARAMS false "Disconnected" None [] locs locs None h n mqttService0 true.

Inductive session_step : AppState → AppState → Prop :=
| session_step_intro ev s w :
    enabled ev s = true → session_step s (handle ev s w).1.

Definition reachable (s : AppState) : Prop :=
  ∃ t1 t2 t3, rtc session_step (app0 t1 t2 t3) s.

(** Replaying a sequence of events from a host state, and whether each
    was enabled when it arrived. *)
Fixpoint run_session (evs : list SessionEvent) (s : AppState) (w : W) : AppState * W :=
  match evs with
  | [] => (s, w)
  | ev :: evs' => let '(s', w') := handle ev s w in run_session evs' s' w'
  end.

Fixpoint trace_enabled (evs : list SessionEvent) (s : AppState) (w : W) : bool :=
  match evs with
  | [] => true
  | ev :: evs' => enabled ev s && let '(s', w') := handle ev s w in trace_enabled evs' s' w'
  end.
End Session.

(** ** The invariant of a session *)

(** The fields a tick leaves alone. *)
Definition same_control (s s' : AppState) : Prop :=
  s'.(app_params) = s.(app_params) ∧ s'.(app_isRunning) = s.(app_isRunning) ∧
  s'.(app_mqttStatus) = s.(app_mqttStatus) ∧
  s'.(app_initialProducts) = s.(app_initialProducts) ∧
  s'.(app_timer) = s.(app_timer) ∧ s'.(app_mounted) = s.(app_mounted).

(** Locations [0 .. n-1] are allocated, and only they. *)
Definition heap_dense (h : gmap nat Product) (n : nat) : Prop :=
  ∀ l, is_Some (h !! l) ↔ (l < n)%nat.

Definition below (n : nat) (ls : list nat) : Prop := Forall (λ l, l < n)%nat ls.

(** The heap: every array refers to allocated objects, every object
    satisfies the product invariant [PI], the captured catalog still holds
    the seed values, [products] is either the catalog itself or apart from
    it, and every aggregate of the history satisfies [HI]. *)
Section HeapInvariant.
Variable PI : Product → Prop.
Variable HI : SimulationResult → Prop.

Record heap_inv (s : AppState) : Prop := {
  hi_dense : heap_dense s.(app_heap) s.(app_next_loc);
  hi_wf : map_Forall (λ _ p, PI p) s.(app_heap);
  hi_products : below s.(app_next_loc) s.(app_products);
  hi_products_nodup : NoDup s.(app_products);
  hi_initial : below s.(app_next_loc) s.(app_initialProducts);
  hi_initial_nodup : NoDup s.(app_initialProducts);
  hi_catalog : ∃ t1 t2 t3,
    deref s.(app_heap) s.(app_initialProducts) = initialProducts t1 t2 t3;
  hi_apart : s.(app_products) = s.(app_initialProducts) ∨
             Forall (λ l, l ∉ s.(app_initialProducts)) s.(app_products);
  hi_history : Forall (λ e, below s.(app_next_loc) e.(h_products)) s.(app_history);
  hi_aggs : Forall (λ e, HI e.(h_agg)) s.(app_history)
}.
End HeapInvariant.

Section Invariant.
Context {W : Type} `{Runtime W}.

(** What the heap invariant asks of [PI] and [HI]: the seed catalog
    satisfies [PI], the callbacks preserve it, and a tick over such
    products yields an aggregate satisfying [HI]. *)
Record tick_invariant (PI : Product → Prop) (HI : SimulationResult → Prop) : Prop := {
  ti_rate : ∀ p, PI p → 0 <= p.(demandRate);
  ti_step : ∀ p sold pq, PI p → step_pair p sold pq → PI pq.1 ∧ PI pq.2;
  ti_seed : ∀ t1 t2 t3, Forall PI (initialProducts t1 t2 t3);
  ti_tick : ∀ params prev,
    Forall PI prev → wp (runSimulationTick params prev) (λ o, HI o.(tick_agg))
}.

(** The controls: the timer is armed exactly while running, the service
    holds no client while stopped, [currentData] is the last entry of
    [history] and that entry's snapshot is [products]; the service went
    through the transport's own steps. *)
Record control_inv (s : AppState) : Prop := {
  ci_timer : s.(app_mounted) = true → (is_Some s.(app_timer) ↔ s.(app_isRunning) = true);
  ci_idle : s.(app_mounted) = true → s.(app_isRunning) = false → s.(app_mqtt).(client) = None;
  ci_current : s.(app_currentData) = last s.(app_history);
  ci_last : ∀ e, last s.(app_history) = Some e → e.(h_products) = s.(app_products);
  ci_service : rtc service_step mqttService0 s.(app_mqtt)
}.
End Invariant.

(** ** The heap *)

Lemma alloc_list_spec h n ps h' n' ls :
  alloc_list h n ps = (h', n', ls) →
  n' = (n + length ps)%nat ∧ ls = seq n (length ps) ∧
  (∀ l, (l < n ∨ n + length ps <= l)%nat → h' !! l = h !! l) ∧
  (∀ i p, ps !! i = Some p → h' !! (n + i)%nat = Some p).
Proof.
  revert h n h' n' ls. induction ps as [|p ps IH]; intros h n h' n' ls E; simpl in E.
  - simplify_eq. rewrite Nat.add_0_r. split_and!; auto. by intros i p ?.
  - destruct (alloc_list (<[n:=p]> h) (S n) ps) as [[h1 n1] ls1] eqn:E1. simplify_eq.
    destruct (IH _ _ _ _ _ E1) as (-> & -> & Hold & Hnew). simpl.
    split_and!; [lia | done | |].
    + intros l Hl. rewrite Hold by lia. apply lookup_insert_ne. lia.
    + intros [|i] q Hi; simpl in Hi.
      * simplify_eq. rewrite Nat.add_0_r, Hold by lia. apply lookup_insert_eq.
      * rewrite Nat.add_succ_r, <- Nat.add_succ_l. by apply Hnew.
Qed.

Lemma deref_cons h l ls :
  deref h (l :: ls) = match h !! l with Some p => p :: deref h ls | None => deref h ls end.
Proof. done. Qed.

Lemma deref_ext h h' ls :
  (∀ l, l ∈ ls → h' !! l = h !! l) → deref h' ls = deref h ls.
Proof.
  induction ls as [|l ls IH]; intros Hl; [done|]. rewrite !deref_cons.
  rewrite Hl by set_solver. rewrite IH; [done|]. intros l' ?. apply Hl. set_solver.
Qed.

Lemma deref_seq h n ps :
  (∀ i p, ps !! i = Some p → h !! (n + i)%nat = Some p) →
  deref h (seq n (length ps)) = ps.
Proof.
  revert n. induction ps as [|p ps IH]; intros n Hps; [done|]. cbn [length seq]. rewrite deref_cons.
  specialize (Hps 0%nat p eq_refl) as Hp. rewrite Nat.add_0_r in Hp. rewrite Hp. f_equal.
  apply IH. intros i q Hi. replace (S n + i)%nat with (n + S i)%nat by lia.
  by apply (Hps (S i)).
Qed.

Lemma deref_length h n ls :
  heap_dense h n → below n ls → length (deref h ls) = length ls.
Proof.
  intros Hd Hb. induction Hb as [|l ls Hl _ IH]; [done|]. rewrite deref_cons.
  destruct (proj2 (Hd l) Hl) as [p ->]. simpl. by rewrite IH.
Qed.

Lemma store_list_ne h ls ps l :
  l ∉ ls → store_list h ls ps !! l = h !! l.
Proof.
  revert h ps. induction ls as [|l' ls IH]; intros h [|p ps] Hl; simpl; [done..|].
  rewrite IH by set_solver. apply lookup_insert_ne. set_solver.
Qed.

Lemma store_list_deref h ls ps :
  NoDup ls → length ls = length ps → deref (store_list h ls ps) ls = ps.
Proof.
  revert h ps. induction ls as [|l ls IH]; intros h [|p ps] Hnd Hlen;
    cbn [store_list length] in *; try done.
  apply NoDup_cons in Hnd as [Hl Hnd]. rewrite deref_cons.
  rewrite store_list_ne, lookup_insert_eq by done. f_equal. apply IH; [done | lia].
Qed.

Lemma store_list_dense h n ls ps :
  heap_dense h n → below n ls → heap_dense (store_list h ls ps) n.
Proof.
  revert h ps. induction ls as [|l ls IH]; intros h [|p ps] Hd Hb; simpl; try done.
  apply Forall_cons in Hb as [Hl Hb]. apply IH; [|done]. unfold heap_dense in *.
  intros l'. rewrite <- Hd. destruct (decide (l = l')) as [<-|].
  - rewrite lookup_insert_eq, Hd. split; [done|]. intros _. by eexists.
  - by rewrite lookup_insert_ne.
Qed.

Lemma store_list_forall (P : Product → Prop) h ls ps :
  map_Forall (λ _ p, P p) h → Forall P ps → map_Forall (λ _ p, P p) (store_list h ls ps).
Proof.
  revert h ps. induction ls as [|l ls IH]; intros h [|p ps] Hh Hps; simpl; try done.
  apply Forall_cons in Hps as [Hp Hps]. apply IH; [|done]. by apply map_Forall_insert_2.
Qed.

Lemma below_mono n n' ls : (n <= n')%nat → below n ls → below n' ls.
Proof. intros Hn Hb. eapply Forall_impl; [done|]. simpl. lia. Qed.

Lemma below_seq n k : below (n + k) (seq n k).
Proof. apply Forall_forall. intros l Hl%elem_of_seq. lia. Qed.

(** Fresh locations are apart from the allocated ones, both ways. *)
Lemma seq_apart n k ls : below n ls → Forall (λ l, l ∉ ls) (seq n k).
Proof.
  intros Hb. apply Forall_forall. intros l Hl%elem_of_seq Hin.
  apply (proj1 (Forall_forall _ _) Hb) in Hin. lia.
Qed.

Lemma apart_seq n k ls : below n ls → Forall (λ l, l ∉ seq n k) ls.
Proof. intros Hb. eapply Forall_impl; [done|]. intros l Hl Hin%elem_of_seq. simpl in *. lia. Qed.

Lemma deref_forall (P : Product → Prop) h ls :
  map_Forall (λ _ p, P p) h → Forall P (deref h ls).
Proof.
  intros Hh. induction ls as [|l ls IH]; [constructor|]. rewrite deref_cons.
  destruct (h !! l) eqn:E; [|done]. constructor; [|done]. by apply (Hh l).
Qed.

Lemma alloc_list_dense h n ps h' n' ls :
  heap_dense h n → alloc_list h n ps = (h', n', ls) → heap_dense h' n'.
Proof.
  intros Hd E. destruct (alloc_list_spec _ _ _ _ _ _ E) as (-> & _ & Hold & Hnew).
  unfold heap_dense in *.
  intros l. destruct (decide (l < n)%nat).
  - rewrite Hold, Hd by lia. lia.
  - destruct (decide (l < n + length ps)%nat).
    + destruct (lookup_lt_is_Some_2 ps (l - n)) as [p Hp]; [lia|].
      apply Hnew in Hp. replace (n + (l - n))%nat with l in Hp by lia.
      rewrite Hp. split; [lia | by eexists].
    + rewrite Hold, Hd by lia. lia.
Qed.

Lemma alloc_list_forall (P : Product → Prop) h n ps :
  map_Forall (λ _ p, P p) h → Forall P ps → map_Forall (λ _ p, P p) (alloc_list h n ps).1.1.
Proof.
  revert h n. induction ps as [|p ps IH]; intros h n Hh Hps; [done|]. simpl.
  apply Forall_cons in Hps as [Hp Hps].
  destruct (alloc_list (<[n:=p]> h) (S n) ps) as [[h1 n1] ls1] eqn:E1.
  change h1 with (h1, n1, ls1).1.1. rewrite <- E1. apply IH; [|done].
  by apply map_Forall_insert_2.
Qed.

(** The objects just allocated are the products allocated. *)
Lemma alloc_list_deref h n ps h' n' ls :
  alloc_list h n ps = (h', n', ls) → deref h' ls = ps.
Proof.
  intros E. destruct (alloc_list_spec _ _ _ _ _ _ E) as (_ & -> & _ & Hnew).
  by apply deref_seq.
Qed.

Lemma below_lookup n ls l : below n ls → l ∈ ls → (l < n)%nat.
Proof. intros Hb Hl. by apply (proj1 (Forall_forall _ _) Hb). Qed.

(** Reading the objects through a map of their values. *)
Lemma deref_fmap (f : Product → Product) h ls : map f (deref h ls) = deref (f <$> h) ls.
Proof.
  induction ls as [|l ls IH]; [done|]. rewrite !deref_cons, lookup_fmap.
  destruct (h !! l); simpl; by rewrite IH.
Qed.

(** Writing back, at distinct allocated locations, objects that agree
    with the old ones up to [f] leaves the heap as it was up to [f]. *)
Lemma store_list_keeps (f : Product → Product) h n ls ps :
  heap_dense h n → below n ls → NoDup ls → map f ps = map f (deref h ls) →
  f <$> store_list h ls ps = f <$> h.
Proof.
  revert h ps. induction ls as [|l ls IH]; intros h ps Hd Hb Hnd Hf; [done|].
  apply Forall_cons in Hb as [Hl Hb]. apply NoDup_cons in Hnd as [Hl' Hnd].
  destruct (proj2 (Hd l) Hl) as [q Hq]. rewrite deref_cons, Hq in Hf.
  destruct ps as [|p ps]; [done|]. injection Hf as Hpq Hf. cbn [store_list].
  rewrite (IH (<[l:=p]> h) ps).
  - rewrite fmap_insert. apply insert_id. by rewrite lookup_fmap, Hq, Hpq.
  - intros l''. rewrite <- (Hd l''). destruct (decide (l = l'')) as [<-|].
    + rewrite lookup_insert_eq, Hq. split; by eexists.
    + by rewrite lookup_insert_ne.
  - done.
  - done.
  - rewrite Hf. f_equal. symmetry. apply deref_ext. intros l'' ?.
    apply lookup_insert_ne. set_solver.
Qed.

(** ** Publishing a tick *)

Lemma publish_tick_not_connected evs agg svc :
  is_connected svc = false → publish_tick evs agg svc = svc.
Proof.
  intros Hc. unfold publish_tick.
  assert (foldl (λ sv e, (publish (product_event_json e) None sv).1) svc evs = svc) as ->.
  { induction evs as [|e evs IH]; simpl; [done|]. by rewrite publish_spec, Hc. }
  by rewrite publish_spec, Hc.
Qed.

Lemma is_connected_sent svc l :
  is_connected (mkService svc.(client) svc.(clients) l) = is_connected svc.
Proof. done. Qed.

(** While connected, a tick sends its product events in order, then the
    aggregate, all to the configured topic. *)
Lemma publish_tick_connected evs agg svc :
  is_connected svc = true →
  publish_tick evs agg svc =
    mkService svc.(client) svc.(clients)
      (svc.(sent) ++ map (λ e, (MQTT_CONFIG.(TOPIC), stringify (product_event_json e))) evs
                  ++ [(MQTT_CONFIG.(TOPIC), stringify (aggregate_json agg))])%list.
Proof.
  intros Hc. unfold publish_tick.
  assert (∀ sv, is_connected sv = true →
    foldl (λ sv e, (publish (product_event_json e) None sv).1) sv evs =
    mkService sv.(client) sv.(clients)
      (sv.(sent) ++ map (λ e, (MQTT_CONFIG.(TOPIC), stringify (product_event_json e))) evs)%list)
    as Hfold.
  { induction evs as [|e evs IH]; intros sv Hsv; simpl.
    - rewrite app_nil_r. by destruct sv.
    - rewrite publish_spec, Hsv. simpl. rewrite IH by (by rewrite is_connected_sent).
      simpl. by rewrite <- app_assoc. }
  rewrite Hfold, publish_spec, is_connected_sent, Hc by done. simpl. by rewrite app_assoc.
Qed.

Lemma publish_tick_client evs agg svc : (publish_tick evs agg svc).(client) = svc.(client).
Proof.
  unfold publish_tick. rewrite publish_client. revert svc.
  induction evs as [|e evs IH]; intros svc; simpl; [done|]. by rewrite IH, publish_client.
Qed.

Lemma publish_tick_steps `{Runtime W} evs agg svc :
  rtc service_step svc (publish_tick evs agg svc).
Proof.
  unfold publish_tick. eapply rtc_r; [|apply step_publish].
  revert svc. induction evs as [|e evs IH]; intros svc; simpl; [done|].
  eapply rtc_l; [apply step_publish | apply IH].
Qed.

(** ** One tick of the session *)

Section Preserved.
Context {W : Type} `{Runtime W}.

(** The invariant is stated for any product invariant [PI] and any
    property [HI] of the aggregate that form a [tick_invariant]. *)
Variable PI : Product → Prop.
Variable HI : SimulationResult → Prop.
Context (HPI : tick_invariant PI HI).

Lemma step_pairs_forall prev solds pqs :
  Forall3 step_pair prev solds pqs → Forall PI prev →
  Forall PI (map fst pqs) ∧ Forall PI (map snd pqs).
Proof.
  induction 1 as [|p sold pq prev' solds' pqs' Hpair _ IH]; intros Hp; [done|].
  apply Forall_cons in Hp as [Hp Hps]. destruct (IH Hps).
  destruct (ti_step _ _ HPI _ _ _ Hp Hpair). split; by constructor.
Qed.

(** [session_tick] on a state whose heap is invariant: whatever the tick
    [o] computes, the new objects are allocated and become [products] and
    the snapshot of the new history entry, the old objects of [products]
    now hold what the callbacks left in them ([o.tick_prev]), the captured
    catalog is untouched, and everything is published. *)
Lemma session_tick_spec (s : AppState) (P : TickOutput → Prop) :
  heap_inv PI HI s →
  wp (runSimulationTick s.(app_params) (deref s.(app_heap) s.(app_products))) P →
  wp (session_tick s) (λ s', ∃ o e, P o ∧ heap_inv PI HI s' ∧
      s'.(app_history) = (s.(app_history) ++ [e])%list ∧ s'.(app_currentData) = Some e ∧
      e.(h_products) = s'.(app_products) ∧ e.(h_agg) = o.(tick_agg) ∧
      deref s'.(app_heap) s'.(app_products) = o.(tick_next) ∧
      deref s'.(app_heap) s.(app_products) = o.(tick_prev) ∧
      s'.(app_mqtt) = publish_tick o.(tick_events) o.(tick_agg) s.(app_mqtt) ∧
      same_control s s' ∧
      ∀ ls, below s.(app_next_loc) ls →
        map (set_lastRestock None) (deref s'.(app_heap) ls) =
        map (set_lastRestock None) (deref s.(app_heap) ls)).
Proof.
  intros [Hd Hwf Hps Hnd Hini Hnd0 Hcat Hap Hhist Haggs] HP.
  pose proof (deref_forall _ _ s.(app_products) Hwf) as Hprevwf.
  pose proof (deref_length _ _ _ Hd Hps) as Hlen.
  unfold session_tick. apply wp_bind. eapply wp_mono.
  { apply wp_and; [exact HP|]. apply wp_and; [|by apply (ti_tick _ _ HPI)].
    apply runSimulationTick_prev_next. eapply Forall_impl; [done|]. apply (ti_rate _ _ HPI). }
  intros o [HPo [(solds & pqs & Hpairs & Hprev & Hnext) Hagg]].
  destruct (step_pairs_forall _ _ _ Hpairs Hprevwf) as [Hwf1 Hwf2].
  pose proof (Forall3_length_lr _ _ _ _ Hpairs) as Hlen'.
  assert (length s.(app_products) = length o.(tick_prev)) as Hlp
    by (rewrite Hprev, length_map; lia).
  rewrite <- Hprev, <- Hnext in *.
  set (h1 := store_list s.(app_heap) s.(app_products) o.(tick_prev)).
  destruct (alloc_list h1 s.(app_next_loc) o.(tick_next)) as [[h2 n2] locs] eqn:E.
  destruct (alloc_list_spec _ _ _ _ _ _ E) as (Hn2 & Hlocs & Hold & _).
  assert (∀ ls, below s.(app_next_loc) ls → deref h2 ls = deref h1 ls) as Hkeep.
  { intros ls Hb. apply deref_ext. intros l Hl. apply Hold. left.
    by apply (below_lookup _ ls). }
  apply wp_ret. exists o, (mkHist o.(tick_agg) locs). simpl.
  split_and!; try done.
  - constructor; simpl.
    + apply (alloc_list_dense h1 _ _ _ _ _ (store_list_dense _ _ _ _ Hd Hps) E).
    + change h2 with (h2, n2, locs).1.1. rewrite <- E.
      apply alloc_list_forall; [subst h1; by apply store_list_forall | done].
    + rewrite Hn2, Hlocs. apply below_seq.
    + rewrite Hlocs. apply NoDup_seq.
    + eapply below_mono; [|done]. lia.
    + done.
    + destruct Hcat as (t1 & t2 & t3 & Hc). exists t1, t2, t3. rewrite Hkeep by done.
      destruct Hap as [Heq | Hdisj].
      * rewrite <- Heq in Hc |- *. subst h1. rewrite store_list_deref by done.
        rewrite Hprev. rewrite Hc in Hpairs.
        eapply proj1, (no_restock_keeps_prev _ solds); [done|].
        eapply Forall_impl; [apply catalog_no_restock|]. by intros p [_ ?].
      * subst h1. rewrite <- Hc. apply deref_ext. intros l Hl. apply store_list_ne.
        intros Hin. by apply (proj1 (Forall_forall _ _) Hdisj) in Hin.
    + right. rewrite Hlocs. by apply seq_apart.
    + apply Forall_app. split.
      * eapply Forall_impl; [exact Hhist|]. intros e. apply below_mono. lia.
      * constructor; [|done]. rewrite Hn2, Hlocs. apply below_seq.
    + apply Forall_app. split; [done|]. by constructor.
  - by eapply alloc_list_deref.
  - rewrite Hkeep by done. subst h1. by apply store_list_deref.
  - intros ls Hb. rewrite Hkeep, !deref_fmap by done. subst h1.
    erewrite store_list_keeps; [done..|]. rewrite Hprev.
    by apply (step_pairs_erase _ solds).
Qed.

(** ** Starting a run *)

(** [startSimulation] on an invariant state: the service connects a new
    client, then the tick runs on the captured catalog; the history is
    the one entry of that tick, the timer is armed with the interval. *)
Lemma start_spec (s : AppState) (P : TickOutput → Prop) :
  heap_inv PI HI s →
  wp (runSimulationTick s.(app_params) (deref s.(app_heap) s.(app_initialProducts))) P →
  wp (startSimulation s) (λ s', ∃ o e svc, P o ∧ heap_inv PI HI s' ∧
      (∃ w, svc = (connect s.(app_mqtt) w).1.1) ∧
      s'.(app_history) = [e] ∧ s'.(app_currentData) = Some e ∧
      e.(h_products) = s'.(app_products) ∧ e.(h_agg) = o.(tick_agg) ∧
      deref s'.(app_heap) s'.(app_products) = o.(tick_next) ∧
      s'.(app_mqtt) = publish_tick o.(tick_events) o.(tick_agg) svc ∧
      s'.(app_isRunning) = true ∧
      s'.(app_timer) = Some s.(app_params).(simulationInterval) ∧
      s'.(app_params) = s.(app_params) ∧
      s'.(app_initialProducts) = s.(app_initialProducts) ∧
      s'.(app_mounted) = s.(app_mounted)).
Proof.
  intros Hinv HP. unfold startSimulation. apply wp_bind. intros w. simpl.
  destruct ((connect s.(app_mqtt) w).1) as [svc sts] eqn:Ec. apply wp_bind.
  eapply wp_mono; [apply session_tick_spec; [|exact HP]|].
  { destruct Hinv. constructor; simpl; auto. }
  intros s2 (o & e & HPo & Hinv2 & Hh & Hc & He & Ha & Hn & _ & Hm & Hsame & _).
  destruct Hsame as (Hpar & Hrun & _ & Hini & _ & Hmnt). simpl in *.
  apply wp_ret. exists o, e, svc. simpl. split_and!; try done.
  - destruct Hinv2. by constructor.
  - exists w. by rewrite Ec.
Qed.

(** ** Editing a parameter *)

(** A parameter edit sets the field and captures a fresh copy of the
    seed catalog; nothing else of the session changes. *)
Lemma param_spec (f : ParamField) (v : Z) (s : AppState) :
  heap_inv PI HI s →
  wp (paramChange f v s) (λ s', heap_inv PI HI s' ∧
      s'.(app_params) = set_param f v s.(app_params) ∧
      s'.(app_isRunning) = s.(app_isRunning) ∧ s'.(app_mqttStatus) = s.(app_mqttStatus) ∧
      s'.(app_currentData) = s.(app_currentData) ∧ s'.(app_history) = s.(app_history) ∧
      s'.(app_products) = s.(app_products) ∧ s'.(app_timer) = s.(app_timer) ∧
      s'.(app_mqtt) = s.(app_mqtt) ∧ s'.(app_mounted) = s.(app_mounted) ∧
      deref s'.(app_heap) s.(app_products) = deref s.(app_heap) s.(app_products) ∧
      ∀ ls, below s.(app_next_loc) ls → deref s'.(app_heap) ls = deref s.(app_heap) ls).
Proof.
  intros [Hd Hwf Hps Hnd Hini Hnd0 Hcat Hap Hhist Haggs]. unfold paramChange.
  apply wp_bind, wp_now. intros t1. apply wp_bind, wp_now. intros t2.
  apply wp_bind, wp_now. intros t3. cbv beta.
  destruct (alloc_list s.(app_heap) s.(app_next_loc) (initialProducts t1 t2 t3))
    as [[h' n'] locs] eqn:E.
  destruct (alloc_list_spec _ _ _ _ _ _ E) as (Hn' & Hlocs & Hold & _).
  apply wp_ret. simpl. split_and!; try done. constructor; simpl.
  - by apply (alloc_list_dense _ _ _ _ _ _ Hd E).
  - change h' with (h', n', locs).1.1. rewrite <- E. apply alloc_list_forall; [done|].
    apply (ti_seed _ _ HPI).
  - eapply below_mono; [|done]. lia.
  - done.
  - rewrite Hn', Hlocs. apply below_seq.
  - rewrite Hlocs. apply NoDup_seq.
  - exists t1, t2, t3. by eapply alloc_list_deref.
  - right. rewrite Hlocs. by apply apart_seq.
  - eapply Forall_impl; [exact Hhist|]. intros e. apply below_mono. lia.
  - done.
  - apply deref_ext. intros l Hl. apply Hold. left. by apply (below_lookup _ _ _ Hps).
  - intros ls Hb. apply deref_ext. intros l Hl. apply Hold. left. by apply (below_lookup _ _ _ Hb).
Qed.

(** ** The invariant holds in every reachable state *)

Lemma heap_inv_ext s s' :
  s'.(app_heap) = s.(app_heap) → s'.(app_next_loc) = s.(app_next_loc) →
  s'.(app_products) = s.(app_products) →
  s'.(app_initialProducts) = s.(app_initialProducts) →
  s'.(app_history) = s.(app_history) → heap_inv PI HI s → heap_inv PI HI s'.
Proof.
  intros Hh Hn Hp Hi Hhist [Hd Hwf Hps Hnd Hini Hnd0 Hcat Hap Hhi Hag].
  constructor; rewrite ?Hh, ?Hn, ?Hp, ?Hi, ?Hhist; done.
Qed.

Lemma heap_inv_init t1 t2 t3 : heap_inv PI HI (app0 t1 t2 t3).
Proof.
  unfold app0. destruct (alloc_list ∅ 0 (initialProducts t1 t2 t3)) as [[h n] locs] eqn:E.
  destruct (alloc_list_spec _ _ _ _ _ _ E) as (Hn & Hlocs & _ & _).
  constructor; simpl.
  - apply (alloc_list_dense ∅ 0 (initialProducts t1 t2 t3) h n locs); [|done].
    intros l. rewrite lookup_empty. split; [by intros [] | lia].
  - change h with (h, n, locs).1.1. rewrite <- E.
    apply alloc_list_forall; [apply map_Forall_empty | apply (ti_seed _ _ HPI)].
  - rewrite Hn, Hlocs. apply below_seq.
  - rewrite Hlocs. apply NoDup_seq.
  - rewrite Hn, Hlocs. apply below_seq.
  - rewrite Hlocs. apply NoDup_seq.
  - exists t1, t2, t3. by eapply alloc_list_deref.
  - by left.
  - done.
  - done.
Qed.

Lemma control_inv_init t1 t2 t3 : control_inv (app0 t1 t2 t3).
Proof.
  unfold app0. destruct (alloc_list ∅ 0 (initialProducts t1 t2 t3)) as [[h n] locs].
  constructor; simpl; done.
Qed.

Lemma session_step_inv (s s' : AppState) :
  session_step s s' → heap_inv PI HI s → control_inv s → heap_inv PI HI s' ∧ control_inv s'.
Proof.
  intros [ev s0 w Hen] Hh [Ct Ci Cc Cl Cs].
  destruct ev; simpl in Hen |- *; apply andb_prop in Hen as [Hm Hen].
  - (* Start *)
    destruct (start_spec s0 (λ _, True) Hh (wp_any _ _ (λ _, I)) w)
      as (o & e & svc & _ & Hh' & [w' ->] & Hhist & Hcur & He & _ & _ & Hmq & Hrun &
          Htim & _ & _ & Hmnt).
    split; [done|]. constructor.
    + rewrite Htim, Hrun. split; by eauto.
    + by rewrite Hrun.
    + by rewrite Hcur, Hhist.
    + rewrite Hhist. by intros e' [= <-].
    + rewrite Hmq. eapply rtc_trans; [exact Cs|]. eapply rtc_l.
      * apply step_connect. apply Ci; [done|]. by apply negb_true_iff.
      * apply publish_tick_steps.
  - (* Stop *)
    split; [eapply heap_inv_ext; [..|exact Hh]; reflexivity|].
    constructor; simpl; try done; [intros _ _; apply disconnect_client|].
    eapply rtc_r; [done | apply step_disconnect].
  - (* TimerFire *)
    destruct (session_tick_spec s0 (λ _, True) Hh (wp_any _ _ (λ _, I)) w)
      as (o & e & _ & Hh' & Hhist & Hcur & He & _ & _ & _ & Hmq & (Hpar & Hrun & _ & _ &
          Htim & Hmnt) & _).
    split; [done|]. constructor.
    + rewrite Htim, Hrun, Hmnt. apply Ct.
    + rewrite Hrun, Hmnt, Hmq, publish_tick_client. apply Ci.
    + by rewrite Hcur, Hhist, last_snoc.
    + rewrite Hhist, last_snoc. by intros e' [= <-].
    + rewrite Hmq. eapply rtc_trans; [exact Cs | apply publish_tick_steps].
  - (* ParamChange *)
    destruct (param_spec f v s0 Hh w)
      as (Hh' & _ & Hrun & _ & Hcur & Hhist & Hprod & Htim & Hmq & Hmnt & _).
    split; [done|]. constructor.
    + rewrite Htim, Hrun, Hmnt. apply Ct.
    + rewrite Hrun, Hmnt, Hmq. apply Ci.
    + by rewrite Hcur, Hhist.
    + rewrite Hhist, Hprod. apply Cl.
    + by rewrite Hmq.
  - (* MqttEvent *)
    unfold on_mqtt_event. destruct (client_event i e s0.(app_mqtt)) as [svc sts] eqn:Ev.
    split; [eapply heap_inv_ext; [..|exact Hh]; reflexivity|]. constructor; simpl; try done.
    + replace svc with (client_event i e s0.(app_mqtt)).1 by (by rewrite Ev).
      rewrite client_event_client. apply Ci.
    + replace svc with (client_event i e s0.(app_mqtt)).1 by (by rewrite Ev).
      eapply rtc_r; [done | apply step_event].
  - (* Unmount *)
    split; [eapply heap_inv_ext; [..|exact Hh]; reflexivity|]. constructor; simpl; try done.
    eapply rtc_r; [done | apply step_disconnect].
Qed.

Lemma reachable_inv (s : AppState) : reachable s → heap_inv PI HI s ∧ control_inv s.
Proof.
  intros (t1 & t2 & t3 & Hr). remember (app0 t1 t2 t3) as s0 eqn:E.
  assert (heap_inv PI HI s0 ∧ control_inv s0) as Hinit
    by (subst; split; [apply heap_inv_init | apply control_inv_init]).
  clear E. induction Hr as [|x y z Hxy _ IH]; [done|].
  apply IH. destruct Hinit as [Hh Hc]. exact (session_step_inv x y Hxy Hh Hc).
Qed.
End Preserved.

Section Traces.
Context {W : Type} `{Runtime W}.

Lemma run_session_steps (evs : list SessionEvent) (s : AppState) (w : W) :
  trace_enabled evs s w = true → rtc session_step s (run_session evs s w).1.
Proof.
  revert s w. induction evs as [|ev evs IH]; intros s w Hen; simpl in *; [done|].
  apply andb_prop in Hen as [Hev Hen].
  pose proof (session_step_intro ev s w Hev) as Hstep.
  destruct (handle ev s w) as [s' w']. eapply rtc_l; [exact Hstep | by apply IH].
Qed.

Lemma run_session_reachable (evs : list SessionEvent) (t1 t2 t3 : Z) (w : W) :
  trace_enabled evs (app0 t1 t2 t3) w = true →
  reachable (run_session evs (app0 t1 t2 t3) w).1.
Proof. intros Hen. exists t1, t2, t3. by apply run_session_steps. Qed.
End Traces.

(** ** Two instances of the invariant *)

Section Instances.
Context {W : Type} `{Runtime W}.

Lemma wf_invariant : tick_invariant product_wf (λ _, True).
Proof.
  constructor.
  - by intros p [_ ?].
  - apply step_pair_wf.
  - apply initialProducts_wf.
  - intros params prev _. by apply wp_any.
Qed.

(** With the seed catalog every product object stays buffered, so no
    tick ever counts a stockout. *)
Lemma buffered_invariant : tick_invariant buffered (λ r, r.(stockout) = 0).
Proof.
  constructor.
  - by intros p [[_ ?] _].
  - apply step_pair_buffered.
  - apply initialProducts_buffered.
  - intros params prev Hb. eapply wp_mono.
    + apply tick_refines_contract. eapply Forall_impl; [done|]. by intros p [[_ ?] _].
    + intros o [solds Hspec]. rewrite (tick_stockout _ _ _ _ _ Hspec).
      by eapply buffered_steps_no_stockout, tick_products.
Qed.

Lemma reachable_wf (s : AppState) :
  reachable s → heap_inv product_wf (λ _, True) s ∧ control_inv s.
Proof. apply reachable_inv, wf_invariant. Qed.

(** A timer fire in a running, mounted session is enabled, leads to a
    reachable state that is still running and mounted, and appends one
    entry to the history. *)
Lemma timer_fire_running (s : AppState) (w : W) :
  reachable s → s.(app_isRunning) = true → s.(app_mounted) = true →
  enabled TimerFire s = true ∧ reachable (handle TimerFire s w).1 ∧
  length (handle TimerFire s w).1.(app_history) = S (length s.(app_history)) ∧
  (handle TimerFire s w).1.(app_isRunning) = true ∧
  (handle TimerFire s w).1.(app_mounted) = true.
Proof.
  intros Hr Hrun Hm. destruct (reachable_wf s Hr) as [Hh Hc].
  assert (enabled TimerFire s = true) as Hen.
  { unfold enabled. rewrite Hm. apply bool_decide_eq_true. by apply (ci_timer _ Hc). }
  destruct (session_tick_spec _ _ wf_invariant s (λ _, True) Hh (wp_any _ _ (λ _, I)) w)
    as (o & e & _ & _ & Hhist & _ & _ & _ & _ & _ & _ & (_ & Hrun' & _ & _ & _ & Hm') & _).
  cbn [handle]. split_and!; [done| | |congruence|congruence].
  - destruct Hr as (t1 & t2 & t3 & Hr). exists t1, t2, t3.
    eapply rtc_r; [exact Hr|]. by apply (session_step_intro TimerFire).
  - rewrite Hhist, length_app. simpl. lia.
Qed.

End Instances.
