(* ===== verification/SessionProperties.v ===== *)
(** * Properties of the simulation session ([App.tsx])

    Theorems about [Session]: the invariant of every reachable state,
    the refinement of the transport's step relation, what Start, the
    timer and the other events do to the registry, the history and the
    wire, the aliasing of history snapshots by the mutation of line 119
    and the invariant that keeps every snapshot's stock total, and the
    interval the timer runs at. *)

From Stdlib Require Import ZArith Lia String.
From stdpp Require Import base list decidable sets gmap relations.
From S2P Require Import Prelude Types Runtime TickSpec TickEngine Json Transport Display Session.

Local Open Scope Z_scope.
Local Open Scope string_scope.

(** ** Concrete sessions for the witnesses *)

(** A host whose every draw is the largest: each product sells its full
    demand rate every tick. *)
Definition busy_host : Script := mkScript (repeat (RAND_DEN - 1) 1000) 0.

Definition first_render : AppState := app0 0 0 0.

Definition started : AppState := (run_session [Start] first_render busy_host).1.

Definition started_entry : HistEntry :=
  default (mkHist (mkResult 0 0 0 0 0 0 None) []) (last started.(app_history)).

(** Started, then the client reported [connect]. *)
Definition started_connected : AppState :=
  (run_session [Start; MqttEvent 0 EvConnect] first_render busy_host).1.

(** ** The history and the heap *)

Section Histories.
Context {W : Type} `{Runtime W}.

(** The contract of the tick the session runs on the objects of [ls]. *)
Lemma tick_contract_at (s : AppState) (ls : list nat) :
  heap_inv product_wf (λ _, True) s →
  wp (runSimulationTick s.(app_params) (deref s.(app_heap) ls)) (λ o,
      ∃ solds, tick_spec s.(app_params) (deref s.(app_heap) ls) solds o.(tick_next) o.(tick_agg)).
Proof.
  intros Hh. apply tick_refines_contract.
  eapply Forall_impl; [by apply (deref_forall product_wf), (hi_wf _ _ _ Hh)|].
  by intros p [_ ?].
Qed.

Lemma sumZ_stock_erase (l : list Product) :
  sumZ currentStock (map (set_lastRestock None) l) = sumZ currentStock l.
Proof. rewrite sumZ_map. apply sumZ_ext. by intros []. Qed.

(** A later tick changes only [lastRestock] in the objects of an older
    snapshot, and a parameter edit only allocates: the stock total of
    every snapshot stays the total its tick recorded. *)
Lemma history_inventory (s : AppState) :
  reachable s →
  Forall (λ e, e.(h_agg).(inventory_level) = sumZ currentStock (deref s.(app_heap) e.(h_products)))
    s.(app_history).
Proof.
  intros (t1 & t2 & t3 & Hr). revert s Hr.
  apply (rtc_ind_r (λ z, Forall (λ e, e.(h_agg).(inventory_level) =
    sumZ currentStock (deref z.(app_heap) e.(h_products))) z.(app_history))).
  { unfold app0. by destruct (alloc_list ∅ 0 (initialProducts t1 t2 t3)) as [[h n] locs]. }
  intros y z Hy Hyz IH.
  assert (reachable y) as Hry by (by exists t1, t2, t3).
  destruct (reachable_wf y Hry) as [Hh _].
  pose proof (proj2 (Forall_and _ _) (conj IH (hi_history _ _ _ Hh))) as Hold.
  destruct Hyz as [ev y w _]. destruct ev; cbn [handle].
  - destruct (start_spec _ _ wf_invariant y _ Hh (tick_contract_at y _ Hh) w)
      as (o & e0 & _ & [solds Hspec] & _ & _ & -> & _ & Hp & Ha & Hn & _).
    constructor; [|done]. by rewrite Ha, Hp, Hn, (tick_inventory _ _ _ _ _ Hspec).
  - exact IH.
  - destruct (session_tick_spec _ _ wf_invariant y _ Hh (tick_contract_at y _ Hh) w)
      as (o & e0 & [solds Hspec] & _ & -> & _ & Hp & Ha & Hn & _ & _ & _ & Hkeep).
    apply Forall_app. split.
    + eapply Forall_impl; [exact Hold|]. intros e [He Hb].
      by rewrite He, <- (sumZ_stock_erase (deref y.(app_heap) _)), <- Hkeep, sumZ_stock_erase.
    + constructor; [|done]. by rewrite Ha, Hp, Hn, (tick_inventory _ _ _ _ _ Hspec).
  - destruct (param_spec _ _ wf_invariant f v y Hh w)
      as (_ & _ & _ & _ & _ & -> & _ & _ & _ & _ & _ & Hkeep).
    eapply Forall_impl; [exact Hold|]. intros e [He Hb]. by rewrite He, Hkeep.
  - unfold on_mqtt_event. by destruct (client_event i e y.(app_mqtt)).
  - exact IH.
Qed.
End Histories.

Section SessionProperties.
Context {W : Type} `{Runtime W}.

(** C22. Invariant of the session: in every state reachable from the
    first render, every product object ever allocated (current registry,
    history snapshots, captured catalog) keeps [0 <= currentStock <=
    maxStock]; the registry refers to allocated objects; the timer is
    armed exactly while running; no MQTT client is held while stopped;
    [currentData] is the last history entry and its snapshot is the
    registry. *)
Theorem session_reachable_invariant (s : AppState) :
  reachable s →
  map_Forall (λ _ p, product_wf p) s.(app_heap) ∧
  length (deref s.(app_heap) s.(app_products)) = length s.(app_products) ∧
  (s.(app_mounted) = true → (is_Some s.(app_timer) ↔ s.(app_isRunning) = true)) ∧
  (s.(app_mounted) = true → s.(app_isRunning) = false → s.(app_mqtt).(client) = None) ∧
  s.(app_currentData) = last s.(app_history) ∧
  (∀ e, s.(app_currentData) = Some e → e.(h_products) = s.(app_products)).
Proof.
  intros Hr. destruct (reachable_wf (W := W) s Hr) as [Hh [Ct Ci Cc Cl _]].
  split_and!; [exact (hi_wf _ _ _ Hh) | | exact Ct | exact Ci | exact Cc |].
  - apply (deref_length _ s.(app_next_loc)); [apply (hi_dense _ _ _ Hh) | apply (hi_products _ _ _ Hh)].
  - intros e He. apply Cl. by rewrite <- Cc.
Qed.

(** C23. The session uses the transport only through its contract:
    the service of every reachable state is reached from
    [new MqttService()] by the steps of [Transport.service_step]; in
    particular [connect] is only called when no client is held. *)
Theorem session_refines_transport (s : AppState) :
  reachable s → rtc service_step mqttService0 s.(app_mqtt).
Proof. intros Hr. by destruct (reachable_wf (W := W) s Hr) as [_ [_ _ _ _ Cs]]. Qed.

(** C24. Every run starts from the seed catalog: Start, in any reachable
    stopped state (also after earlier runs that restocked), clears the
    history to the one entry of a first tick whose input is the seed
    values of [initialProducts], arms the timer and marks the session
    running. *)
Theorem start_resets_to_seed (s : AppState) :
  reachable s → enabled Start s = true →
  wp (handle Start s) (λ s', ∃ t1 t2 t3 solds e,
      s'.(app_history) = [e] ∧ s'.(app_currentData) = Some e ∧
      s'.(app_isRunning) = true ∧
      s'.(app_timer) = Some s.(app_params).(simulationInterval) ∧
      tick_spec s.(app_params) (initialProducts t1 t2 t3) solds
        (deref s'.(app_heap) s'.(app_products)) e.(h_agg)).
Proof.
  intros Hr _. destruct (reachable_wf (W := W) s Hr) as [Hh _].
  destruct (hi_catalog _ _ _ Hh) as (t1 & t2 & t3 & Hc).
  eapply wp_mono; [apply (start_spec _ _ wf_invariant s); [done|]|].
  { rewrite Hc. apply tick_refines_contract.
    eapply Forall_impl; [apply initialProducts_wf|]. by intros p [_ ?]. }
  intros s' (o & e & svc & [solds Hspec] & _ & _ & Hh' & Hc' & He & Ha & Hn & _ & Hrun & Ht & _).
  exists t1, t2, t3, solds, e. split_and!; try done. by rewrite Hn, Ha.
Qed.

(** C25. The first tick of a run is never delivered: Start connects a
    new client, which is not connected yet when the immediate tick
    publishes, so every [publish] of that tick returns [null] and nothing
    reaches the broker. *)
Theorem first_tick_never_delivered (s : AppState) :
  reachable s → enabled Start s = true →
  wp (handle Start s) (λ s', s'.(app_mqtt).(sent) = s.(app_mqtt).(sent)).
Proof.
  intros Hr _. destruct (reachable_wf (W := W) s Hr) as [Hh _].
  eapply wp_mono; [apply (start_spec _ _ wf_invariant s (λ _, True)); [done | by apply wp_any]|].
  intros s' (o & e & svc & _ & _ & [w ->] & _ & _ & _ & _ & _ & Hmq & _).
  destruct (connect_fresh s.(app_mqtt) w) as (_ & Hnc & Hsent).
  by rewrite Hmq, publish_tick_not_connected.
Qed.

(** C26. A timer tick appends exactly one entry to the history, makes it
    [currentData], and the registry it leaves is a step of the tick
    contract from the registry before. *)
Theorem timer_tick_appends_history (s : AppState) :
  reachable s → enabled TimerFire s = true →
  wp (handle TimerFire s) (λ s', ∃ e solds,
      s'.(app_history) = (s.(app_history) ++ [e])%list ∧ s'.(app_currentData) = Some e ∧
      e.(h_products) = s'.(app_products) ∧
      tick_spec s.(app_params) (deref s.(app_heap) s.(app_products)) solds
        (deref s'.(app_heap) s'.(app_products)) e.(h_agg)).
Proof.
  intros Hr _. destruct (reachable_wf (W := W) s Hr) as [Hh _].
  eapply wp_mono; [apply (session_tick_spec _ _ wf_invariant s); [done|]|].
  { apply tick_refines_contract. eapply Forall_impl; [by apply (deref_forall product_wf), (hi_wf _ _ _ Hh)|].
    by intros p [_ ?]. }
  intros s' (o & e & [solds Hspec] & _ & Hhist & Hc & He & Ha & Hn & _).
  exists e, solds. split_and!; try done. by rewrite Hn, Ha.
Qed.

(** C27. A tick rewrites the snapshot of the previous history entry
    (App.tsx 119, 174): the objects of that entry are the registry the
    tick reads, and the callback assigns [p.lastRestock] on them, so
    after the tick the previous entry reads the [lastRestock] of the new
    registry, position by position, while its other fields stay as
    recorded.  The history is not an immutable record of the ticks. *)
Theorem tick_rewrites_history_snapshot (s : AppState) (e : HistEntry) :
  reachable s → enabled TimerFire s = true → last s.(app_history) = Some e →
  wp (handle TimerFire s) (λ s', e ∈ s'.(app_history) ∧ ∃ e',
      last s'.(app_history) = Some e' ∧
      map lastRestock (deref s'.(app_heap) e.(h_products)) =
        map lastRestock (deref s'.(app_heap) e'.(h_products)) ∧
      map (set_lastRestock None) (deref s'.(app_heap) e.(h_products)) =
        map (set_lastRestock None) (deref s.(app_heap) e.(h_products))).
Proof.
  intros Hr _ Hlast. destruct (reachable_wf (W := W) s Hr) as [Hh [_ _ _ Cl _]].
  rewrite (Cl e Hlast).
  eapply wp_mono; [apply (session_tick_spec _ _ wf_invariant s); [done|]|].
  { apply runSimulationTick_prev_next. eapply Forall_impl; [by apply (deref_forall product_wf), (hi_wf _ _ _ Hh)|].
    by intros p [_ ?]. }
  intros s' (o & e' & (solds & pqs & Hpairs & Hprev & Hnext) & _ & Hhist & _ & He' & _ &
             Hn & Hp & _).
  rewrite Hhist, last_snoc. split.
  - apply elem_of_app. left. by eapply last_Some_elem_of.
  - exists e'. rewrite He', Hn, Hp, Hprev, Hnext. split_and!; [done | |].
    + by eapply prev_next_lastRestock.
    + by eapply step_pairs_erase.
Qed.

(** C28. The history keeps its inventory totals: in every reachable
    state, each entry of [history] reports as [inventory_level] the
    total [currentStock] of the product objects its snapshot refers to,
    read in the current registry.  Later ticks mutate those objects
    (line 119) but only in [lastRestock], and a parameter edit only
    allocates a fresh catalog, so the totals the chart plots stay the
    stock of the objects behind each point. *)
Theorem history_records_inventory (s : AppState) :
  reachable s →
  ∀ e, e ∈ s.(app_history) →
    e.(h_agg).(inventory_level) = sumZ currentStock (deref s.(app_heap) e.(h_products)).
Proof. intros Hr. apply Forall_forall, history_inventory, Hr. Qed.

(** C29. A stopped session is quiescent: the timer cannot fire, and no
    event but Start changes the history, the registry or [currentData],
    starts the session, or sends anything. *)
Theorem stopped_session_quiescent (s : AppState) :
  reachable s → s.(app_isRunning) = false →
  enabled TimerFire s = false ∧
  ∀ ev w, ev ≠ Start → enabled ev s = true →
    let s' := (handle ev s w).1 in
    s'.(app_history) = s.(app_history) ∧ s'.(app_products) = s.(app_products) ∧
    s'.(app_currentData) = s.(app_currentData) ∧ s'.(app_isRunning) = false ∧
    s'.(app_mqtt).(sent) = s.(app_mqtt).(sent).
Proof.
  intros Hr Hrun. destruct (reachable_wf (W := W) s Hr) as [Hh [Ct _ _ _ _]]. split.
  - unfold enabled. destruct s.(app_mounted) eqn:Hm; [|done]. simpl.
    apply bool_decide_eq_false. rewrite (Ct eq_refl), Hrun. done.
  - intros ev w Hne Hen. unfold enabled in Hen. rewrite Hrun in Hen.
    destruct s.(app_mounted) eqn:Hm; [|done]. simpl in Hen.
    destruct ev; simpl; try done.
    + apply bool_decide_eq_true in Hen. by rewrite (Ct eq_refl), Hrun in Hen.
    + destruct (param_spec _ _ wf_invariant f v s Hh w) as (_ & _ & Hr' & _ & Hc & Hhi & Hp & _ & Hmq & _).
      by rewrite Hr', Hc, Hhi, Hp, Hmq.
    + unfold on_mqtt_event. destruct (client_event i e s.(app_mqtt)) as [svc sts] eqn:Ev.
      simpl. split_and!; try done.
      replace svc with (client_event i e s.(app_mqtt)).1 by (by rewrite Ev).
      apply client_event_sent.
    + simpl. split_and!; try done. apply disconnect_sent.
Qed.

(** C30. While the client is connected, a timer tick sends one message
    per product of the new registry, in order, each the
    [product_update] payload of that product, then the aggregate of the
    new history entry, all to the configured topic. *)
Theorem connected_tick_publishes (s : AppState) :
  reachable s → enabled TimerFire s = true → is_connected s.(app_mqtt) = true →
  wp (handle TimerFire s) (λ s', ∃ evs e,
      last s'.(app_history) = Some e ∧
      Forall2 (λ q ev, ∃ ts, ev = product_event ts q)
        (deref s'.(app_heap) s'.(app_products)) evs ∧
      s'.(app_mqtt).(sent) =
        (s.(app_mqtt).(sent)
         ++ map (λ ev, (MQTT_CONFIG.(TOPIC), stringify (product_event_json ev))) evs
         ++ [(MQTT_CONFIG.(TOPIC), stringify (aggregate_json e.(h_agg)))])%list).
Proof.
  intros Hr _ Hc. destruct (reachable_wf (W := W) s Hr) as [Hh _].
  eapply wp_mono; [apply (session_tick_spec _ _ wf_invariant s); [done | apply runSimulationTick_events]|].
  intros s' (o & e & Hevs & _ & Hhist & _ & _ & Ha & Hn & _ & Hmq & _).
  exists o.(tick_events), e. rewrite Hhist, last_snoc, Hn, Hmq, Ha.
  split_and!; [done | done |]. by rewrite publish_tick_connected.
Qed.

(** C31. No stockout ever happens with the seed catalog: in every
    reachable state every product of the registry is buffered (its
    reorder level covers a tick's largest demand and its stock is above
    it) and every aggregate of the history reports [stockout = 0]. *)
Theorem session_never_stocks_out (s : AppState) :
  reachable s →
  Forall buffered (deref s.(app_heap) s.(app_products)) ∧
  Forall (λ e, e.(h_agg).(stockout) = 0) s.(app_history).
Proof.
  intros Hr. pose proof (reachable_inv _ _ buffered_invariant s Hr) as [Hb _].
  split; [apply deref_forall, (hi_wf _ _ _ Hb) | apply (hi_aggs _ _ _ Hb)].
Qed.

(** C34. The stockout
    indicator of the dashboard is never lit: in every reachable state
    [MetricsDisplay] receives a [currentData] whose stockout count is not
    1, so the stock card stays blue. *)
Theorem stockout_indicator_never_lit (s : AppState) :
  reachable s →
  isStockout (option_map h_agg s.(app_currentData)) = false ∧
  stock_color (option_map h_agg s.(app_currentData)) = "text-blue-400".
Proof.
  intros Hr. pose proof (reachable_inv _ _ buffered_invariant s Hr) as [Hb _].
  destruct (reachable_wf (W := W) s Hr) as [_ [_ _ Cc _ _]].
  assert (isStockout (option_map h_agg s.(app_currentData)) = false) as Hno.
  { rewrite Cc. destruct (last s.(app_history)) as [e|] eqn:Hl; [|done].
    apply last_Some_elem_of in Hl.
    pose proof (proj1 (Forall_forall _ _) (hi_aggs _ _ _ Hb) e Hl) as He.
    simpl. apply bool_decide_eq_false. by rewrite He. }
  split; [done|]. unfold stock_color. by rewrite Hno.
Qed.
(** C36. The timer runs at the interval the form shows: in every
    reachable state, an armed interval timer was armed with the
    [simulationInterval] of the current [params].  Start arms it with
    the interval of that render (line 85), and the form cannot change
    [params] while the run it arms goes on: its inputs are disabled
    while [isRunning], and Stop clears the timer. *)
Theorem timer_runs_at_form_interval (s : AppState) :
  reachable s → ∀ v, s.(app_timer) = Some v → v = s.(app_params).(simulationInterval).
Proof.
  intros (t1 & t2 & t3 & Hr). revert s Hr.
  apply (rtc_ind_r (λ z, ∀ v, z.(app_timer) = Some v → v = z.(app_params).(simulationInterval))).
  { unfold app0. by destruct (alloc_list ∅ 0 (initialProducts t1 t2 t3)) as [[h n] locs]. }
  intros y z Hy Hyz IH.
  assert (reachable y) as Hry by (by exists t1, t2, t3).
  destruct (reachable_wf y Hry) as [Hh [Ct _ _ _ _]].
  destruct Hyz as [ev y w Hen]. destruct ev; cbn [handle].
  - destruct (start_spec _ _ wf_invariant y (λ _, True) Hh (wp_any _ _ (λ _, I)) w)
      as (_ & _ & _ & _ & _ & _ & _ & _ & _ & _ & _ & _ & _ & -> & -> & _).
    by intros v [= ->].
  - by intros v.
  - destruct (session_tick_spec _ _ wf_invariant y (λ _, True) Hh (wp_any _ _ (λ _, I)) w)
      as (_ & _ & _ & _ & _ & _ & _ & _ & _ & _ & _ & (-> & _ & _ & _ & -> & _) & _).
    exact IH.
  - cbn in Hen. apply andb_prop in Hen as [Hm Hrun%negb_true_iff].
    destruct (param_spec _ _ wf_invariant f v y Hh w)
      as (_ & _ & _ & _ & _ & _ & _ & -> & _).
    intros v' Hv'. exfalso. rewrite Hv' in Ct.
    pose proof (proj1 (Ct Hm) (mk_is_Some _ _ eq_refl)). congruence.
  - unfold on_mqtt_event. by destruct (client_event i e y.(app_mqtt)).
  - exact IH.
Qed.

(** C38. The stock bars of the product cards stay in their frame: in
    every reachable state each card [App.tsx] renders for the live
    products shows a finite percentage [Math.round(currentStock /
    maxStock * 100)] between 0 and 100 (no [NaN%], no bar wider than
    its track). *)
Theorem product_cards_bar_in_range (s : AppState) :
  reachable s →
  Forall (λ c, ∃ k, c.(card_stockPct) = Some k ∧ 0 <= k <= 100)
    (product_cards (deref s.(app_heap) s.(app_products))).
Proof.
  intros Hr. pose proof (reachable_inv _ _ buffered_invariant s Hr) as [Hb _].
  pose proof (deref_forall buffered _ s.(app_products) (hi_wf _ _ _ Hb)) as Hp.
  apply Forall_map. eapply Forall_impl; [exact Hp|].
  intros p [[Hc Hd] (H1 & H2 & H3)]. apply stock_pct_range; lia.
Qed.
(** C39. A running session never stalls (liveness): from every
    reachable state where the simulation runs and the component is
    mounted, every number [n] of timer fires is accepted, whatever the
    host draws, each fire leads to a reachable state, and the history
    grows by exactly [n] snapshots. *)
Theorem running_session_keeps_ticking (s : AppState) (w : W) (n : nat) :
  reachable s → s.(app_isRunning) = true → s.(app_mounted) = true →
  trace_enabled (repeat TimerFire n) s w = true ∧
  reachable (run_session (repeat TimerFire n) s w).1 ∧
  length (run_session (repeat TimerFire n) s w).1.(app_history) =
    (length s.(app_history) + n)%nat.
Proof.
  revert s w. induction n as [|n IH]; intros s w Hr Hrun Hm; [simpl; split_and!; [done|done|lia]|].
  destruct (timer_fire_running s w Hr Hrun Hm) as (Hen & Hr1 & Hlen & Hrun1 & Hm1).
  cbn [repeat run_session trace_enabled]. rewrite Hen.
  destruct (handle TimerFire s w) as [s1 w1]. simpl in *.
  destruct (IH s1 w1 Hr1 Hrun1 Hm1) as (A & B & C). split_and!; [done|done|lia].
Qed.
(** C40. A non-positive interval is not rejected (an error path the
    specification asks for and the code lacks): in every reachable,
    stopped, mounted state, setting the interval field to a value
    [v <= 0] and pressing Start are both accepted; the session runs with
    the interval timer armed at [v] milliseconds.  Section 7 asks that
    such a parameter be rejected before [start()] proceeds. *)
Theorem nonpositive_interval_accepted (s : AppState) (w : W) (v : Z) :
  reachable s → s.(app_isRunning) = false → s.(app_mounted) = true → v <= 0 →
  trace_enabled [ParamChange FsimulationInterval v; Start] s w = true ∧
  (run_session [ParamChange FsimulationInterval v; Start] s w).1.(app_isRunning) = true ∧
  (run_session [ParamChange FsimulationInterval v; Start] s w).1.(app_timer) = Some v.
Proof.
  intros Hr Hrun Hm _. destruct (reachable_wf (W := W) s Hr) as [Hh _].
  pose proof (param_spec _ _ wf_invariant FsimulationInterval v s Hh w) as P1.
  change (paramChange FsimulationInterval v s w)
    with (handle (ParamChange FsimulationInterval v) s w) in P1.
  assert (enabled (ParamChange FsimulationInterval v) s = true) as En1
    by (unfold enabled; by rewrite Hm, Hrun).
  cbn [trace_enabled run_session]. rewrite En1.
  destruct (handle (ParamChange FsimulationInterval v) s w) as [s1 w1].
  destruct P1 as (Hh1 & Hp1 & Hrun1 & _ & _ & _ & _ & _ & _ & Hm1 & _). simpl in *.
  assert (enabled Start s1 = true) as En2 by (unfold enabled; by rewrite Hm1, Hm, Hrun1, Hrun).
  destruct (start_spec _ _ wf_invariant s1 (λ _, True) Hh1 (wp_any _ _ (λ _, I)) w1)
    as (o & e & svc & _ & _ & _ & _ & _ & _ & _ & _ & _ & Hrun2 & Ht2 & _).
  rewrite En2. cbn [handle]. destruct (startSimulation s1 w1) as [s2 w2] eqn:E2.
  simpl in *.
  split_and!; [done|done|]. rewrite Ht2, Hp1. by destruct (app_params s).
Qed.
End SessionProperties.

(** ** Witnesses *)

Lemma first_render_reachable : reachable (W := Script) first_render.
Proof. exists 0, 0, 0. apply rtc_refl. Qed.

Lemma started_reachable : reachable (W := Script) started.
Proof. apply run_session_reachable. vm_compute. reflexivity. Qed.

Lemma session_reachable_invariant_witness :
  reachable (W := Script) started ∧
  map_Forall (λ _ p, product_wf p) started.(app_heap) ∧
  length (deref started.(app_heap) started.(app_products)) = length started.(app_products) ∧
  (started.(app_mounted) = true →
   (is_Some started.(app_timer) ↔ started.(app_isRunning) = true)) ∧
  (started.(app_mounted) = true → started.(app_isRunning) = false →
   started.(app_mqtt).(client) = None) ∧
  started.(app_currentData) = last started.(app_history) ∧
  (∀ e, started.(app_currentData) = Some e → e.(h_products) = started.(app_products)).
Proof.
  split; [exact started_reachable|].
  exact (session_reachable_invariant (W := Script) started started_reachable).
Defined.

Lemma session_refines_transport_witness :
  reachable (W := Script) started ∧
  rtc (service_step (W := Script)) mqttService0 started.(app_mqtt).
Proof.
  split; [exact started_reachable|].
  exact (session_refines_transport (W := Script) started started_reachable).
Defined.

Lemma start_resets_to_seed_witness :
  reachable (W := Script) first_render ∧ enabled Start first_render = true ∧
  wp (handle (W := Script) Start first_render) (λ s', ∃ t1 t2 t3 solds e,
      s'.(app_history) = [e] ∧ s'.(app_currentData) = Some e ∧
      s'.(app_isRunning) = true ∧
      s'.(app_timer) = Some first_render.(app_params).(simulationInterval) ∧
      tick_spec first_render.(app_params) (initialProducts t1 t2 t3) solds
        (deref s'.(app_heap) s'.(app_products)) e.(h_agg)).
Proof.
  assert (Hen : enabled Start first_render = true) by reflexivity.
  split_and!; [exact first_render_reachable | exact Hen |].
  exact (start_resets_to_seed (W := Script) first_render first_render_reachable Hen).
Defined.

Lemma first_tick_never_delivered_witness :
  reachable (W := Script) first_render ∧ enabled Start first_render = true ∧
  wp (handle (W := Script) Start first_render)
    (λ s', s'.(app_mqtt).(sent) = first_render.(app_mqtt).(sent)).
Proof.
  assert (Hen : enabled Start first_render = true) by reflexivity.
  split_and!; [exact first_render_reachable | exact Hen |].
  exact (first_tick_never_delivered (W := Script) first_render first_render_reachable Hen).
Defined.

Lemma timer_tick_appends_history_witness :
  reachable (W := Script) started ∧ enabled TimerFire started = true ∧
  wp (handle (W := Script) TimerFire started) (λ s', ∃ e solds,
      s'.(app_history) = (started.(app_history) ++ [e])%list ∧
      s'.(app_currentData) = Some e ∧ e.(h_products) = s'.(app_products) ∧
      tick_spec started.(app_params) (deref started.(app_heap) started.(app_products)) solds
        (deref s'.(app_heap) s'.(app_products)) e.(h_agg)).
Proof.
  assert (Hen : enabled TimerFire started = true) by (vm_compute; reflexivity).
  split_and!; [exact started_reachable | exact Hen |].
  exact (timer_tick_appends_history (W := Script) started started_reachable Hen).
Defined.

Lemma tick_rewrites_history_snapshot_witness :
  reachable (W := Script) started ∧ enabled TimerFire started = true ∧
  last started.(app_history) = Some started_entry ∧
  wp (handle (W := Script) TimerFire started) (λ s',
      started_entry ∈ s'.(app_history) ∧ ∃ e',
      last s'.(app_history) = Some e' ∧
      map lastRestock (deref s'.(app_heap) started_entry.(h_products)) =
        map lastRestock (deref s'.(app_heap) e'.(h_products)) ∧
      map (set_lastRestock None) (deref s'.(app_heap) started_entry.(h_products)) =
        map (set_lastRestock None) (deref started.(app_heap) started_entry.(h_products))).
Proof.
  assert (Hen : enabled TimerFire started = true) by (vm_compute; reflexivity).
  assert (Hl : last started.(app_history) = Some started_entry) by (vm_compute; reflexivity).
  split_and!; [exact started_reachable | exact Hen | exact Hl |].
  exact (tick_rewrites_history_snapshot (W := Script) started started_entry
           started_reachable Hen Hl).
Defined.

Lemma history_records_inventory_witness :
  reachable (W := Script) started ∧
  ∀ e, e ∈ started.(app_history) →
    e.(h_agg).(inventory_level) = sumZ currentStock (deref started.(app_heap) e.(h_products)).
Proof.
  split; [exact started_reachable|].
  exact (history_records_inventory (W := Script) started started_reachable).
Defined.

Lemma stopped_session_quiescent_witness :
  reachable (W := Script) first_render ∧ first_render.(app_isRunning) = false ∧
  enabled TimerFire first_render = false ∧
  ∀ ev (w : Script), ev ≠ Start → enabled ev first_render = true →
    let s' := (handle ev first_render w).1 in
    s'.(app_history) = first_render.(app_history) ∧
    s'.(app_products) = first_render.(app_products) ∧
    s'.(app_currentData) = first_render.(app_currentData) ∧
    s'.(app_isRunning) = false ∧
    s'.(app_mqtt).(sent) = first_render.(app_mqtt).(sent).
Proof.
  assert (Hs : first_render.(app_isRunning) = false) by reflexivity.
  split; [exact first_render_reachable|]. split; [exact Hs|].
  exact (stopped_session_quiescent (W := Script) first_render first_render_reachable Hs).
Defined.

Lemma connected_tick_publishes_witness :
  reachable (W := Script) started_connected ∧ enabled TimerFire started_connected = true ∧
  is_connected started_connected.(app_mqtt) = true ∧
  wp (handle (W := Script) TimerFire started_connected) (λ s', ∃ evs e,
      last s'.(app_history) = Some e ∧
      Forall2 (λ q ev, ∃ ts, ev = product_event ts q)
        (deref s'.(app_heap) s'.(app_products)) evs ∧
      s'.(app_mqtt).(sent) =
        (started_connected.(app_mqtt).(sent)
         ++ map (λ ev, (MQTT_CONFIG.(TOPIC), stringify (product_event_json ev))) evs
         ++ [(MQTT_CONFIG.(TOPIC), stringify (aggregate_json e.(h_agg)))])%list).
Proof.
  assert (Hr : reachable (W := Script) started_connected)
    by (apply run_session_reachable; vm_compute; reflexivity).
  assert (Hen : enabled TimerFire started_connected = true) by (vm_compute; reflexivity).
  assert (Hc : is_connected started_connected.(app_mqtt) = true) by (vm_compute; reflexivity).
  split_and!; [exact Hr | exact Hen | exact Hc |].
  exact (connected_tick_publishes (W := Script) started_connected Hr Hen Hc).
Defined.

Lemma session_never_stocks_out_witness :
  reachable (W := Script) started ∧
  Forall buffered (deref started.(app_heap) started.(app_products)) ∧
  Forall (λ e, e.(h_agg).(stockout) = 0) started.(app_history).
Proof.
  split; [exact started_reachable|].
  exact (session_never_stocks_out (W := Script) started started_reachable).
Defined.

Lemma stockout_indicator_never_lit_witness :
  reachable (W := Script) started ∧
  isStockout (option_map h_agg started.(app_currentData)) = false ∧
  stock_color (option_map h_agg started.(app_currentData)) = "text-blue-400".
Proof.
  split; [exact started_reachable|].
  exact (stockout_indicator_never_lit (W := Script) started started_reachable).
Defined.

Lemma timer_runs_at_form_interval_witness :
  reachable (W := Script) started ∧
  ∀ v, started.(app_timer) = Some v → v = started.(app_params).(simulationInterval).
Proof.
  split; [exact started_reachable|].
  exact (timer_runs_at_form_interval (W := Script) started started_reachable).
Defined.

Lemma product_cards_bar_in_range_witness :
  reachable (W := Script) started ∧
  Forall (λ c, ∃ k, c.(card_stockPct) = Some k ∧ 0 <= k <= 100)
    (product_cards (deref started.(app_heap) started.(app_products))).
Proof.
  split; [exact started_reachable|].
  exact (product_cards_bar_in_range (W := Script) started started_reachable).
Defined.

Lemma running_session_keeps_ticking_witness :
  reachable (W := Script) started ∧ started.(app_isRunning) = true ∧
  started.(app_mounted) = true ∧
  trace_enabled (repeat TimerFire 3) started busy_host = true ∧
  reachable (run_session (repeat TimerFire 3) started busy_host).1 ∧
  length (run_session (repeat TimerFire 3) started busy_host).1.(app_history) =
    (length started.(app_history) + 3)%nat.
Proof.
  assert (started.(app_isRunning) = true) as Hrun by reflexivity.
  assert (started.(app_mounted) = true) as Hm by reflexivity.
  split; [exact started_reachable|]. split; [exact Hrun|]. split; [exact Hm|].
  exact (running_session_keeps_ticking (W := Script) started busy_host 3
           started_reachable Hrun Hm).
Defined.

Lemma nonpositive_interval_accepted_witness :
  reachable (W := Script) first_render ∧ first_render.(app_isRunning) = false ∧
  first_render.(app_mounted) = true ∧ 0 <= 0 ∧
  trace_enabled [ParamChange FsimulationInterval 0; Start] first_render busy_host = true ∧
  (run_session [ParamChange FsimulationInterval 0; Start] first_render busy_host).1.(app_isRunning)
    = true ∧
  (run_session [ParamChange FsimulationInterval 0; Start] first_render busy_host).1.(app_timer)
    = Some 0.
Proof.
  assert (first_render.(app_isRunning) = false) as Hrun by reflexivity.
  assert (first_render.(app_mounted) = true) as Hm by reflexivity.
  split; [exact first_render_reachable|]. split; [exact Hrun|]. split; [exact Hm|].
  split; [lia|].
  exact (nonpositive_interval_accepted (W := Script) first_render busy_host 0
           first_render_reachable Hrun Hm ltac:(lia)).
Defined.
