(* ===== verification/View.v ===== *)
(** * The page: the render of [App] (App.tsx 205-265)

    What the page shows in a state of the session: the form
    ([SimulationControls] with [params] and [isRunning]), the dashboard
    ([MetricsDisplay] with [currentData] and [mqttStatus]), the chart
    ([StockChart] with [history]) and the product cards of [products],
    each fed from the state as [App] passes it.  The dashboard reads
    [currentData] through the product objects its snapshot refers to, as
    they are when the page renders.  The theorems show that in every
    reachable state the components agree with each other, and that the
    chart plots the stock of the objects behind its last 20 snapshots. *)

From Stdlib Require Import ZArith Lia String.
From stdpp Require Import base list decidable sets gmap relations.
From S2P Require Import Prelude Types Runtime TickSpec TickEngine Json JsonDecode Transport Display Session SessionProperties.

Local Open Scope Z_scope.
Local Open Scope string_scope.

Record AppView := mkView {
  view_controls : ControlsView;
  view_metrics : MetricsView;
  view_chart : ChartView;
  view_cards : list ProductCard
}.

(** [currentData] as the dashboard receives it: the aggregate and the
    product objects of its snapshot. *)
Definition current_data (s : AppState) : option (SimulationResult * list Product) :=
  option_map (λ e, (e.(h_agg), deref s.(app_heap) e.(h_products))) s.(app_currentData).

(** Lines 205-265: the props of the three components and the cards. *)
Definition render (s : AppState) : AppView :=
  mkView (controls_view s.(app_params) s.(app_isRunning))
    (metrics_view (current_data s) s.(app_mqttStatus))
    (stock_chart (map h_agg s.(app_history)))
    (product_cards (deref s.(app_heap) s.(app_products))).

(** * Lemmas *)

Section Consistency.
Context {W : Type} `{Runtime W}.

Lemma reachable_step (s s' : AppState) : reachable s → session_step s s' → reachable s'.
Proof. intros (t1 & t2 & t3 & Hr) Hs. exists t1, t2, t3. by eapply rtc_r. Qed.

(** The inventory of the last aggregate is the stock of the objects of
    its snapshot, which is [products]. *)
Lemma last_entry_inventory (s : AppState) :
  reachable s → ∀ e, last s.(app_history) = Some e →
  e.(h_agg).(inventory_level) = sumZ currentStock (deref s.(app_heap) s.(app_products)).
Proof.
  intros Hr e He. destruct (reachable_wf s Hr) as [_ [_ _ _ Cl _]].
  rewrite <- (Cl e He). apply (proj1 (Forall_forall _ _) (history_inventory s Hr)).
  by eapply last_Some_elem_of.
Qed.

End Consistency.

(** * Properties *)

Section Properties.
Context {W : Type} `{Runtime W}.

(** C32. The chart plots the stock of the last 20 snapshots: in every
    reachable state the page's [StockChart] ([history.slice(-20)], one
    area series [inventory] over [time]) draws a single series, whose
    values are, in tick order, the total [currentStock] of the product
    objects of each of the last [min 20 n] entries of the history ([n]
    its length), read in the current registry.  The reorder markers
    [chartData] computes are not drawn. *)
Theorem chart_plots_snapshot_stock (s : AppState) :
  reachable s →
  ∃ vals, drawn (render s).(view_chart) = [vals] ∧
    suffix vals (map (λ e, Some (sumZ currentStock (deref s.(app_heap) e.(h_products))))
                   s.(app_history)) ∧
    length vals = Nat.min 20 (length s.(app_history)).
Proof.
  intros Hr. eexists. split; [reflexivity|]. cbn [render view_chart stock_chart chart_data].
  unfold chartData. rewrite slice_last_map, !map_map.
  rewrite (map_ext_Forall _ (λ e, Some (sumZ currentStock (deref s.(app_heap) e.(h_products))))).
  - split; [apply map_slice_last_suffix|]. by rewrite length_map, slice_last_length.
  - apply Forall_drop. eapply Forall_impl; [exact (history_inventory s Hr)|].
    intros e He. unfold point_value. rewrite bool_decide_false, bool_decide_true by done.
    cbn [chart_point pt_inventory]. by rewrite He.
Qed.

(** C35. The dashboard agrees with the rest of the page: in every
    reachable state, before any tick the metric cards show [--], the
    chart is empty and the panel says no data was sent; after a tick the
    Current Stock card shows the total of the stocks of the product cards,
    the last point of the chart is the point of [currentData], and the
    JSON panel ([JSON.stringify(currentData, null, 2)]), read back by
    [JSON.parse], is [currentData] with the registry's products. *)
Theorem dashboard_consistent (s : AppState) :
  reachable s →
  match s.(app_currentData) with
  | None =>
      (render s).(view_metrics).(mv_stock) = ShowText "--" ∧ (render s).(view_chart).(chart_data) = [] ∧
      (render s).(view_metrics).(mv_json) = "// No data sent yet..."
  | Some e =>
      (render s).(view_metrics).(mv_stock) =
        ShowNum (sumZ currentStock (deref s.(app_heap) s.(app_products))) ∧
      last (render s).(view_chart).(chart_data) = Some (chart_point e.(h_agg)) ∧
      decode_json (strip_ws false (render s).(view_metrics).(mv_json)) =
        Some (canon (current_data_json e.(h_agg) (deref s.(app_heap) s.(app_products))))
  end.
Proof.
  intros Hr. destruct (reachable_wf s Hr) as [_ [_ _ Cc Cl _]].
  unfold render, metrics_view, current_data. cbn [view_metrics view_chart chart_data stock_chart mv_stock mv_json].
  destruct (app_currentData s) as [e|] eqn:Hcd.
  - symmetry in Cc. destruct (proj1 (last_Some _ _) Cc) as [hs Hhist].
    split_and!.
    + cbn. by rewrite (last_entry_inventory s Hr e Cc).
    + rewrite Hhist, map_app. cbn [map]. apply chartData_snoc_last.
    + cbn [option_map]. rewrite (Cl e Cc). apply json_panel_decode.
  - symmetry in Cc. apply last_None in Cc. by rewrite Cc.
Qed.

End Properties.

Lemma dashboard_consistent_witness :
  reachable (W := Script) started ∧
  match started.(app_currentData) with
  | None =>
      (render started).(view_metrics).(mv_stock) = ShowText "--" ∧
      (render started).(view_chart).(chart_data) = [] ∧
      (render started).(view_metrics).(mv_json) = "// No data sent yet..."
  | Some e =>
      (render started).(view_metrics).(mv_stock) =
        ShowNum (sumZ currentStock (deref started.(app_heap) started.(app_products))) ∧
      last (render started).(view_chart).(chart_data) = Some (chart_point e.(h_agg)) ∧
      decode_json (strip_ws false (render started).(view_metrics).(mv_json)) =
        Some (canon (current_data_json e.(h_agg) (deref started.(app_heap) started.(app_products))))
  end.
Proof.
  split; [exact started_reachable|].
  exact (dashboard_consistent (W := Script) started started_reachable).
Defined.

Lemma chart_plots_snapshot_stock_witness :
  reachable (W := Script) started ∧
  ∃ vals, drawn (render started).(view_chart) = [vals] ∧
    suffix vals (map (λ e, Some (sumZ currentStock (deref started.(app_heap) e.(h_products))))
                   started.(app_history)) ∧
    length vals = Nat.min 20 (length started.(app_history)).
Proof.
  split; [exact started_reachable|].
  exact (chart_plots_snapshot_stock (W := Script) started started_reachable).
Defined.
